(** * CanvasCollab: event store, fan-out and conflict resolution

    A shallow embedding of the collaboration core of CanvasCollab:

    - [ConflictResolution]: the client's vector clock, property-level merge
      and conflict resolver ([client/src/utils/conflictResolution.js]);
    - [EventStore]: the server's event log and shape projection
      ([server/src/services/eventStore.js]) over the tables [canvases],
      [shapes] and [events] that [server/src/db/init.js] creates;
    - [WebSocketManager]: rooms, sends and the SHAPE_EVENT / BATCH_SYNC
      handlers ([server/src/services/websocketManager.js]).
    - [SyncService]: the client's queue of edits and its handling of remote
      events ([client/src/services/syncService.js]);
    - [Rooms]: connections, joins, leaves, cursors and the dispatch of
      messages of [server/src/services/websocketManager.js].

    Conventions.
    - A JavaScript object is a finite map from its own keys to JSON values;
      [undefined] is the absence of a key ([None]); names inherited from
      [Object.prototype] are not keys.  The iteration order of keys does not
      show in any result below.
    - Numbers are integers, and a sum of counters is rounded as a double
      rounds it ([ConflictResolution.to_double]).  Payloads carry no arrays,
      and a text is not used where the code reads a number.
    - [Date.now()], [CURRENT_TIMESTAMP] and [uuidv4()] are inputs of the
      function that reads them; times are in milliseconds.
    - The identifiers handed to [EventStore] are UUIDs in the text
      PostgreSQL prints them in, which is the text [uuidv4()] generates, and
      every text fits its VARCHAR column; [Rooms.handleJoinCanvas] follows
      what the server does with another text.
    - A transaction returns [None] when a statement raises (the code rolls
      back and rethrows) and the new tables otherwise.  [EventStore.run] is
      a history in which the transactions run one after the other;
      [EventStore.storeEvent_overlapping] is a transaction that read the
      tables before other transactions committed. *)

From stdpp Require Import gmap strings list fin_maps pretty.
From Stdlib Require Import ZArith Lia Sorted.

Local Set Warnings "-register-all".
Local Open Scope Z_scope.

(** ** JSON values and the JavaScript operators the code applies to them *)

Inductive json :=
| JNull
| JBool (b : bool)
| JNum (n : Z)
| JStr (s : string)
| JObj (o : gmap string json).

(** An object literal, the value of [payload], [properties], ... *)
Abbreviation props := (gmap string json).

(** [!!v]: the falsy JSON values are [null], [false], [0] and the empty string. *)
Definition truthy (v : json) : bool :=
  match v with
  | JNull => false
  | JBool b => b
  | JNum n => negb (n =? 0)
  | JStr s => negb (String.eqb s EmptyString)
  | JObj _ => true
  end.

(** [o.k] on a value that may be [undefined]: only objects carry keys. *)
Definition field (v : option json) (k : string) : option json :=
  match v with
  | Some (JObj o) => o !! k
  | _ => None
  end.

(** [a || b] where [a] may be [undefined]. *)
Definition js_or (a : option json) (b : option json) : option json :=
  match a with
  | Some v => if truthy v then Some v else b
  | None => b
  end.


(** [new Set([...Object.keys(a), ...Object.keys(b)])]. *)
Definition allKeys {A B} (a : gmap string A) (b : gmap string B) : list string :=
  elements (dom a ∪ dom b).

(** [m[k] || 0] on a map of numbers. *)
Definition num_or_0 (m : gmap string Z) (k : string) : Z := default 0 (m !! k).

(** ** client/src/utils/conflictResolution.js *)

Module ConflictResolution.

(** *** class VectorClock: the [clock] field, node id to counter *)

Abbreviation VectorClock := (gmap string Z).



Definition get (this : VectorClock) (nodeId : string) : Z := num_or_0 this nodeId.

Definition merge (this other : VectorClock) : VectorClock :=
  foldl (fun clock nodeId =>
           <[nodeId := Z.max (num_or_0 clock nodeId) (num_or_0 other nodeId)]> clock)
        this (allKeys this other).

(** The loop of [happenedBefore]: [return false] as soon as a node is ahead,
    otherwise carry [atLeastOneLess] to the end. *)
Fixpoint happenedBefore_loop (this other : VectorClock) (nodes : list string)
    (atLeastOneLess : bool) : bool :=
  match nodes with
  | [] => atLeastOneLess
  | nodeId :: rest =>
      let thisVal := num_or_0 this nodeId in
      let otherVal := num_or_0 other nodeId in
      if otherVal <? thisVal then false
      else happenedBefore_loop this other rest
             (if thisVal <? otherVal then true else atLeastOneLess)
  end.

Definition happenedBefore (this other : VectorClock) : bool :=
  happenedBefore_loop this other (allKeys this other) false.

Definition isConcurrent (this other : VectorClock) : bool :=
  negb (happenedBefore this other) && negb (happenedBefore other this).

(** *** mergeShapeProperties *)

Definition mergeShapeProperties (baseProps : props) (localProps remoteProps : option props)
    (localTimestamps remoteTimestamps : gmap string Z) : props :=
  let lp := default ∅ localProps in
  let rp := default ∅ remoteProps in
  foldl (fun merged key =>
           let localVal := lp !! key in
           let remoteVal := rp !! key in
           let localTime := num_or_0 localTimestamps key in
           let remoteTime := num_or_0 remoteTimestamps key in
           match localVal, remoteVal with
           | Some l, None => <[key := l]> merged
           | None, Some r => <[key := r]> merged
           | Some l, Some r =>
               if remoteTime <? localTime then <[key := l]> merged
               else <[key := r]> merged
           | None, None => merged
           end)
        baseProps (allKeys lp rp).

(** *** class ConflictResolver *)

Record ConflictResolver := {
  userId : string;
  vectorClock : VectorClock;
  propertyTimestamps : gmap string (gmap string Z)   (* shapeId -> { property: timestamp } *)
}.




(** The fields of a remote SHAPE_EVENT that the resolver reads;
    [re_properties] is [remoteEvent.payload.properties]. *)
Record remoteEvent := {
  re_vectorClock : option VectorClock;
  re_propertyTimestamps : option (gmap string Z);
  re_properties : option props
}.

Inductive action := KEEP_LOCAL | APPLY_REMOTE | MERGE.

Record resolution := {
  res_action : action;
  res_shape : option props
}.

Definition resolveConflict (this : ConflictResolver) (shapeId : string)
    (localShape : props) (remote : remoteEvent) : ConflictResolver * resolution :=
  let remoteClock := default ∅ (re_vectorClock remote) in
  if happenedBefore remoteClock (vectorClock this) then
    (this, {| res_action := KEEP_LOCAL; res_shape := Some localShape |})
  else if happenedBefore (vectorClock this) remoteClock then
    (this, {| res_action := APPLY_REMOTE; res_shape := re_properties remote |})
  else
    let localTimestamps := default ∅ (propertyTimestamps this !! shapeId) in
    let remoteTimestamps := default ∅ (re_propertyTimestamps remote) in
    let merged := mergeShapeProperties localShape (Some localShape) (re_properties remote)
                    localTimestamps remoteTimestamps in
    ({| userId := userId this;
        vectorClock := merge (vectorClock this) remoteClock;
        propertyTimestamps := propertyTimestamps this |},
     {| res_action := MERGE; res_shape := Some merged |}).

Definition getVectorClock (this : ConflictResolver) : VectorClock := vectorClock this.


Definition STORED_EVENT_TYPES : list string :=
  ["USER_CONNECTED"; "USER_DISCONNECTED"; "POINTER_DOWN"; "DRAG_START"; "DRAG_END";
   "SHAPE_CREATED"; "SHAPE_EDITED"; "SHAPE_MOVED"; "SHAPE_DELETED"].

Definition shouldStoreEvent (eventType : string) : bool :=
  bool_decide (eventType ∈ STORED_EVENT_TYPES).

End ConflictResolution.

(** ** The resolver as sections 4.B and 4.C describe it *)

Module ResolverSpec.
Import ConflictResolution.

(** Section 4.B: [a] happens before [b] when no node of [a] is ahead of [b]
    and some node is behind, absent nodes reading 0. *)
Definition happens_before (a b : VectorClock) : Prop :=
  (forall n, get a n <= get b n) /\ (exists n, get a n < get b n).



End ResolverSpec.

(** ** server/src/services/eventStore.js over the tables of server/src/db/init.js *)

Module EventStore.

(** *** The three tables *)

(** [canvases(id, name, created_at, updated_at)], keyed by [id]. *)
Record canvas_row := {
  cv_name : string;
  cv_created_at : Z;
  cv_updated_at : Z
}.

(** [shapes(id, canvas_id, type, properties, z_index, created_at, updated_at,
    deleted_at)], keyed by the primary key [id]; [z_index] and [deleted_at]
    are nullable. *)
Record shape_row := {
  sr_canvas_id : string;
  sr_type : string;
  sr_properties : props;
  sr_z_index : option Z;
  sr_created_at : Z;
  sr_updated_at : Z;
  sr_deleted_at : option Z
}.

(** [events(id, canvas_id, shape_id, user_id, event_type, payload, version,
    created_at)], in insertion order. *)
Record event_row := {
  ev_id : string;
  ev_canvas_id : string;
  ev_shape_id : option string;
  ev_user_id : string;
  ev_event_type : string;
  ev_payload : props;
  ev_version : Z;
  ev_created_at : Z
}.

Record db := {
  canvases : gmap string canvas_row;
  shapes : gmap string shape_row;
  events : list event_row
}.

Definition empty_db : db := {| canvases := ∅; shapes := ∅; events := [] |}.

(** *** SQL fragments *)

(** [MAX(col)]: NULL on no rows. *)
Definition sql_max (l : list Z) : option Z :=
  foldr (fun v acc => Some (match acc with Some m => Z.max v m | None => v end)) None l.

(** [ORDER BY key ASC], rows of equal key kept in the order they come in. *)
Fixpoint insert_by {A} (le : A -> A -> bool) (x : A) (l : list A) : list A :=
  match l with
  | [] => [x]
  | y :: l' => if le x y then x :: l else y :: insert_by le x l'
  end.

Definition order_by {A} (le : A -> A -> bool) (l : list A) : list A :=
  foldr (insert_by le) [] l.

(** Ascending order on a nullable integer column: NULLs come last. *)
Definition z_index_le (a b : option Z) : bool :=
  match a, b with
  | Some x, Some y => x <=? y
  | Some _, None => true
  | None, Some _ => false
  | None, None => true
  end.

(** A parameter bound to the [VARCHAR NOT NULL] column [type]: [undefined]
    and [null] are NULL and rejected; a text is stored; the driver binds a
    number or a boolean as the text [toString()] gives, for an integer
    below 10^21 its decimal digits.  Greater numbers, which JavaScript
    writes with an exponent, and objects, whose JSON text follows the order
    of their keys, are outside the model ([None]). *)
Definition sql_varchar_not_null (v : option json) : option string :=
  match v with
  | Some (JStr s) => Some s
  | Some (JNum n) => if Z.abs n <? 10 ^ 21 then Some (pretty n) else None
  | Some (JBool b) => Some (if b then "true" else "false")
  | _ => None
  end.

(** A parameter bound to the [INTEGER] column [z_index]: an integer of 32
    bits is stored, anything else is rejected. *)
Definition sql_integer (v : json) : option Z :=
  match v with
  | JNum n => if (-2147483648 <=? n) && (n <=? 2147483647) then Some n else None
  | _ => None
  end.

(** [JSON.stringify(v)] bound to the [jsonb] column [properties] or to the
    right side of [properties || $1], where it is an object; [undefined] is
    NULL, which the NOT NULL column rejects.  A number, a text or a boolean
    is a [jsonb] value as well: PostgreSQL stores it, and [||] makes an
    array of the two operands.  A row of this model holds an object only
    ([sr_properties]), so such an operand is outside the model ([None]); the
    theorems on the projection take payloads whose properties are objects. *)
Definition sql_jsonb_object (v : option json) : option props :=
  match v with
  | Some (JObj o) => Some o
  | _ => None
  end.

(** [jsonb_set(target, '{key}', $v::jsonb)] is strict: a NULL argument
    (from [JSON.stringify(undefined)]) gives NULL. *)
Definition jsonb_set (target : option props) (key : string) (v : option json) : option props :=
  match target, v with
  | Some o, Some x => Some (<[key := x]> o)
  | _, _ => None
  end.

(** [UPDATE shapes SET ... WHERE id = $id AND canvas_id = $canvasId]: [f]
    computes the new row, [None] when a NOT NULL column would become NULL or
    an expression raises; no matching row is no work and no error. *)
Definition update_shape (d : db) (canvasId : string) (shapeId : option string)
    (f : shape_row -> option shape_row) : option db :=
  match shapeId with
  | None => Some d
  | Some id =>
      match shapes d !! id with
      | Some r =>
          if String.eqb (sr_canvas_id r) canvasId then
            match f r with
            | Some r' => Some {| canvases := canvases d;
                                 shapes := <[id := r']> (shapes d);
                                 events := events d |}
            | None => None
            end
          else Some d
      | None => Some d
      end
  end.

Definition with_properties (r : shape_row) (now : Z) (p : props) : shape_row :=
  {| sr_canvas_id := sr_canvas_id r; sr_type := sr_type r; sr_properties := p;
     sr_z_index := sr_z_index r; sr_created_at := sr_created_at r;
     sr_updated_at := now; sr_deleted_at := sr_deleted_at r |}.

Definition with_deleted_at (r : shape_row) (now : Z) (del : option Z) : shape_row :=
  {| sr_canvas_id := sr_canvas_id r; sr_type := sr_type r;
     sr_properties := sr_properties r;
     sr_z_index := sr_z_index r; sr_created_at := sr_created_at r;
     sr_updated_at := now; sr_deleted_at := del |}.

Definition with_z_index (r : shape_row) (now : Z) (z : option Z) : shape_row :=
  {| sr_canvas_id := sr_canvas_id r; sr_type := sr_type r;
     sr_properties := sr_properties r;
     sr_z_index := z; sr_created_at := sr_created_at r;
     sr_updated_at := now; sr_deleted_at := sr_deleted_at r |}.

(** *** Stored kinds and the property merge *)

Definition STORED_EVENT_TYPES : list string :=
  ["USER_CONNECTED"; "USER_DISCONNECTED"; "POINTER_DOWN"; "DRAG_START"; "DRAG_END";
   "SHAPE_CREATED"; "SHAPE_EDITED"; "SHAPE_MOVED"; "SHAPE_DELETED"].

Definition shouldStoreEvent (eventType : string) : bool :=
  bool_decide (eventType ∈ STORED_EVENT_TYPES).

(** [ToNumber] on the values compared as timestamps; [None] is NaN.
    A text is not read as a number here. *)
Definition js_number (v : json) : option Z :=
  match v with
  | JNum n => Some n
  | JBool b => Some (if b then 1 else 0)
  | JNull => Some 0
  | JStr _ => None
  | JObj _ => None
  end.

(** [a > b] after [ToNumber]; false when either side is NaN. *)
Definition js_gt (a b : json) : bool :=
  match js_number a, js_number b with
  | Some x, Some y => y <? x
  | _, _ => false
  end.

(** [Object.entries(v)]: the own keys of an object, none for other values. *)
Definition entries (v : json) : list (string * json) :=
  match v with
  | JObj o => map_to_list o
  | _ => []
  end.

(** [x || 0] read on a key of a JSON value. *)
Definition field_or_0 (v : json) (k : string) : json :=
  default (JNum 0) (js_or (field (Some v) k) (Some (JNum 0))).

Definition mergeProperties (serverProps : props) (clientProps : json)
    (serverTimestamps clientTimestamps : json) : props :=
  foldl (fun merged kv =>
           let serverTime := field_or_0 serverTimestamps kv.1 in
           let clientTime := field_or_0 clientTimestamps kv.1 in
           if js_gt clientTime serverTime then <[kv.1 := kv.2]> merged else merged)
        serverProps (entries clientProps).

(** [FROM events WHERE canvas_id = $1], in insertion order. *)
Definition canvas_events (canvasId : string) (d : db) : list event_row :=
  filter (fun e => ev_canvas_id e = canvasId) (events d).

(** [SELECT COALESCE(MAX(version), 0) FROM events WHERE canvas_id = $1]. *)
Definition getCurrentVersion (canvasId : string) (d : db) : Z :=
  default 0 (sql_max (ev_version <$> canvas_events canvasId d)).

(** *** detectConflict and resolveConflict *)

Record conflict := {
  cf_shapeId : string;
  cf_serverProperties : props;
  cf_serverTimestamp : Z
}.

Definition detectConflict (d : db) (canvasId : string) (shapeId : option string)
    (payload : props) : option conflict :=
  match shapeId with
  | None => None
  | Some id =>
      if String.eqb id EmptyString then None
      else
        match shapes d !! id with
        | None => None
        | Some serverShape =>
            if negb (String.eqb (sr_canvas_id serverShape) canvasId) then None
            else
              let clientTimestamp :=
                js_or (js_or (payload !! "timestamp")
                             (field (payload !! "propertyTimestamps") "timestamp"))
                      (Some (JNum 0)) in
              let serverTimestamp := sr_updated_at serverShape in
              let newer :=
                match clientTimestamp ≫= js_number with
                | Some c => c - 1000 <? serverTimestamp
                | None => false
                end in
              if match payload !! "vectorClock" with
                 | Some vc => truthy vc && newer
                 | None => false
                 end
              then Some {| cf_shapeId := id;
                           cf_serverProperties := sr_properties serverShape;
                           cf_serverTimestamp := serverTimestamp |}
              else None
        end
  end.

Definition resolveConflict (c : conflict) (clientPayload : props) : props :=
  let serverProperties := cf_serverProperties c in
  let clientProperties :=
    default (JObj clientPayload)
      (js_or (js_or (clientPayload !! "properties") (clientPayload !! "position"))
             (Some (JObj clientPayload))) in
  let serverTimestamps := JObj ∅ in
  let clientTimestamps :=
    default (JObj ∅) (js_or (clientPayload !! "propertyTimestamps") (Some (JObj ∅))) in
  let mergedProperties :=
    mergeProperties serverProperties clientProperties serverTimestamps clientTimestamps in
  <["conflictResolved" := JBool true]> (<["properties" := JObj mergedProperties]> clientPayload).

(** *** applyEvent *)

(** [INSERT INTO shapes ... ON CONFLICT (id) DO UPDATE SET properties, z_index,
    updated_at, deleted_at = NULL]: the proposed row must satisfy the column
    constraints on both paths; a fresh row needs its canvas; the existing row
    keeps [canvas_id], [type] and [created_at]. *)
Definition upsert_shape (d : db) (canvasId : string) (shapeId : option string)
    (shapeType properties : option json) (zIndex : json) (now : Z) : option db :=
  match shapeId, sql_varchar_not_null shapeType, sql_jsonb_object properties,
        sql_integer zIndex with
  | Some id, Some ty, Some ps, Some z =>
      match shapes d !! id with
      | Some r =>
          Some {| canvases := canvases d;
                  shapes := <[id := {| sr_canvas_id := sr_canvas_id r;
                                       sr_type := sr_type r;
                                       sr_properties := ps;
                                       sr_z_index := Some z;
                                       sr_created_at := sr_created_at r;
                                       sr_updated_at := now;
                                       sr_deleted_at := None |}]> (shapes d);
                  events := events d |}
      | None =>
          match canvases d !! canvasId with
          | Some _ =>
              Some {| canvases := canvases d;
                      shapes := <[id := {| sr_canvas_id := canvasId;
                                           sr_type := ty;
                                           sr_properties := ps;
                                           sr_z_index := Some z;
                                           sr_created_at := now;
                                           sr_updated_at := now;
                                           sr_deleted_at := None |}]> (shapes d);
                      events := events d |}
          | None => None
          end
      end
  | _, _, _, _ => None
  end.

(** [properties = properties || $1] for an object [$1]: the keys of [$1]
    win; see [sql_jsonb_object] for other operands. *)
Definition concat_properties (now : Z) (v : option json) (r : shape_row) : option shape_row :=
  match sql_jsonb_object v with
  | Some o => Some (with_properties r now (o ∪ sr_properties r))
  | None => None
  end.

(** [properties = jsonb_set(jsonb_set(properties, '{x}', $1), '{y}', $2)]. *)
Definition set_position (now : Z) (x y : option json) (r : shape_row) : option shape_row :=
  match jsonb_set (jsonb_set (Some (sr_properties r)) "x" x) "y" y with
  | Some p => Some (with_properties r now p)
  | None => None
  end.

Definition applyEvent (d : db) (canvasId eventType : string) (shapeId : option string)
    (payload : props) (now : Z) : option db :=
  if String.eqb eventType "SHAPE_CREATED" then
    let properties := js_or (payload !! "properties") (Some (JObj payload)) in
    let shapeType := js_or (payload !! "type") (field properties "type") in
    let zIndex :=
      default (JNum 0)
        (js_or (js_or (payload !! "zIndex") (field properties "zIndex")) (Some (JNum 0))) in
    upsert_shape d canvasId shapeId shapeType properties zIndex now
  else if String.eqb eventType "SHAPE_EDITED" then
    let editProps := js_or (payload !! "properties") (Some (JObj payload)) in
    update_shape d canvasId shapeId (concat_properties now editProps)
  else if String.eqb eventType "SHAPE_MOVED" then
    let position := js_or (payload !! "position") (Some (JObj payload)) in
    update_shape d canvasId shapeId
      (set_position now (field position "x") (field position "y"))
  else if String.eqb eventType "DRAG_END" then
    match payload !! "endPosition" with
    | Some endPosition =>
        if truthy endPosition then
          update_shape d canvasId shapeId
            (set_position now (field (Some endPosition) "x") (field (Some endPosition) "y"))
        else Some d
    | None => Some d
    end
  else if String.eqb eventType "SHAPE_DELETED" then
    update_shape d canvasId shapeId (fun r => Some (with_deleted_at r now (Some now)))
  else if String.eqb eventType "POINTER_DOWN" || String.eqb eventType "DRAG_START"
          || String.eqb eventType "USER_CONNECTED"
          || String.eqb eventType "USER_DISCONNECTED" then
    Some d
  else if String.eqb eventType "SHAPE_UPDATED" then
    update_shape d canvasId shapeId (concat_properties now (payload !! "properties"))
  else if String.eqb eventType "SHAPE_RESIZED" then
    update_shape d canvasId shapeId (concat_properties now (Some (JObj payload)))
  else if String.eqb eventType "SHAPE_ROTATED" then
    update_shape d canvasId shapeId
      (fun r => match jsonb_set (Some (sr_properties r)) "rotation" (payload !! "rotation") with
                | Some p => Some (with_properties r now p)
                | None => None
                end)
  else if String.eqb eventType "SHAPE_RESTORED" then
    update_shape d canvasId shapeId (fun r => Some (with_deleted_at r now None))
  else if String.eqb eventType "Z_INDEX_CHANGED" then
    update_shape d canvasId shapeId
      (fun r => match payload !! "zIndex" with
                | None | Some JNull => Some (with_z_index r now None)
                | Some v => match sql_integer v with
                            | Some z => Some (with_z_index r now (Some z))
                            | None => None
                            end
                end)
  else Some d.

(** *** storeEvent *)

(** The object [storeEvent] returns, and an entry of [storedEvents] in a
    batch (which has no [stored] key). *)
Record stored_event := {
  se_eventId : option string;
  se_version : Z;
  se_canvasId : string;
  se_userId : string;
  se_eventType : string;
  se_shapeId : option string;
  se_payload : props;
  se_stored : option bool;
  se_hadConflict : option bool
}.

(** [INSERT INTO events ...]: the row needs its canvas (foreign key). *)
Definition insert_event (d : db) (e : event_row) : option db :=
  match canvases d !! ev_canvas_id e with
  | Some _ => Some {| canvases := canvases d; shapes := shapes d;
                      events := events d ++ [e] |}
  | None => None
  end.

(** [UPDATE canvases SET updated_at = CURRENT_TIMESTAMP WHERE id = $1]. *)
Definition touch_canvas (d : db) (canvasId : string) (now : Z) : db :=
  {| canvases := alter (fun c => {| cv_name := cv_name c;
                                    cv_created_at := cv_created_at c;
                                    cv_updated_at := now |}) canvasId (canvases d);
     shapes := shapes d;
     events := events d |}.

(** [now] is CURRENT_TIMESTAMP of the transaction, [eventId] the [uuidv4()]. *)
Definition storeEvent (d : db) (canvasId userId eventType : string)
    (shapeId : option string) (payload : props) (now : Z) (eventId : string)
    : option (db * stored_event) :=
  if negb (shouldStoreEvent eventType) then
    let version := getCurrentVersion canvasId d in
    Some (d, {| se_eventId := None; se_version := version; se_canvasId := canvasId;
                se_userId := userId; se_eventType := eventType; se_shapeId := shapeId;
                se_payload := payload; se_stored := Some false;
                se_hadConflict := None |})
  else
    let conflict := detectConflict d canvasId shapeId payload in
    let resolvedPayload :=
      match conflict with
      | Some c => resolveConflict c payload
      | None => payload
      end in
    let version := getCurrentVersion canvasId d + 1 in
    d1 ← insert_event d {| ev_id := eventId; ev_canvas_id := canvasId;
                           ev_shape_id := shapeId; ev_user_id := userId;
                           ev_event_type := eventType; ev_payload := resolvedPayload;
                           ev_version := version; ev_created_at := now |};
    d2 ← applyEvent d1 canvasId eventType shapeId resolvedPayload now;
    Some (touch_canvas d2 canvasId now,
          {| se_eventId := Some eventId; se_version := version; se_canvasId := canvasId;
             se_userId := userId; se_eventType := eventType; se_shapeId := shapeId;
             se_payload := resolvedPayload; se_stored := Some true;
             se_hadConflict := Some (bool_decide (is_Some conflict)) |}).

(** *** Transactions that overlap

    [storeEvent] takes a connection of its own from the pool and no lock:
    under READ COMMITTED, the isolation level its transaction runs at, a
    statement sees what was committed when it starts.  In
    [storeEvent_overlapping seen d] the two reads of the call,
    [detectConflict] and the next version, see the tables [seen]; other
    transactions commit and leave the tables [d]; the statements from the
    INSERT to the COMMIT run on [d].  With [seen = d] it is [storeEvent]. *)
Definition storeEvent_overlapping (seen d : db) (canvasId userId eventType : string)
    (shapeId : option string) (payload : props) (now : Z) (eventId : string)
    : option (db * stored_event) :=
  if negb (shouldStoreEvent eventType) then
    let version := getCurrentVersion canvasId seen in
    Some (d, {| se_eventId := None; se_version := version; se_canvasId := canvasId;
                se_userId := userId; se_eventType := eventType; se_shapeId := shapeId;
                se_payload := payload; se_stored := Some false;
                se_hadConflict := None |})
  else
    let conflict := detectConflict seen canvasId shapeId payload in
    let resolvedPayload :=
      match conflict with
      | Some c => resolveConflict c payload
      | None => payload
      end in
    let version := getCurrentVersion canvasId seen + 1 in
    d1 ← insert_event d {| ev_id := eventId; ev_canvas_id := canvasId;
                           ev_shape_id := shapeId; ev_user_id := userId;
                           ev_event_type := eventType; ev_payload := resolvedPayload;
                           ev_version := version; ev_created_at := now |};
    d2 ← applyEvent d1 canvasId eventType shapeId resolvedPayload now;
    Some (touch_canvas d2 canvasId now,
          {| se_eventId := Some eventId; se_version := version; se_canvasId := canvasId;
             se_userId := userId; se_eventType := eventType; se_shapeId := shapeId;
             se_payload := resolvedPayload; se_stored := Some true;
             se_hadConflict := Some (bool_decide (is_Some conflict)) |}).

(** *** storeBatchEvents *)

(** An element of the [events] array handed to [storeBatchEvents]; the
    handler spreads the submitted event, so [localEventId] travels along. *)
Record batch_event := {
  be_localEventId : option string;
  be_userId : string;
  be_eventType : string;
  be_shapeId : option string;
  be_payload : props
}.

Record conflict_report := {
  cr_shapeId : option string;
  cr_localVersion : option json;
  cr_serverVersion : props;
  cr_serverTimestamps : props
}.

(** The [for] loop; [ids k] is the [uuidv4()] drawn for the [k]-th stored
    event of the batch. *)
Fixpoint storeBatchEvents_loop (d : db) (canvasId : string) (events : list batch_event)
    (now : Z) (ids : nat -> string)
    (storedEvents : list stored_event) (conflicts : list conflict_report)
    : option (db * list stored_event * list conflict_report) :=
  match events with
  | [] => Some (d, storedEvents, conflicts)
  | event :: rest =>
      let userId := be_userId event in
      let eventType := be_eventType event in
      let shapeId := be_shapeId event in
      let payload := be_payload event in
      if negb (shouldStoreEvent eventType) then
        storeBatchEvents_loop d canvasId rest now ids storedEvents conflicts
      else
        let conflict := detectConflict d canvasId shapeId payload in
        let resolvedPayload :=
          match conflict with
          | Some c => resolveConflict c payload
          | None => payload
          end in
        let conflicts' :=
          match conflict with
          | Some c =>
              conflicts ++
              [{| cr_shapeId := shapeId;
                  cr_localVersion := js_or (payload !! "properties") (Some (JObj payload));
                  cr_serverVersion := cf_serverProperties c;
                  cr_serverTimestamps := ∅ |}]
          | None => conflicts
          end in
        let version := getCurrentVersion canvasId d + 1 in
        let eventId := ids (length storedEvents) in
        d1 ← insert_event d {| ev_id := eventId; ev_canvas_id := canvasId;
                               ev_shape_id := shapeId; ev_user_id := userId;
                               ev_event_type := eventType; ev_payload := resolvedPayload;
                               ev_version := version; ev_created_at := now |};
        d2 ← applyEvent d1 canvasId eventType shapeId resolvedPayload now;
        storeBatchEvents_loop d2 canvasId rest now ids
          (storedEvents ++
           [{| se_eventId := Some eventId; se_version := version; se_canvasId := canvasId;
               se_userId := userId; se_eventType := eventType; se_shapeId := shapeId;
               se_payload := resolvedPayload; se_stored := None;
               se_hadConflict := Some (bool_decide (is_Some conflict)) |}])
          conflicts'
  end.

Definition storeBatchEvents (d : db) (canvasId : string) (events : list batch_event)
    (now : Z) (ids : nat -> string)
    : option (db * (list stored_event * list conflict_report)) :=
  match storeBatchEvents_loop d canvasId events now ids [] [] with
  | Some (d', storedEvents, conflicts) =>
      Some (touch_canvas d' canvasId now, (storedEvents, conflicts))
  | None => None
  end.

(** *** Reads *)

(** [WHERE canvas_id = $1 AND version > $2 ORDER BY version ASC]. *)
Definition getEventsSinceVersion (canvasId : string) (sinceVersion : Z) (d : db)
    : list event_row :=
  order_by (fun a b => ev_version a <=? ev_version b)
    (filter (fun e => ev_canvas_id e = canvasId ∧ sinceVersion < ev_version e) (events d)).

(** [FROM shapes WHERE canvas_id = $1 AND deleted_at IS NULL ORDER BY z_index ASC],
    as (id, row) pairs. *)
Definition live_shapes (canvasId : string) (s : gmap string shape_row)
    : list (string * shape_row) :=
  order_by (fun a b => z_index_le (sr_z_index a.2) (sr_z_index b.2))
    (map_to_list
       (filter (fun kr => sr_canvas_id kr.2 = canvasId ∧ sr_deleted_at kr.2 = None) s)).

(** [{ id: row.id, type: row.type, ...row.properties, zIndex: row.z_index }]. *)
Definition shape_object (kr : string * shape_row) : props :=
  <["zIndex" := match sr_z_index kr.2 with Some z => JNum z | None => JNull end]>
    (sr_properties kr.2 ∪ <["type" := JStr (sr_type kr.2)]> (<["id" := JStr kr.1]> ∅)).

Record canvas_state := {
  cs_shapes : list props;
  cs_version : Z
}.

Definition getCanvasState (canvasId : string) (d : db) : canvas_state :=
  {| cs_shapes := shape_object <$> live_shapes canvasId (shapes d);
     cs_version := getCurrentVersion canvasId d |}.

(** [INSERT INTO canvases (id, name) ... ON CONFLICT (id) DO UPDATE SET
    updated_at = CURRENT_TIMESTAMP RETURNING *]. *)
Definition getOrCreateCanvas (d : db) (canvasId name : string) (now : Z) : db * canvas_row :=
  let row :=
    match canvases d !! canvasId with
    | Some c => {| cv_name := cv_name c; cv_created_at := cv_created_at c;
                   cv_updated_at := now |}
    | None => {| cv_name := name; cv_created_at := now; cv_updated_at := now |}
    end in
  ({| canvases := <[canvasId := row]> (canvases d); shapes := shapes d;
      events := events d |}, row).

Definition getCanvas (d : db) (canvasId : string) : option canvas_row :=
  canvases d !! canvasId.

(** *** Serial histories of the store

    The writes a process performs on the tables when each transaction is
    committed or rolled back before the next one starts; a transaction that
    raises leaves the tables as they were.  The code does not make
    transactions wait for one another: what overlapping ones do is
    [storeEvent_overlapping]. *)
Inductive call :=
| CallGetOrCreateCanvas (canvasId name : string) (now : Z)
| CallStoreEvent (canvasId userId eventType : string) (shapeId : option string)
    (payload : props) (now : Z) (eventId : string)
| CallStoreBatchEvents (canvasId : string) (events : list batch_event) (now : Z)
    (ids : nat -> string).

Definition run_call (d : db) (c : call) : db :=
  match c with
  | CallGetOrCreateCanvas canvasId name now => (getOrCreateCanvas d canvasId name now).1
  | CallStoreEvent canvasId userId eventType shapeId payload now eventId =>
      match storeEvent d canvasId userId eventType shapeId payload now eventId with
      | Some (d', _) => d'
      | None => d
      end
  | CallStoreBatchEvents canvasId events now ids =>
      match storeBatchEvents d canvasId events now ids with
      | Some (d', _) => d'
      | None => d
      end
  end.

Definition run (calls : list call) : db := foldl run_call empty_db calls.

End EventStore.

(** ** server/src/services/websocketManager.js *)

Module WebSocketManager.
Import EventStore.

(** [ws.readyState]. *)
Inductive readyState := CONNECTING | OPEN | CLOSING | CLOSED.

(** The value of [this.connections.get(ws)]. *)
Record connInfo := {
  conn_id : string;
  conn_userId : string;
  conn_canvasId : option string;
  conn_username : option string;
  conn_isAlive : bool
}.

(** The [SHAPE_EVENT] broadcast. *)
Record shape_event_msg := {
  sm_eventId : option string;
  sm_eventType : string;
  sm_shapeId : option string;
  sm_payload : props;
  sm_userId : string;
  sm_username : option string;
  sm_version : Z;
  sm_stored : option bool;
  sm_vectorClock : option json;
  sm_propertyTimestamps : option json
}.

(** An entry of [BATCH_SYNC_RESULT.storedEvents]. *)
Record sync_ack := {
  sa_localEventId : option string;
  sa_eventId : option string;
  sa_version : Z;
  sa_hadConflict : option bool
}.

(** The messages the two handlers below write to a socket. *)
Inductive message :=
| ERROR (error : string)
| EVENT_ACK (localEventId eventId : option string) (version : Z)
    (stored hadConflict : option bool)
| SHAPE_EVENT (m : shape_event_msg)
| BATCH_SYNC_RESULT (storedEvents : list sync_ack) (missedEvents : list event_row)
    (currentState : canvas_state) (conflicts : list conflict_report)
| BATCH_SYNC_RESULT_failed (error : string).

(** Sockets are named by numbers.  [sent] records every [ws.send] in order. *)
Record manager := {
  canvasRooms : gmap string (gset nat);
  connections : gmap nat connInfo;
  ws_readyState : nat -> readyState;
  sent : list (nat * message)
}.

Definition is_open (s : readyState) : bool :=
  match s with OPEN => true | _ => false end.

Definition send (m : manager) (ws : nat) (msg : message) : manager :=
  if is_open (ws_readyState m ws) then
    {| canvasRooms := canvasRooms m; connections := connections m;
       ws_readyState := ws_readyState m; sent := sent m ++ [(ws, msg)] |}
  else m.

Definition sendError (m : manager) (ws : nat) (error : string) : manager :=
  send m ws (ERROR error).

Definition broadcastToCanvas (m : manager) (canvasId : string) (msg : message)
    (excludeWs : option nat) : manager :=
  match canvasRooms m !! canvasId with
  | None => m
  | Some room =>
      foldl (fun m ws => if bool_decide (Some ws ≠ excludeWs) then send m ws msg else m)
            m (elements room)
  end.

(** [!connInfo.canvasId]. *)
Definition joined (c : connInfo) : option string :=
  match conn_canvasId c with
  | Some id => if String.eqb id EmptyString then None else Some id
  | None => None
  end.

(** A client [SHAPE_EVENT] message that carries a payload object; what the
    handler does with a message without [payload] is
    [Rooms.handleShapeEvent_without_payload]. *)
Record shape_event_request := {
  rq_eventType : string;
  rq_shapeId : option string;
  rq_payload : props;
  rq_localEventId : option string
}.

Definition handleShapeEvent (m : manager) (d : db) (ws : nat) (c : connInfo)
    (message : shape_event_request) (now : Z) (eventId : string) : manager * db :=
  match joined c with
  | None => (sendError m ws "Not joined to any canvas", d)
  | Some canvasId =>
      let eventType := rq_eventType message in
      let shapeId := rq_shapeId message in
      let payload := rq_payload message in
      let localEventId := rq_localEventId message in
      match storeEvent d canvasId (conn_userId c) eventType shapeId payload now eventId with
      | Some (d', storedEvent) =>
          let m1 := send m ws (EVENT_ACK localEventId (se_eventId storedEvent)
                                 (se_version storedEvent) (se_stored storedEvent)
                                 (se_hadConflict storedEvent)) in
          (broadcastToCanvas m1 canvasId
             (SHAPE_EVENT {| sm_eventId := se_eventId storedEvent;
                             sm_eventType := eventType;
                             sm_shapeId := shapeId;
                             sm_payload := se_payload storedEvent;
                             sm_userId := conn_userId c;
                             sm_username := conn_username c;
                             sm_version := se_version storedEvent;
                             sm_stored := se_stored storedEvent;
                             sm_vectorClock := payload !! "vectorClock";
                             sm_propertyTimestamps := payload !! "propertyTimestamps" |})
             (Some ws), d')
      | None => (sendError m ws "Failed to process event", d)
      end
  end.

(** An element of [BATCH_SYNC.events]. *)
Record sync_event := {
  sy_localEventId : option string;
  sy_eventType : string;
  sy_shapeId : option string;
  sy_payload : props
}.

(** [events.find(le => le.shapeId === e.shapeId && le.eventType === e.eventType)
    ?.localEventId]. *)
Definition find_localEventId (events : list sync_event) (e : stored_event) : option string :=
  match find (fun le => bool_decide (sy_shapeId le = se_shapeId e) &&
                        String.eqb (sy_eventType le) (se_eventType e)) events with
  | Some le => sy_localEventId le
  | None => None
  end.

Definition handleBatchSync (m : manager) (d : db) (ws : nat) (c : connInfo)
    (events : list sync_event) (lastKnownVersion : Z) (now : Z) (ids : nat -> string)
    : manager * db :=
  match joined c with
  | None => (sendError m ws "Not joined to any canvas", d)
  | Some canvasId =>
      let missedEvents := getEventsSinceVersion canvasId lastKnownVersion d in
      match storeBatchEvents d canvasId
              ((fun e => {| be_localEventId := sy_localEventId e;
                            be_userId := conn_userId c;
                            be_eventType := sy_eventType e;
                            be_shapeId := sy_shapeId e;
                            be_payload := sy_payload e |}) <$> events)
              now ids with
      | Some (d', (storedEvents, conflicts)) =>
          let state := getCanvasState canvasId d' in
          let m1 :=
            send m ws
              (BATCH_SYNC_RESULT
                 ((fun e => {| sa_localEventId := find_localEventId events e;
                               sa_eventId := se_eventId e;
                               sa_version := se_version e;
                               sa_hadConflict := se_hadConflict e |}) <$> storedEvents)
                 missedEvents state conflicts) in
          (foldl (fun m event =>
                    broadcastToCanvas m canvasId
                      (SHAPE_EVENT {| sm_eventId := se_eventId event;
                                      sm_eventType := se_eventType event;
                                      sm_shapeId := se_shapeId event;
                                      sm_payload := se_payload event;
                                      sm_userId := conn_userId c;
                                      sm_username := conn_username c;
                                      sm_version := se_version event;
                                      sm_stored := None;
                                      sm_vectorClock := se_payload event !! "vectorClock";
                                      sm_propertyTimestamps :=
                                        se_payload event !! "propertyTimestamps" |})
                      (Some ws))
                 m1 storedEvents, d')
      | None => (send m ws (BATCH_SYNC_RESULT_failed "Failed to sync events"), d)
      end
  end.

(** What the handler wrote to socket [ws] on top of the earlier sends. *)
Definition sent_to (ws : nat) (log : list (nat * message)) : list message :=
  (filter (fun p => p.1 = ws) log).*2.

End WebSocketManager.

(** ** The projection as section 4.D.1 describes it *)

Module ProjectionSpec.
Import EventStore.

(** A rule that changes an existing shape of the canvas and nothing else. *)
Definition change_shape (t : gmap string shape_row) (shapeId : option string)
    (f : shape_row -> option shape_row) : gmap string shape_row :=
  match shapeId with
  | Some id =>
      match t !! id with
      | Some r => match f r with Some r' => <[id := r']> t | None => t end
      | None => t
      end
  | None => t
  end.

(** One row of the table of section 4.D.1, on the shapes of one canvas keyed
    by shape id, reading the payload of section 4.A:
    [SHAPE_CREATED.payload = {type, properties, zIndex}],
    [SHAPE_EDITED.payload = {properties}],
    [SHAPE_MOVED.payload = {position: {x, y}}],
    [DRAG_END.payload = {startPosition, endPosition, timestamp}].
    - SHAPE_CREATED: upsert, set type, properties and zIndex, clear deletedAt;
    - SHAPE_EDITED: shallow-merge [payload.properties] into the properties;
    - SHAPE_MOVED: patch x and y from [payload.position];
    - DRAG_END: patch x and y if [endPosition] is present;
    - SHAPE_DELETED: set deletedAt;
    - every other kind: no effect.
    What else a payload carries ([vectorClock], [propertyTimestamps], keys
    beside [properties]) is not read.  The time of a change is the commit
    time of its event. *)
Definition rule (t : gmap string shape_row) (e : event_row) : gmap string shape_row :=
  let payload := ev_payload e in
  let now := ev_created_at e in
  let kind := ev_event_type e in
  if String.eqb kind "SHAPE_CREATED" then
    match ev_shape_id e, payload !! "type", payload !! "properties" with
    | Some id, Some (JStr type), Some (JObj properties) =>
        <[id := {| sr_canvas_id := ev_canvas_id e;
                   sr_type := type;
                   sr_properties := properties;
                   sr_z_index := match payload !! "zIndex" with
                                 | Some (JNum zIndex) => Some zIndex
                                 | _ => None
                                 end;
                   sr_created_at := match t !! id with
                                    | Some r => sr_created_at r
                                    | None => now
                                    end;
                   sr_updated_at := now;
                   sr_deleted_at := None |}]> t
    | _, _, _ => t
    end
  else if String.eqb kind "SHAPE_EDITED" then
    change_shape t (ev_shape_id e)
      (fun r => match payload !! "properties" with
                | Some (JObj edit) => Some (with_properties r now (edit ∪ sr_properties r))
                | _ => None
                end)
  else if String.eqb kind "SHAPE_MOVED" then
    change_shape t (ev_shape_id e)
      (fun r => match field (payload !! "position") "x",
                      field (payload !! "position") "y" with
                | Some x, Some y =>
                    Some (with_properties r now (<["y" := y]> (<["x" := x]> (sr_properties r))))
                | _, _ => None
                end)
  else if String.eqb kind "DRAG_END" then
    match payload !! "endPosition" with
    | Some endPosition =>
        change_shape t (ev_shape_id e)
          (fun r => match field (Some endPosition) "x", field (Some endPosition) "y" with
                    | Some x, Some y =>
                        Some (with_properties r now
                                (<["y" := y]> (<["x" := x]> (sr_properties r))))
                    | _, _ => None
                    end)
    | None => t
    end
  else if String.eqb kind "SHAPE_DELETED" then
    change_shape t (ev_shape_id e) (fun r => Some (with_deleted_at r now (Some now)))
  else t.

(** The left fold of the rules over a list of events, from no shapes. *)
Definition projection (evs : list event_row) : gmap string shape_row :=
  foldl rule ∅ evs.

(** The state the fold describes: the live shapes by ascending zIndex, inlined
    as [getCanvasState] returns them, and the greatest version. *)
Definition state (canvasId : string) (evs : list event_row) : canvas_state :=
  {| cs_shapes := shape_object <$> live_shapes canvasId (projection evs);
     cs_version := default 0 (sql_max (ev_version <$> evs)) |}.






(** One event committed by [storeEvent] or by an iteration of
    [storeBatchEvents]: [e] takes the next version of its canvas, is appended
    to the log and applied to the shapes. *)
Definition commits (d : db) (e : event_row) (d' : db) : Prop :=
  shouldStoreEvent (ev_event_type e) = true /\
  ev_version e = getCurrentVersion (ev_canvas_id e) d + 1 /\
  exists d1, insert_event d e = Some d1 /\
    applyEvent d1 (ev_canvas_id e) (ev_event_type e) (ev_shape_id e) (ev_payload e)
      (ev_created_at e) = Some d'.

(** The versions of every canvas are 1, 2, 3, ... in the order of insertion. *)
Definition versions_dense (d : db) : Prop :=
  forall canvasId,
    ev_version <$> canvas_events canvasId d
    = Z.of_nat <$> seq 1 (length (canvas_events canvasId d)).


End ProjectionSpec.

(** ** The server's conflict check as section 4.C describes it *)

Module ServerConflictSpec.
Import EventStore.





End ServerConflictSpec.

(** ** The messages of a stored SHAPE_EVENT *)

Module FanOutSpec.
Import EventStore WebSocketManager.



(** The sessions attached to a canvas. *)
Definition room (m : manager) (canvasId : string) : gset nat :=
  default ∅ (canvasRooms m !! canvasId).

End FanOutSpec.

(** ** The acknowledgements of a batch *)

Module BatchSyncSpec.
Import EventStore WebSocketManager.

(** Two submitted events with equal [shapeId] and [eventType]. *)
Definition same_key (a b : sync_event) : Prop :=
  sy_shapeId a = sy_shapeId b /\ sy_eventType a = sy_eventType b.

(** [x] is the first event of the batch with the key of [le]. *)
Definition first_same_key (events : list sync_event) (le x : sync_event) : Prop :=
  exists j, events !! j = Some x /\ same_key x le /\
            forall j' y, (j' < j)%nat -> events !! j' = Some y -> ¬ same_key y le.

(** The submitted events of a stored kind, in order: one stored event each. *)
Definition storable (events : list sync_event) : list sync_event :=
  filter (fun le => shouldStoreEvent (sy_eventType le) = true) events.

(** The element [handleBatchSync] hands to the store for a submitted event. *)
Definition to_batch (c : connInfo) (e : sync_event) : batch_event :=
  {| be_localEventId := sy_localEventId e;
     be_userId := conn_userId c;
     be_eventType := sy_eventType e;
     be_shapeId := sy_shapeId e;
     be_payload := sy_payload e |}.

End BatchSyncSpec.

(** ** client/src/services/syncService.js: the parts that drive the resolver *)

Module SyncService.
Import ConflictResolution.









End SyncService.

(** ** Histories of the store and what they keep *)

Module HistorySpec.
Import EventStore.

(** A call that stores a SHAPE_CREATED for the shape [id]. *)
Definition creates (id : string) (c : call) : Prop :=
  match c with
  | CallGetOrCreateCanvas _ _ _ => False
  | CallStoreEvent _ _ eventType shapeId _ _ _ =>
      eventType = "SHAPE_CREATED" /\ shapeId = Some id
  | CallStoreBatchEvents _ events _ _ =>
      Exists (fun e => be_eventType e = "SHAPE_CREATED" /\ be_shapeId e = Some id) events
  end.

(** The events of a batch stored one [storeEvent] after the other, at one
    time; [k] counts the ids drawn so far. *)
Fixpoint store_each (d : db) (canvasId : string) (events : list batch_event) (now : Z)
    (ids : nat -> string) (k : nat) : option db :=
  match events with
  | [] => Some d
  | e :: rest =>
      match storeEvent d canvasId (be_userId e) (be_eventType e) (be_shapeId e)
              (be_payload e) now (ids k) with
      | Some (d', _) =>
          store_each d' canvasId rest now ids
            (if shouldStoreEvent (be_eventType e) then S k else k)
      | None => None
      end
  end.

(** What a shape row keeps for good. *)
Definition same_identity (r r' : shape_row) : Prop :=
  sr_canvas_id r' = sr_canvas_id r /\ sr_type r' = sr_type r /\
  sr_created_at r' = sr_created_at r.

(** Every event and every shape belongs to a canvas of the table, and every
    event is of a stored kind. *)
Definition well_referenced (d : db) : Prop :=
  (forall e, e ∈ events d ->
     is_Some (canvases d !! ev_canvas_id e) /\ shouldStoreEvent (ev_event_type e) = true) /\
  (forall id r, shapes d !! id = Some r -> is_Some (canvases d !! sr_canvas_id r)).

(** The tables with another table of canvases. *)
Definition with_canvases (cs : gmap string canvas_row) (d : db) : db :=
  {| canvases := cs; shapes := shapes d; events := events d |}.

End HistorySpec.

(** ** server/src/services/websocketManager.js: rooms and connections

    The handlers that attach sockets to canvases and detach them, over the
    sockets, connection records and ready states of [WebSocketManager].  A
    room is the [Set] of the source in the order of insertion.  A handler
    runs to its end before the next message or close is handled.

    A message is followed where its fields are what the client sends or are
    missing: [canvasId], [username], [shapeId] and [localEventId] are texts
    or absent, [eventType] is a text, [payload] is an object or absent,
    [sinceVersion] is an integer or absent.  The pool reaches the database,
    so a statement raises for its values only.  In [handleJoinCanvas] that
    is the INSERT of [getOrCreateCanvas] on an id that is no uuid, which the
    [catch] branch answers with JOIN_ERROR; the reads of [handleGetState]
    do not raise, so its [catch] branch is not reached. *)

Module Rooms.
Import EventStore.

Abbreviation connInfo := WebSocketManager.connInfo.
Abbreviation readyState := WebSocketManager.readyState.
Abbreviation joined := WebSocketManager.joined.
Abbreviation is_open := WebSocketManager.is_open.

(** *** The uuid type of PostgreSQL

    [canvases.id] is a UUID column.  The server reads a uuid as 32
    hexadecimal digits in upper or lower case, with an optional hyphen
    after each group of four digits and optional braces around the whole,
    and prints it in lower case in groups of 8, 4, 4, 4 and 12 digits. *)

(** The characters [-], [{] and the double quote. *)
Definition hyphen : Ascii.ascii := Ascii.ascii_of_nat 45.
Definition left_brace : Ascii.ascii := Ascii.ascii_of_nat 123.
Definition double_quote : Ascii.ascii := Ascii.ascii_of_nat 34.

(** A hexadecimal digit in lower case. *)
Definition hex_lower (c : Ascii.ascii) : option Ascii.ascii :=
  let n := Ascii.nat_of_ascii c in
  if ((48 <=? n) && (n <=? 57) || (97 <=? n) && (n <=? 102))%nat then Some c
  else if ((65 <=? n) && (n <=? 70))%nat then Some (Ascii.ascii_of_nat (n + 32))
  else None.

(** The bytes [i], [i + 1], ... of the uuid, [n] of them: two digits each,
    and a hyphen is skipped after a byte of odd index that is not the last.
    The result is the digits read and the rest of the text. *)
Fixpoint uuid_bytes (n i : nat) (src : string) : option (list Ascii.ascii * string) :=
  match n with
  | O => Some ([], src)
  | S n' =>
      match src with
      | String a (String b rest) =>
          match hex_lower a, hex_lower b with
          | Some a', Some b' =>
              let rest' :=
                match rest with
                | String c tail =>
                    if Ascii.eqb c hyphen && Nat.odd i && (i <? 15)%nat then tail else rest
                | EmptyString => rest
                end in
              match uuid_bytes n' (S i) rest' with
              | Some (digits, rest'') => Some (a' :: b' :: digits, rest'')
              | None => None
              end
          | _, _ => None
          end
      | _ => None
      end
  end.

Definition uuid_out (digits : list Ascii.ascii) : string :=
  let group (from len : nat) := String.string_of_list_ascii (take len (drop from digits)) in
  String.append (group 0 8)%nat
    (String hyphen (String.append (group 8 4)%nat
       (String hyphen (String.append (group 12 4)%nat
          (String hyphen (String.append (group 16 4)%nat
             (String hyphen (group 20 12)%nat))))))).

(** The text a uuid column gives back for [source]; [None] where reading
    [source] as a uuid raises. *)
Definition uuid_in (source : string) : option string :=
  let '(braces, src) :=
    match source with
    | String c rest => if Ascii.eqb c left_brace then (true, rest) else (false, source)
    | EmptyString => (false, source)
    end in
  match uuid_bytes 16 0 src with
  | Some (digits, rest) =>
      if String.eqb rest (if braces : bool then "}" else EmptyString)
      then Some (uuid_out digits) else None
  | None => None
  end.

(** The [message] of the error PostgreSQL raises then (in the wording of
    the versions that have the [gen_random_uuid()] of the schema). *)
Definition uuid_syntax_error (source : string) : string :=
  String.append "invalid input syntax for type uuid: "
    (String double_quote (String.append source (String double_quote EmptyString))).

(** An entry of [getCanvasUsers]. *)
Record user := {
  u_userId : string;
  u_username : option string
}.

(** What is written to a socket: the messages of [WebSocketManager] and
    those of the handlers below.  [SHAPE_EVENT_without_payload] is the
    SHAPE_EVENT broadcast of an event that is not stored and has no payload:
    [eventId] null, [stored] false, and no [payload], [vectorClock] or
    [propertyTimestamps]. *)
Inductive frame :=
| Core (m : WebSocketManager.message)
| JOIN_SUCCESS (canvasId userId username : string)
| JOIN_ERROR (canvasId error : string)
| CANVAS_STATE (canvasId : string) (shapes : list props) (version : Z) (users : list user)
| USER_JOINED (userId username : string)
| USER_LEFT (userId : string)
| INCREMENTAL_UPDATE (events : list event_row)
| CURSOR_MOVE (userId : string) (username : option string) (x y : option json)
| SHAPE_EVENT_without_payload (eventType : string) (shapeId : option string)
    (userId : string) (username : option string) (version : Z).

Record hub := {
  canvasRooms : gmap string (list nat);
  connections : gmap nat connInfo;
  ws_readyState : nat -> readyState;
  sent : list (nat * frame)
}.

Definition with_rooms (h : hub) (rooms : gmap string (list nat)) : hub :=
  {| canvasRooms := rooms; connections := connections h;
     ws_readyState := ws_readyState h; sent := sent h |}.

Definition with_connections (h : hub) (conns : gmap nat connInfo) : hub :=
  {| canvasRooms := canvasRooms h; connections := conns;
     ws_readyState := ws_readyState h; sent := sent h |}.

Definition with_canvasId (c : connInfo) (canvasId : option string) : connInfo :=
  {| WebSocketManager.conn_id := WebSocketManager.conn_id c;
     WebSocketManager.conn_userId := WebSocketManager.conn_userId c;
     WebSocketManager.conn_canvasId := canvasId;
     WebSocketManager.conn_username := WebSocketManager.conn_username c;
     WebSocketManager.conn_isAlive := WebSocketManager.conn_isAlive c |}.

Definition with_username (c : connInfo) (username : string) : connInfo :=
  {| WebSocketManager.conn_id := WebSocketManager.conn_id c;
     WebSocketManager.conn_userId := WebSocketManager.conn_userId c;
     WebSocketManager.conn_canvasId := WebSocketManager.conn_canvasId c;
     WebSocketManager.conn_username := Some username;
     WebSocketManager.conn_isAlive := WebSocketManager.conn_isAlive c |}.

(** [room.add(ws)] and [room.delete(ws)]. *)
Definition room_add (ws : nat) (room : list nat) : list nat :=
  if decide (ws ∈ room) then room else room ++ [ws].

Definition room_delete (ws : nat) (room : list nat) : list nat :=
  filter (fun x => x <> ws) room.

Definition send (h : hub) (ws : nat) (msg : frame) : hub :=
  if WebSocketManager.is_open (ws_readyState h ws) then
    {| canvasRooms := canvasRooms h; connections := connections h;
       ws_readyState := ws_readyState h; sent := sent h ++ [(ws, msg)] |}
  else h.

Definition sendError (h : hub) (ws : nat) (error : string) : hub :=
  send h ws (Core (WebSocketManager.ERROR error)).

Definition broadcastToCanvas (h : hub) (canvasId : string) (msg : frame)
    (excludeWs : option nat) : hub :=
  match canvasRooms h !! canvasId with
  | None => h
  | Some room =>
      foldl (fun h ws => if bool_decide (Some ws ≠ excludeWs) then send h ws msg else h)
            h room
  end.

Definition getCanvasUsers (h : hub) (canvasId : string) : list user :=
  match canvasRooms h !! canvasId with
  | None => []
  | Some room =>
      omap (fun ws =>
              match connections h !! ws with
              | Some connInfo =>
                  Some {| u_userId := WebSocketManager.conn_userId connInfo;
                          u_username := WebSocketManager.conn_username connInfo |}
              | None => None
              end) room
  end.

(** The handler of ['connection']: [userId] is the [userId] of the URL or
    a fresh [uuidv4()]. *)
Definition connect (h : hub) (ws : nat) (connectionId userId : string) : hub :=
  with_connections h
    (<[ws := {| WebSocketManager.conn_id := connectionId;
                WebSocketManager.conn_userId := userId;
                WebSocketManager.conn_canvasId := None;
                WebSocketManager.conn_username := None;
                WebSocketManager.conn_isAlive := true |}]> (connections h)).

(** [connInfo] is the entry of [ws] in [connections], the object the
    caller read there; the assignment to [connInfo.canvasId] is the update
    of that entry. *)
Definition handleLeaveCanvas (h : hub) (ws : nat) (connInfo : connInfo) : hub :=
  match WebSocketManager.joined connInfo with
  | None => h
  | Some canvasId =>
      let h1 :=
        match canvasRooms h !! canvasId with
        | Some room =>
            let room := room_delete ws room in
            if decide (length room = 0%nat)
            then with_rooms h (delete canvasId (canvasRooms h))
            else with_rooms h (<[canvasId := room]> (canvasRooms h))
        | None => h
        end in
      let h2 :=
        broadcastToCanvas h1 canvasId (USER_LEFT (WebSocketManager.conn_userId connInfo))
          None in
      with_connections h2 (<[ws := with_canvasId connInfo None]> (connections h2))
  end.

(** [username || `User-${connInfo.userId.slice(0, 4)}`]. *)
Definition username_or_default (username : option string) (userId : string) : string :=
  match username with
  | Some name => if String.eqb name EmptyString
                 then String.append "User-" (String.substring 0 4 userId) else name
  | None => String.append "User-" (String.substring 0 4 userId)
  end.

(** [now] is the CURRENT_TIMESTAMP of [getOrCreateCanvas].  Where the id
    is no uuid the INSERT raises after the socket has left its canvas, and
    the [catch] branch writes JOIN_ERROR. *)
Definition handleJoinCanvas (h : hub) (d : db) (ws : nat) (connInfo : connInfo)
    (canvasId username : option string) (now : Z) : hub * db :=
  match canvasId with
  | None => (sendError h ws "Canvas ID is required", d)
  | Some canvasId =>
      if String.eqb canvasId EmptyString
      then (sendError h ws "Canvas ID is required", d)
      else
        let h1 :=
          match WebSocketManager.joined connInfo with
          | Some _ => handleLeaveCanvas h ws connInfo
          | None => h
          end in
        match uuid_in canvasId with
        | None => (send h1 ws (JOIN_ERROR canvasId (uuid_syntax_error canvasId)), d)
        | Some _ =>
            let d1 := (getOrCreateCanvas d canvasId "Untitled Canvas" now).1 in
            let username :=
              username_or_default username (WebSocketManager.conn_userId connInfo) in
            let connInfo := with_username (with_canvasId connInfo (Some canvasId)) username in
            let room := default [] (canvasRooms h1 !! canvasId) in
            let h2 :=
              {| canvasRooms := <[canvasId := room_add ws room]> (canvasRooms h1);
                 connections := <[ws := connInfo]> (connections h1);
                 ws_readyState := ws_readyState h1; sent := sent h1 |} in
            let state := getCanvasState canvasId d1 in
            let userId := WebSocketManager.conn_userId connInfo in
            let h3 := send h2 ws (JOIN_SUCCESS canvasId userId username) in
            let h4 := send h3 ws (CANVAS_STATE canvasId (cs_shapes state) (cs_version state)
                                    (getCanvasUsers h3 canvasId)) in
            (broadcastToCanvas h4 canvasId (USER_JOINED userId username) (Some ws), d1)
        end
  end.

(** [handleShapeEvent] on a message without [payload].  For a stored kind
    the transaction of [storeEvent] raises, in [detectConflict] at
    [payload.timestamp] or at the INSERT of a NULL payload, and is rolled
    back; another kind is acknowledged and broadcast as it is. *)
Definition handleShapeEvent_without_payload (h : hub) (d : db) (ws : nat)
    (connInfo : connInfo) (eventType : string) (shapeId localEventId : option string)
    : hub :=
  match WebSocketManager.joined connInfo with
  | None => sendError h ws "Not joined to any canvas"
  | Some canvasId =>
      if shouldStoreEvent eventType then sendError h ws "Failed to process event"
      else
        let version := getCurrentVersion canvasId d in
        let h1 :=
          send h ws (Core (WebSocketManager.EVENT_ACK localEventId None version
                             (Some false) None)) in
        broadcastToCanvas h1 canvasId
          (SHAPE_EVENT_without_payload eventType shapeId
             (WebSocketManager.conn_userId connInfo)
             (WebSocketManager.conn_username connInfo) version)
          (Some ws)
  end.

(** [sinceVersion] is absent or an integer that fits the BIGINT column. *)
Definition handleGetState (h : hub) (d : db) (ws : nat) (connInfo : connInfo)
    (sinceVersion : option Z) : hub :=
  match WebSocketManager.joined connInfo with
  | None => sendError h ws "Not joined to any canvas"
  | Some canvasId =>
      match sinceVersion with
      | Some v => send h ws (INCREMENTAL_UPDATE (getEventsSinceVersion canvasId v d))
      | None =>
          let state := getCanvasState canvasId d in
          send h ws (CANVAS_STATE canvasId (cs_shapes state) (cs_version state)
                       (getCanvasUsers h canvasId))
      end
  end.

Definition handleCursorMove (h : hub) (ws : nat) (connInfo : connInfo)
    (x y : option json) : hub :=
  match WebSocketManager.joined connInfo with
  | None => h
  | Some canvasId =>
      broadcastToCanvas h canvasId
        (CURSOR_MOVE (WebSocketManager.conn_userId connInfo)
           (WebSocketManager.conn_username connInfo) x y)
        (Some ws)
  end.

Definition handleDisconnect (h : hub) (ws : nat) : hub :=
  match connections h !! ws with
  | Some connInfo =>
      let h1 :=
        match WebSocketManager.joined connInfo with
        | Some _ => handleLeaveCanvas h ws connInfo
        | None => h
        end in
      with_connections h1 (delete ws (connections h1))
  | None => h
  end.

(** What is written to [ws], in order. *)
Definition received (ws : nat) (h : hub) : list frame :=
  (filter (fun p => p.1 = ws) (sent h)).*2.

(** The rooms and connections as [WebSocketManager] has them, nothing
    written yet, and the writes of a handler of [WebSocketManager] added to
    the log. *)
Definition to_manager (h : hub) : WebSocketManager.manager :=
  {| WebSocketManager.canvasRooms := list_to_set <$> canvasRooms h;
     WebSocketManager.connections := connections h;
     WebSocketManager.ws_readyState := ws_readyState h;
     WebSocketManager.sent := [] |}.

Definition deliver (h : hub) (m : WebSocketManager.manager) : hub :=
  {| canvasRooms := canvasRooms h; connections := connections h;
     ws_readyState := ws_readyState h;
     sent := sent h ++ ((fun p => (p.1, Core p.2)) <$> WebSocketManager.sent m) |}.

(** A parsed message of a client, by its [type]. *)
Inductive request :=
| ReqJoinCanvas (canvasId username : option string)
| ReqLeaveCanvas
| ReqShapeEvent (message : WebSocketManager.shape_event_request)
| ReqShapeEventWithoutPayload (eventType : string) (shapeId localEventId : option string)
| ReqBatchSync (events : list WebSocketManager.sync_event) (lastKnownVersion : Z)
| ReqGetState (sinceVersion : option Z)
| ReqCursorMove (x y : option json)
| ReqOther (type : string).

(** [now] is the time of the transaction the message opens, [eventId] and
    [ids] are the [uuidv4()] values it draws. *)
Definition handleMessage (h : hub) (d : db) (ws : nat) (message : request) (now : Z)
    (eventId : string) (ids : nat -> string) : hub * db :=
  match connections h !! ws with
  | None => (h, d)
  | Some connInfo =>
      match message with
      | ReqJoinCanvas canvasId username =>
          handleJoinCanvas h d ws connInfo canvasId username now
      | ReqLeaveCanvas => (handleLeaveCanvas h ws connInfo, d)
      | ReqShapeEvent message =>
          let '(m, d') :=
            WebSocketManager.handleShapeEvent (to_manager h) d ws connInfo message now
              eventId in
          (deliver h m, d')
      | ReqShapeEventWithoutPayload eventType shapeId localEventId =>
          (handleShapeEvent_without_payload h d ws connInfo eventType shapeId localEventId,
           d)
      | ReqBatchSync events lastKnownVersion =>
          let '(m, d') :=
            WebSocketManager.handleBatchSync (to_manager h) d ws connInfo events
              lastKnownVersion now ids in
          (deliver h m, d')
      | ReqGetState sinceVersion => (handleGetState h d ws connInfo sinceVersion, d)
      | ReqCursorMove x y => (handleCursorMove h ws connInfo x y, d)
      | ReqOther type =>
          (sendError h ws (String.append "Unknown message type: " type), d)
      end
  end.

(** *** Histories of the server

    What reaches the server: a socket connects (a socket object is new and
    OPEN when it does), changes its ready state, sends a message, or
    closes. *)
Inductive input :=
| Connection (ws : nat) (connectionId userId : string)
| ReadyState (ws : nat) (state : readyState)
| Message (ws : nat) (message : request) (now : Z) (eventId : string) (ids : nat -> string)
| Close (ws : nat).

Definition serve (s : hub * db) (i : input) : hub * db :=
  match i with
  | Connection ws connectionId userId =>
      match connections s.1 !! ws with
      | Some _ => s
      | None =>
          (connect {| canvasRooms := canvasRooms s.1; connections := connections s.1;
                      ws_readyState :=
                        fun x => if decide (x = ws) then WebSocketManager.OPEN
                                 else ws_readyState s.1 x;
                      sent := sent s.1 |} ws connectionId userId, s.2)
      end
  | ReadyState ws state =>
      ({| canvasRooms := canvasRooms s.1; connections := connections s.1;
          ws_readyState := fun x => if decide (x = ws) then state else ws_readyState s.1 x;
          sent := sent s.1 |}, s.2)
  | Message ws message now eventId ids => handleMessage s.1 s.2 ws message now eventId ids
  | Close ws => (handleDisconnect s.1 ws, s.2)
  end.

Definition start : hub * db :=
  ({| canvasRooms := ∅; connections := ∅;
      ws_readyState := fun _ => WebSocketManager.CONNECTING; sent := [] |}, empty_db).

Definition serve_all (inputs : list input) : hub * db := foldl serve start inputs.

(** The rooms hold exactly the sockets whose connection is joined to them,
    each once, and no room is empty. *)
Definition rooms_match_connections (h : hub) : Prop :=
  (forall canvasId room, canvasRooms h !! canvasId = Some room ->
     room <> [] /\ NoDup room /\
     forall ws, ws ∈ room ->
       exists c, connections h !! ws = Some c /\
                 WebSocketManager.joined c = Some canvasId) /\
  (forall ws c canvasId, connections h !! ws = Some c ->
     WebSocketManager.joined c = Some canvasId ->
     exists room, canvasRooms h !! canvasId = Some room /\ ws ∈ room).

(** The socket [ws] is in no room. *)
Definition in_no_room (h : hub) (ws : nat) : Prop :=
  forall canvasId room, canvasRooms h !! canvasId = Some room -> ws ∉ room.

(** The first step of a join: the socket leaves the canvas it is on. *)
Definition left_first (h : hub) (ws : nat) (c : connInfo) : hub :=
  match WebSocketManager.joined c with
  | Some _ => handleLeaveCanvas h ws c
  | None => h
  end.

(** The connection of a socket once it has joined [canvasId]. *)
Definition joined_as (c : connInfo) (canvasId : string) (username : option string)
    : connInfo :=
  with_username (with_canvasId c (Some canvasId))
    (username_or_default username (WebSocketManager.conn_userId c)).

(** Every canvas a connection is joined to has a uuid for its id and a
    row. *)
Definition joined_canvases_exist (s : hub * db) : Prop :=
  forall ws c canvasId,
    connections s.1 !! ws = Some c -> WebSocketManager.joined c = Some canvasId ->
    is_Some (uuid_in canvasId) /\ is_Some (getCanvas s.2 canvasId).

End Rooms.

(** ** Identifiers of the worked examples *)

Module Examples.

Definition C1 : string := "00000000-0000-0000-0000-000000000001".
Definition S1 : string := "5a1e0000-0000-4000-8000-000000000001".
Definition S2 : string := "5a1e0000-0000-4000-8000-000000000002".
Definition evt1 : string := "e0000000-0000-4000-8000-000000000001".
Definition evt2 : string := "e0000000-0000-4000-8000-000000000002".
Definition evt3 : string := "e0000000-0000-4000-8000-000000000003".
Definition evt4 : string := "e0000000-0000-4000-8000-000000000004".

End Examples.

(** * Properties *)

(** ** Vector clocks and the client resolver *)

Module ConflictResolutionFacts.
Import ConflictResolution Examples.

Lemma num_or_0_not_dom (m : gmap string Z) (n : string) :
  n ∉ dom m -> num_or_0 m n = 0.
Proof.
  intros Hn. unfold num_or_0.
  apply not_elem_of_dom in Hn. by rewrite Hn.
Qed.

Lemma happenedBefore_loop_true (a b : VectorClock) (nodes : list string) (acc : bool) :
  happenedBefore_loop a b nodes acc = true <->
  (forall n, n ∈ nodes -> get a n <= get b n) /\
  (acc = true \/ exists n, n ∈ nodes /\ get a n < get b n).
Proof.
  revert acc. induction nodes as [|k nodes IH]; intros acc; simpl.
  - split.
    + intros ->. split; [intros n Hn; by apply elem_of_nil in Hn | by left].
    + intros [_ [H | (n & Hn & _)]]; [done | by apply elem_of_nil in Hn].
  - unfold get in *. destruct (Z.ltb_spec (num_or_0 b k) (num_or_0 a k)) as [Hgt | Hle].
    + split; [done |]. intros [Hall _].
      specialize (Hall k (list_elem_of_here _ _)). lia.
    + rewrite IH. split.
      * intros [Hall Hex]. split.
        { intros n [-> | Hn]%elem_of_cons; [lia | by apply Hall]. }
        destruct (Z.ltb_spec (num_or_0 a k) (num_or_0 b k)) as [Hlt | Hge].
        { right. exists k. split; [apply list_elem_of_here | done]. }
        destruct Hex as [-> | (n & Hn & Hlt)]; [by left |].
        right. exists n. split; [by apply list_elem_of_further | done].
      * intros [Hall Hex]. split.
        { intros n Hn. apply Hall. by apply list_elem_of_further. }
        destruct (Z.ltb_spec (num_or_0 a k) (num_or_0 b k)) as [Hlt | Hge]; [by left |].
        destruct Hex as [-> | (n & [-> | Hn]%elem_of_cons & Hlt)]; [by left | lia |].
        right. by exists n.
Qed.

(** [happenedBefore] is the strict pointwise order of section 4.B. *)
Lemma happenedBefore_true (a b : VectorClock) :
  happenedBefore a b = true <->
  (forall n, get a n <= get b n) /\ (exists n, get a n < get b n).
Proof.
  unfold happenedBefore. rewrite happenedBefore_loop_true. unfold allKeys, get.
  assert (Hout : forall n, n ∉ elements (dom a ∪ dom b) ->
                           num_or_0 a n = 0 /\ num_or_0 b n = 0).
  { intros n Hn. rewrite elem_of_elements, not_elem_of_union in Hn.
    destruct Hn. split; by apply num_or_0_not_dom. }
  split.
  - intros [Hall [Hf | (n & Hn & Hlt)]]; [done |]. split; [| by exists n].
    intros n'. destruct (decide (n' ∈ elements (dom a ∪ dom b))) as [Hin | Hnin].
    + by apply Hall.
    + destruct (Hout n' Hnin) as [-> ->]. lia.
  - intros [Hall (n & Hlt)]. split; [intros; apply Hall |].
    right. exists n. split; [| done].
    destruct (decide (n ∈ elements (dom a ∪ dom b))) as [Hin | Hnin]; [done |].
    destruct (Hout n Hnin) as [Ha Hb]. lia.
Qed.

Lemma happenedBefore_asymmetric (a b : VectorClock) :
  happenedBefore a b = true -> happenedBefore b a = false.
Proof.
  intros Hab. apply not_true_is_false. intros Hba.
  apply happenedBefore_true in Hab as [_ (n & Hlt)].
  apply happenedBefore_true in Hba as [Hall _].
  specialize (Hall n). lia.
Qed.







(** C4: when the local clock happened before the remote one, the remote
    clock did not happen before the local one, and the resolver does not
    answer KEEP_LOCAL. *)
Theorem C4_never_keep_local_for_a_later_event (this : ConflictResolver)
    (shapeId : string) (localShape : props) (remote : remoteEvent) :
  ResolverSpec.happens_before (vectorClock this) (default ∅ (re_vectorClock remote)) ->
  happenedBefore (default ∅ (re_vectorClock remote)) (vectorClock this) = false /\
  res_action (resolveConflict this shapeId localShape remote).2 <> KEEP_LOCAL.
Proof.
  intros Hab%happenedBefore_true.
  pose proof (happenedBefore_asymmetric _ _ Hab) as Hba.
  split; [done |]. unfold resolveConflict. cbv zeta. by rewrite Hba, Hab.
Qed.

Lemma C4_never_keep_local_witness :
  let this := {| userId := "A"; vectorClock := {[ "A" := 1 ]};
                 propertyTimestamps := ∅ |} in
  let remote := {| re_vectorClock := Some (<[ "B" := 1 ]> {[ "A" := 1 ]});
                   re_propertyTimestamps := None;
                   re_properties := Some {[ "x" := JNum 7 ]} |} in
  happenedBefore (default ∅ (re_vectorClock remote)) (vectorClock this) = false /\
  res_action (resolveConflict this S1 {[ "x" := JNum 1 ]} remote).2 <> KEEP_LOCAL.
Proof.
  cbv zeta. apply C4_never_keep_local_for_a_later_event.
  apply happenedBefore_true. vm_compute. reflexivity.
Defined.





End ConflictResolutionFacts.

(** ** The event store *)

Module EventStoreFacts.
Import EventStore ProjectionSpec Examples.

(** *** What a transaction leaves alone *)

Lemma update_shape_frame d canvasId shapeId f d' :
  update_shape d canvasId shapeId f = Some d' ->
  events d' = events d /\ canvases d' = canvases d.
Proof.
  unfold update_shape. intros H.
  repeat case_match; simplify_eq; done.
Qed.

Lemma upsert_shape_frame d canvasId shapeId ty ps z now d' :
  upsert_shape d canvasId shapeId ty ps z now = Some d' ->
  events d' = events d /\ canvases d' = canvases d.
Proof.
  unfold upsert_shape. intros H.
  repeat case_match; simplify_eq; done.
Qed.

Lemma applyEvent_frame d canvasId eventType shapeId payload now d' :
  applyEvent d canvasId eventType shapeId payload now = Some d' ->
  events d' = events d /\ canvases d' = canvases d.
Proof.
  unfold applyEvent. intros H.
  repeat match type of H with
         | (if ?b then _ else _) = _ => destruct b
         | match ?x with _ => _ end = _ => destruct x
         end;
    simplify_eq; eauto using update_shape_frame, upsert_shape_frame.
Qed.

Lemma insert_event_inv d e d1 :
  insert_event d e = Some d1 ->
  is_Some (canvases d !! ev_canvas_id e) /\
  d1 = {| canvases := canvases d; shapes := shapes d; events := events d ++ [e] |}.
Proof.
  unfold insert_event. intros H. case_match; simplify_eq. eauto.
Qed.

Lemma commits_events d e d' :
  commits d e d' -> events d' = events d ++ [e] /\ canvases d' = canvases d.
Proof.
  intros (_ & _ & d1 & [_ ->]%insert_event_inv & Happ).
  by apply applyEvent_frame in Happ.
Qed.

(** *** From the two writers to single commits *)

Lemma storeEvent_stored d canvasId userId eventType shapeId payload now eventId d' r :
  shouldStoreEvent eventType = true ->
  storeEvent d canvasId userId eventType shapeId payload now eventId = Some (d', r) ->
  exists e d2,
    commits d e d2 /\ d' = touch_canvas d2 canvasId now /\
    e = {| ev_id := eventId; ev_canvas_id := canvasId; ev_shape_id := shapeId;
           ev_user_id := userId; ev_event_type := eventType;
           ev_payload := se_payload r; ev_version := se_version r;
           ev_created_at := now |} /\
    se_eventId r = Some eventId /\ se_stored r = Some true /\
    se_version r = getCurrentVersion canvasId d + 1 /\
    se_payload r = match detectConflict d canvasId shapeId payload with
                   | Some c => resolveConflict c payload
                   | None => payload
                   end /\
    se_hadConflict r = Some (bool_decide (is_Some (detectConflict d canvasId shapeId payload))).
Proof.
  intros Hs. unfold storeEvent. rewrite Hs. cbn [negb]. cbv zeta.
  intros H. apply bind_Some in H as (d1 & Hins & H).
  apply bind_Some in H as (d2 & Happ & H). simplify_eq.
  eexists _, d2. split; [| by cbn].
  split; [done |]. split; [done |]. by exists d1.
Qed.

Section preserved.
Variable P : db -> Prop.
Hypothesis P_commits : forall d e d', P d -> commits d e d' -> P d'.
Hypothesis P_canvases :
  forall d cs, P d -> P {| canvases := cs; shapes := shapes d; events := events d |}.

Lemma touch_canvas_preserves d canvasId now : P d -> P (touch_canvas d canvasId now).
Proof. intros H. unfold touch_canvas. by apply P_canvases. Qed.

Lemma storeBatchEvents_loop_preserves canvasId now ids evs d stored conflicts d' stored'
    conflicts' :
  storeBatchEvents_loop d canvasId evs now ids stored conflicts
  = Some (d', stored', conflicts') ->
  P d -> P d'.
Proof.
  revert d stored conflicts.
  induction evs as [|event rest IH]; intros d stored conflicts; cbn [storeBatchEvents_loop].
  - intros ? ?. by simplify_eq.
  - cbv zeta. destruct (shouldStoreEvent (be_eventType event)) eqn:Hs; cbn [negb].
    + intros H Hd. apply bind_Some in H as (d1 & Hins & H).
      apply bind_Some in H as (d2 & Happ & H).
      eapply IH; [exact H |].
      match type of Hins with
      | insert_event d ?e = _ => apply (P_commits d e d2 Hd)
      end.
      split; [exact Hs |]. split; [reflexivity |]. by exists d1.
    + apply IH.
Qed.

Lemma run_call_preserves d c : P d -> P (run_call d c).
Proof.
  intros Hd. destruct c as [canvasId name now | canvasId userId eventType shapeId payload
                              now eventId | canvasId evs now ids]; cbn [run_call].
  - unfold getOrCreateCanvas. cbn [fst]. by apply P_canvases.
  - destruct (storeEvent d canvasId userId eventType shapeId payload now eventId)
      as [[d' r]|] eqn:H; [| done].
    destruct (shouldStoreEvent eventType) eqn:Hs.
    + apply (storeEvent_stored _ _ _ _ _ _ _ _ _ _ Hs) in H
        as (e & d2 & Hc & -> & _).
      apply touch_canvas_preserves. by eapply P_commits.
    + unfold storeEvent in H. rewrite Hs in H. cbn in H. by simplify_eq.
  - unfold storeBatchEvents.
    destruct (storeBatchEvents_loop d canvasId evs now ids [] [])
      as [[[d' s] cf]|] eqn:H; [| done].
    apply touch_canvas_preserves. by eapply storeBatchEvents_loop_preserves.
Qed.

Lemma run_preserves calls : P empty_db -> P (run calls).
Proof.
  intros H0. unfold run.
  induction calls as [|c calls IH] using rev_ind; [done |].
  rewrite foldl_snoc. by apply run_call_preserves.
Qed.

End preserved.

(** *** Versions *)

Lemma sql_max_snoc (l : list Z) (x : Z) :
  (forall v, v ∈ l -> v <= x) -> sql_max (l ++ [x]) = Some x.
Proof.
  induction l as [|a l IH]; intros Hle; [done |].
  cbn [app]. unfold sql_max in *. cbn [foldr]. rewrite IH.
  - f_equal. specialize (Hle a (list_elem_of_here _ _)). lia.
  - intros v Hv. apply Hle. by apply list_elem_of_further.
Qed.

Lemma sql_max_seq (n : nat) :
  default 0 (sql_max (Z.of_nat <$> seq 1 n)) = Z.of_nat n.
Proof.
  destruct n as [|n]; [done |].
  rewrite seq_S, fmap_app. cbn [fmap list_fmap]. rewrite sql_max_snoc; [done |].
  intros v (k & -> & Hk)%list_elem_of_fmap.
  apply list_elem_of_In, in_seq in Hk. lia.
Qed.

Lemma dense_current_version d canvasId :
  versions_dense d ->
  getCurrentVersion canvasId d = Z.of_nat (length (canvas_events canvasId d)).
Proof.
  intros H. unfold getCurrentVersion. rewrite H. apply sql_max_seq.
Qed.

Lemma commits_canvas_events d e d' canvasId :
  commits d e d' ->
  canvas_events canvasId d'
  = canvas_events canvasId d ++ (if decide (ev_canvas_id e = canvasId) then [e] else []).
Proof.
  intros [Hev _]%commits_events. unfold canvas_events at 1. rewrite Hev.
  rewrite filter_app. f_equal.
Qed.

Lemma commits_dense d e d' : versions_dense d -> commits d e d' -> versions_dense d'.
Proof.
  intros Hd Hc canvasId. rewrite (commits_canvas_events _ _ _ _ Hc).
  case_decide as Hcv.
  - rewrite length_app, fmap_app. cbn [length fmap list_fmap].
    rewrite Nat.add_1_r, seq_S, fmap_app, <- Hd. f_equal. cbn [fmap list_fmap].
    destruct Hc as (_ & -> & _). rewrite Hcv, (dense_current_version _ _ Hd).
    f_equal. lia.
  - rewrite app_nil_r. apply Hd.
Qed.

Lemma run_dense calls : versions_dense (run calls).
Proof.
  apply run_preserves; [apply commits_dense | done | done].
Qed.

(** C2, at two transactions that overlap: on a canvas without events, a
    [storeEvent] that reads the next version before another [storeEvent]
    commits stores its event under the version the other one took; the log
    of the canvas then holds version 1 twice, and a client that has seen
    version 1 is told of no event since. *)
Theorem C2_overlapping_stores_reuse_a_version :
  let created : props :=
    <["type" := JStr "rectangle"]>
      (<["properties" := JObj (<["x" := JNum 10]> {[ "y" := JNum 20 ]})]>
         {[ "zIndex" := JNum 0 ]}) in
  let d0 := run [CallGetOrCreateCanvas C1 "Untitled Canvas" 100] in
  exists d1 r1 d2 r2,
    storeEvent d0 C1 "u1" "SHAPE_CREATED" (Some S1) created 200 evt1 = Some (d1, r1) /\
    storeEvent_overlapping d0 d1 C1 "u2" "SHAPE_CREATED" (Some S2) created 200 evt2
    = Some (d2, r2) /\
    se_version r1 = 1 /\ se_version r2 = 1 /\
    ev_version <$> canvas_events C1 d2 = [1; 1] /\
    getEventsSinceVersion C1 1 d2 = [].
Proof.
  intros created d0.
  destruct (storeEvent d0 C1 "u1" "SHAPE_CREATED" (Some S1) created 200 evt1)
    as [[d1 r1]|] eqn:H1; [| vm_compute in H1; discriminate H1].
  destruct (storeEvent_overlapping d0 d1 C1 "u2" "SHAPE_CREATED" (Some S2) created 200
              evt2) as [[d2 r2]|] eqn:H2.
  - exists d1, r1, d2, r2. split; [reflexivity |]. split; [exact H2 |].
    vm_compute in H1. injection H1 as <- <-.
    vm_compute in H2. injection H2 as <- <-.
    repeat split; vm_compute; reflexivity.
  - vm_compute in H1. injection H1 as <- <-. vm_compute in H2. discriminate H2.
Qed.

Lemma storeEvent_overlapping_serial d canvasId userId eventType shapeId payload now
    eventId :
  storeEvent_overlapping d d canvasId userId eventType shapeId payload now eventId
  = storeEvent d canvasId userId eventType shapeId payload now eventId.
Proof. reflexivity. Qed.

(** *** The projection *)



Lemma js_or_Some_r a v : js_or a (Some v) = Some (default v (js_or a (Some v))).
Proof. unfold js_or. destruct a as [x|]; [destruct (truthy x) |]; done. Qed.

Lemma sql_jsonb_object_Some v o : sql_jsonb_object v = Some o -> v = Some (JObj o).
Proof. destruct v as [[]|]; cbn; intros; by simplify_eq. Qed.

Lemma sql_integer_Some v z : sql_integer v = Some z -> v = JNum z.
Proof.
  destruct v; cbn; intros H; try done.
  case_match; by simplify_eq.
Qed.

Lemma set_position_rule now x y r :
  set_position now x y r
  = match x, y with
    | Some x, Some y =>
        Some (with_properties r now (<["y" := y]> (<["x" := x]> (sr_properties r))))
    | _, _ => None
    end.
Proof. unfold set_position, jsonb_set. by destruct x, y. Qed.

Lemma concat_properties_rule now v r :
  concat_properties now v r
  = match v with
    | Some (JObj edit) => Some (with_properties r now (edit ∪ sr_properties r))
    | _ => None
    end.
Proof. unfold concat_properties, sql_jsonb_object. by destruct v as [[]|]. Qed.

Lemma set_position_canvas now x y r r' :
  set_position now x y r = Some r' -> sr_canvas_id r' = sr_canvas_id r.
Proof. rewrite set_position_rule. destruct x, y; intros; by simplify_eq. Qed.

Lemma concat_properties_canvas now v r r' :
  concat_properties now v r = Some r' -> sr_canvas_id r' = sr_canvas_id r.
Proof. rewrite concat_properties_rule. destruct v as [[]|]; intros; by simplify_eq. Qed.


(** *** Reads of a dense log *)

Lemma order_by_sorted {A} (le : A -> A -> bool) (l : list A) :
  Sorted (fun a b => le a b = true) l -> order_by le l = l.
Proof.
  induction 1 as [|x l Hs IH Hhd]; [done |].
  unfold order_by in *. cbn [foldr]. rewrite IH.
  destruct Hhd as [|y l' Hxy]; [done |]. cbn [insert_by]. by rewrite Hxy.
Qed.

Lemma elem_of_insert_by {A} (le : A -> A -> bool) (x y : A) (l : list A) :
  y ∈ insert_by le x l <-> y = x \/ y ∈ l.
Proof.
  induction l as [|z l IH]; cbn [insert_by].
  - by rewrite elem_of_cons.
  - destruct (le x z); rewrite !elem_of_cons; [done |]. rewrite IH. tauto.
Qed.

Lemma elem_of_order_by {A} (le : A -> A -> bool) (y : A) (l : list A) :
  y ∈ order_by le l <-> y ∈ l.
Proof.
  induction l as [|z l IH]; [done |].
  unfold order_by in *. cbn [foldr]. rewrite elem_of_insert_by, elem_of_cons, IH. done.
Qed.

Lemma consecutive_sorted (l : list event_row) (k : nat) :
  ev_version <$> l = Z.of_nat <$> seq k (length l) ->
  Sorted (fun a b => (ev_version a <=? ev_version b) = true) l.
Proof.
  revert k. induction l as [|a l IH]; intros k; [constructor |].
  cbn [length seq fmap list_fmap]. intros [= Ha Hl]. constructor; [by eapply IH |].
  destruct l as [|b l]; constructor.
  cbn [length seq fmap list_fmap] in Hl. injection Hl as Hb _. lia.
Qed.



Lemma live_shapes_of_canvas canvasId (s : gmap string shape_row) :
  live_shapes canvasId (filter (fun kr => sr_canvas_id kr.2 = canvasId) s)
  = live_shapes canvasId s.
Proof.
  unfold live_shapes. do 2 f_equal. apply map_filter_filter_l.
  intros i x _ [? _]. done.
Qed.



(** *** Non-storable kinds and replays *)

(** C9: for a kind that is not stored, [storeEvent] returns the tables as
    they are, with no event id, the current version of the canvas and
    [stored = false]. *)
Theorem C9_non_storable_kind_writes_nothing (d : db) (canvasId userId eventType : string)
    (shapeId : option string) (payload : props) (now : Z) (eventId : string) :
  shouldStoreEvent eventType = false ->
  storeEvent d canvasId userId eventType shapeId payload now eventId
  = Some (d, {| se_eventId := None;
                se_version := getCurrentVersion canvasId d;
                se_canvasId := canvasId; se_userId := userId;
                se_eventType := eventType; se_shapeId := shapeId;
                se_payload := payload; se_stored := Some false;
                se_hadConflict := None |}).
Proof. intros Hs. unfold storeEvent. by rewrite Hs. Qed.

Lemma C9_non_storable_kind_witness :
  let created : props :=
    <["type" := JStr "rectangle"]>
      (<["properties" := JObj (<["x" := JNum 10]> {[ "y" := JNum 20 ]})]>
         {[ "zIndex" := JNum 0 ]}) in
  let d := run [CallGetOrCreateCanvas C1 "Untitled Canvas" 100;
                CallStoreEvent C1 "u1" "SHAPE_CREATED" (Some S1) created 200 evt1] in
  let moving : props := <["x" := JNum 11]> {[ "y" := JNum 21 ]} in
  shouldStoreEvent "DRAG_MOVE" = false /\
  getCurrentVersion C1 d = 1 /\
  storeEvent d C1 "u1" "DRAG_MOVE" (Some S1) moving 300 evt2
  = Some (d, {| se_eventId := None; se_version := getCurrentVersion C1 d;
                se_canvasId := C1; se_userId := "u1";
                se_eventType := "DRAG_MOVE"; se_shapeId := Some S1;
                se_payload := moving; se_stored := Some false;
                se_hadConflict := None |}).
Proof.
  cbv zeta. split; [vm_compute; reflexivity |]. split; [vm_compute; reflexivity |].
  apply C9_non_storable_kind_writes_nothing. vm_compute. reflexivity.
Defined.

Lemma sql_max_ge (l : list Z) (v : Z) :
  v ∈ l -> exists m, sql_max l = Some m /\ v <= m.
Proof.
  induction l as [|a l IH]; intros Hin; [by apply elem_of_nil in Hin |].
  unfold sql_max in *. cbn [foldr].
  apply elem_of_cons in Hin as [-> | Hin].
  - destruct (foldr _ None l); eexists; split; try reflexivity; lia.
  - destruct (IH Hin) as (m & -> & Hm). eexists; split; [reflexivity | lia].
Qed.

Lemma commits_current_version d e d' :
  commits d e d' -> getCurrentVersion (ev_canvas_id e) d' = ev_version e.
Proof.
  intros Hc. unfold getCurrentVersion.
  rewrite (commits_canvas_events _ _ _ _ Hc), decide_True, fmap_app by done.
  cbn [fmap list_fmap]. rewrite sql_max_snoc; [done |].
  destruct Hc as (_ & -> & _). unfold getCurrentVersion.
  intros v Hv. destruct (sql_max_ge _ _ Hv) as (m & -> & Hm). cbn. lia.
Qed.

(** C5, as the store behaves: [storeEvent] takes no [localEventId] and looks for no
    earlier copy: when a stored event is replayed with the same arguments
    and both calls commit, the log gains a second row, under a new event id
    and the next version. *)
Theorem C5_replay_is_stored_again (d : db) (canvasId userId eventType : string)
    (shapeId : option string) (payload : props) (now1 now2 : Z) (id1 id2 : string)
    (d1 d2 : db) (r1 r2 : stored_event) :
  shouldStoreEvent eventType = true ->
  storeEvent d canvasId userId eventType shapeId payload now1 id1 = Some (d1, r1) ->
  storeEvent d1 canvasId userId eventType shapeId payload now2 id2 = Some (d2, r2) ->
  exists e1 e2,
    events d2 = events d ++ [e1; e2] /\
    ev_id e1 = id1 /\ ev_id e2 = id2 /\
    ev_version e1 = se_version r1 /\ ev_version e2 = se_version r2 /\
    se_eventId r2 = Some id2 /\ se_stored r2 = Some true /\
    se_version r2 = se_version r1 + 1.
Proof.
  intros Hs H1 H2.
  apply storeEvent_stored in H1 as (e1 & d1' & Hc1 & -> & He1 & _ & _ & Hv1 & _); [| done].
  apply storeEvent_stored in H2 as (e2 & d2' & Hc2 & -> & He2 & Hid2 & Hst2 & Hv2 & _);
    [| done].
  exists e1, e2.
  pose proof (commits_events _ _ _ Hc1) as [Hev1 _].
  pose proof (commits_events _ _ _ Hc2) as [Hev2 _].
  pose proof (commits_current_version _ _ _ Hc1) as Hcur.
  subst e1 e2. cbn [ev_id ev_version ev_canvas_id] in *.
  split; [| repeat split; try done].
  - cbn [events touch_canvas]. rewrite Hev2. cbn [events touch_canvas].
    rewrite Hev1, <- app_assoc. done.
  - rewrite Hv2.
    change (getCurrentVersion canvasId (touch_canvas d1' canvasId now1))
      with (getCurrentVersion canvasId d1').
    by rewrite Hcur.
Qed.

Lemma C5_replay_witness :
  let created : props :=
    <["type" := JStr "rectangle"]>
      (<["properties" := JObj (<["x" := JNum 10]> {[ "y" := JNum 20 ]})]>
         {[ "zIndex" := JNum 0 ]}) in
  let moved : props :=
    {[ "position" := JObj (<["x" := JNum 100]> {[ "y" := JNum 200 ]}) ]} in
  let d := run [CallGetOrCreateCanvas C1 "Untitled Canvas" 100;
                CallStoreEvent C1 "u1" "SHAPE_CREATED" (Some S1) created 200 evt1] in
  exists d1 r1 d2 r2,
    shouldStoreEvent "SHAPE_MOVED" = true /\
    storeEvent d C1 "u1" "SHAPE_MOVED" (Some S1) moved 300 evt2 = Some (d1, r1) /\
    storeEvent d1 C1 "u1" "SHAPE_MOVED" (Some S1) moved 400 evt3 = Some (d2, r2) /\
    exists e1 e2,
      events d2 = events d ++ [e1; e2] /\
      ev_id e1 = evt2 /\ ev_id e2 = evt3 /\
      ev_version e1 = se_version r1 /\ ev_version e2 = se_version r2 /\
      se_eventId r2 = Some evt3 /\ se_stored r2 = Some true /\
      se_version r2 = se_version r1 + 1.
Proof.
  intros created moved d.
  destruct (storeEvent d C1 "u1" "SHAPE_MOVED" (Some S1) moved 300 evt2)
    as [[d1 r1]|] eqn:H1; [| vm_compute in H1; discriminate H1].
  pose proof H1 as H1'. vm_compute in H1'. injection H1' as Hd1 Hr1.
  destruct (storeEvent d1 C1 "u1" "SHAPE_MOVED" (Some S1) moved 400 evt3)
    as [[d2 r2]|] eqn:H2; [| rewrite <- Hd1 in H2; vm_compute in H2; discriminate H2].
  assert (Hs : shouldStoreEvent "SHAPE_MOVED" = true) by (vm_compute; reflexivity).
  exists d1, r1, d2, r2. split; [exact Hs |]. split; [reflexivity |].
  split; [exact H2 |].
  exact (C5_replay_is_stored_again d C1 "u1" "SHAPE_MOVED" (Some S1) moved
           300 400 evt2 evt3 d1 d2 r1 r2 Hs H1 H2).
Defined.

(** A replay is not deduplicated (C5): the same SHAPE_MOVED sent twice is
    stored twice, as versions 2 and 3. *)
Lemma C5_counterexample :
  let created : props :=
    <["type" := JStr "rectangle"]>
      (<["properties" := JObj (<["x" := JNum 10]> {[ "y" := JNum 20 ]})]>
         {[ "zIndex" := JNum 0 ]}) in
  let moved : props :=
    {[ "position" := JObj (<["x" := JNum 100]> {[ "y" := JNum 200 ]}) ]} in
  let d := run [CallGetOrCreateCanvas C1 "Untitled Canvas" 100;
                CallStoreEvent C1 "u1" "SHAPE_CREATED" (Some S1) created 200 evt1] in
  match storeEvent d C1 "u1" "SHAPE_MOVED" (Some S1) moved 300 evt2 with
  | Some (d1, r1) =>
      match storeEvent d1 C1 "u1" "SHAPE_MOVED" (Some S1) moved 400 evt3 with
      | Some (d2, r2) =>
          se_stored r2 = Some true /\ se_version r1 = 2 /\ se_version r2 = 3 /\
          ev_version <$> getEventsSinceVersion C1 0 d1 = [1; 2] /\
          ev_version <$> getEventsSinceVersion C1 0 d2 = [1; 2; 3] /\
          events d2 <> events d1
      | None => False
      end
  | None => False
  end.
Proof.
  vm_compute. repeat (split; [reflexivity |]). intros H. discriminate H.
Qed.

(** *** Conflicts on the server *)




Lemma detectConflict_no_vectorClock d canvasId shapeId payload :
  payload !! "vectorClock" = None -> detectConflict d canvasId shapeId payload = None.
Proof.
  intros Hvc. unfold detectConflict. destruct shapeId as [id|]; [| done].
  destruct (String.eqb id EmptyString); [done |].
  destruct (shapes d !! id) as [r|]; [| done].
  destruct (negb _); [done |]. cbv zeta. by rewrite Hvc.
Qed.


(** *** The projection is the fold *)

Lemma detectConflict_inv d canvasId shapeId payload c :
  detectConflict d canvasId shapeId payload = Some c ->
  exists id r, shapeId = Some id /\ shapes d !! id = Some r /\
               sr_canvas_id r = canvasId /\ cf_serverProperties c = sr_properties r.
Proof.
  unfold detectConflict. intros H.
  destruct shapeId as [id|]; [| done]. destruct (String.eqb id EmptyString); [done |].
  destruct (shapes d !! id) as [r|] eqn:Hr; [| done].
  destruct (String.eqb_spec (sr_canvas_id r) canvasId) as [Hc | Hc]; [| done].
  cbn [negb] in H. cbv zeta in H. case_match; [| done]. simplify_eq.
  exists id, r. done.
Qed.

(** *** Payloads of the forms of section 4.A *)





(** *** One event and its rule *)





(** *** The fold along a history *)


Lemma run_call_events (d : db) (c : call) : events d `prefix_of` events (run_call d c).
Proof.
  apply (run_call_preserves (fun d0 => events d `prefix_of` events d0)); [| done | done].
  intros d0 e d1 Hp [-> _]%commits_events. by apply prefix_app_r.
Qed.












End EventStoreFacts.

(** ** Fan-out *)

Module WebSocketManagerFacts.
Import EventStore WebSocketManager ServerConflictSpec FanOutSpec BatchSyncSpec Examples.

Lemma send_sent m ws msg :
  sent (send m ws msg)
  = sent m ++ (if is_open (ws_readyState m ws) then [(ws, msg)] else []) /\
  ws_readyState (send m ws msg) = ws_readyState m /\
  canvasRooms (send m ws msg) = canvasRooms m.
Proof.
  unfold send. destruct (is_open (ws_readyState m ws)); cbn; [done |].
  by rewrite app_nil_r.
Qed.

Lemma broadcast_loop_sent msg excludeWs (l : list nat) m :
  let m' := foldl (fun m ws => if bool_decide (Some ws ≠ excludeWs) then send m ws msg
                               else m) m l in
  sent m'
  = sent m ++
    ((fun ws => (ws, msg)) <$>
     filter (fun ws => Some ws ≠ excludeWs /\ is_open (ws_readyState m ws) = true) l) /\
  ws_readyState m' = ws_readyState m /\ canvasRooms m' = canvasRooms m.
Proof.
  revert m. induction l as [|ws l IH]; intros m; cbn [foldl].
  - cbn. by rewrite app_nil_r.
  - cbv zeta in *. rewrite filter_cons.
    destruct (decide (Some ws ≠ excludeWs)) as [Hx | Hx].
    + rewrite bool_decide_eq_true_2 by done.
      destruct (IH (send m ws msg)) as (-> & -> & ->).
      destruct (send_sent m ws msg) as (-> & -> & ->).
      split; [| done]. rewrite <- app_assoc. f_equal.
      destruct (is_open (ws_readyState m ws)) eqn:Ho.
      * rewrite decide_True by done. done.
      * rewrite decide_False by (intros [_ ?]; congruence). done.
    + rewrite bool_decide_eq_false_2 by done.
      rewrite decide_False by (intros [? _]; done). apply IH.
Qed.

(** The room of a canvas; no entry in [canvasRooms] is no session. *)
Lemma broadcastToCanvas_sent m canvasId msg excludeWs :
  sent (broadcastToCanvas m canvasId msg excludeWs)
  = sent m ++
    ((fun ws => (ws, msg)) <$>
     filter (fun ws => Some ws ≠ excludeWs /\ is_open (ws_readyState m ws) = true)
       (elements (default ∅ (canvasRooms m !! canvasId)))) /\
  ws_readyState (broadcastToCanvas m canvasId msg excludeWs) = ws_readyState m /\
  canvasRooms (broadcastToCanvas m canvasId msg excludeWs) = canvasRooms m.
Proof.
  unfold broadcastToCanvas. destruct (canvasRooms m !! canvasId) as [room|]; cbn [default].
  - apply broadcast_loop_sent.
  - rewrite elements_empty. cbn. by rewrite app_nil_r.
Qed.

Lemma sent_to_app ws l1 l2 : sent_to ws (l1 ++ l2) = sent_to ws l1 ++ sent_to ws l2.
Proof. unfold sent_to. by rewrite filter_app, fmap_app. Qed.

Lemma sent_to_broadcast (P : nat -> Prop) `{!forall x, Decision (P x)} (l : list nat)
    (msg : message) (peer : nat) :
  NoDup l ->
  sent_to peer ((fun ws => (ws, msg)) <$> filter P l)
  = if decide (peer ∈ l /\ P peer) then [msg] else [].
Proof.
  unfold sent_to. induction l as [|ws l IH]; intros Hnd.
  - cbn. rewrite decide_False; [done |]. intros [[]%elem_of_nil _].
  - apply NoDup_cons in Hnd as [Hws Hnd]. rewrite filter_cons.
    destruct (decide (P ws)) as [HP | HP].
    + cbn [fmap list_fmap]. rewrite filter_cons. cbn [fst].
      destruct (decide (ws = peer)) as [-> | Hne].
      * cbn [fmap list_fmap snd]. rewrite IH by done.
        rewrite decide_False by (intros [? _]; done).
        rewrite decide_True; [done |]. split; [apply list_elem_of_here | done].
      * rewrite IH by done.
        destruct (decide (peer ∈ l /\ P peer)) as [[? ?] | Hn].
        -- rewrite decide_True; [done |]. split; [by apply list_elem_of_further | done].
        -- rewrite decide_False; [done |].
           intros [[? | ?]%elem_of_cons ?]; [congruence | tauto].
    + rewrite IH by done.
      destruct (decide (peer ∈ l /\ P peer)) as [[? ?] | Hn].
      * rewrite decide_True; [done |]. split; [by apply list_elem_of_further | done].
      * rewrite decide_False; [done |].
        intros [[? | ?]%elem_of_cons ?]; [congruence | tauto].
Qed.


Lemma sent_to_fan_out m ws canvasId msg peer :
  sent_to peer
    ((fun w => (w, msg)) <$>
     filter (fun w => Some w ≠ Some ws /\ is_open (ws_readyState m w) = true)
       (elements (room m canvasId)))
  = if decide (peer ∈ room m canvasId /\ peer <> ws /\
               is_open (ws_readyState m peer) = true)
    then [msg] else [].
Proof.
  rewrite sent_to_broadcast by apply NoDup_elements.
  destruct (decide (peer ∈ room m canvasId /\ peer <> ws /\
                    is_open (ws_readyState m peer) = true)) as [(? & ? & ?) | Hn].
  - rewrite decide_True; [done |].
    split; [by apply elem_of_elements |]. split; [congruence | done].
  - rewrite decide_False; [done |].
    intros (Hin%elem_of_elements & Hne & ?). apply Hn. repeat split; [done | | done].
    intros ->. done.
Qed.








(** *** Batch acknowledgements *)

Lemma find_first {A} (f : A -> bool) (l : list A) (x : A) :
  find f l = Some x ->
  exists j, l !! j = Some x /\ f x = true /\
            forall j' y, (j' < j)%nat -> l !! j' = Some y -> f y = false.
Proof.
  induction l as [|a l IH]; [done |]. cbn [find].
  destruct (f a) eqn:Ha.
  - intros [= ->]. exists 0%nat. split; [done |]. split; [done |]. lia.
  - intros (j & Hj & Hx & Hfirst)%IH. exists (S j). split; [done |]. split; [done |].
    intros [|j'] y Hlt Hy; cbn in Hy.
    + by simplify_eq.
    + eapply Hfirst; [| exact Hy]. lia.
Qed.

Lemma find_None_all {A} (f : A -> bool) (l : list A) :
  find f l = None -> forall y, y ∈ l -> f y = false.
Proof.
  induction l as [|a l IH]; intros Hf y Hy; [by apply elem_of_nil in Hy |].
  cbn [find] in Hf. destruct (f a) eqn:Ha; [done |].
  apply elem_of_cons in Hy as [-> | Hy]; [done | by apply IH].
Qed.

Lemma storeBatchEvents_loop_keys canvasId now ids evs d stored conflicts d' stored'
    conflicts' :
  storeBatchEvents_loop d canvasId evs now ids stored conflicts
  = Some (d', stored', conflicts') ->
  (fun e => (se_shapeId e, se_eventType e)) <$> stored'
  = ((fun e => (se_shapeId e, se_eventType e)) <$> stored) ++
    ((fun b => (be_shapeId b, be_eventType b))
       <$> filter (fun b => shouldStoreEvent (be_eventType b) = true) evs).
Proof.
  revert d stored conflicts.
  induction evs as [|event rest IH]; intros d stored conflicts; cbn [storeBatchEvents_loop].
  - intros [= <- <- <-]. by rewrite app_nil_r.
  - cbv zeta. rewrite filter_cons.
    destruct (shouldStoreEvent (be_eventType event)) eqn:Hs; cbn [negb].
    + intros H. apply bind_Some in H as (d1 & _ & H).
      apply bind_Some in H as (d2 & _ & H). apply IH in H. rewrite H.
      rewrite decide_True by done. rewrite fmap_app, <- app_assoc. done.
    + intros H. apply IH in H. rewrite H. by rewrite decide_False.
Qed.

Lemma storable_keys c events :
  (fun b => (be_shapeId b, be_eventType b))
    <$> filter (fun b => shouldStoreEvent (be_eventType b) = true) (to_batch c <$> events)
  = (fun le => (sy_shapeId le, sy_eventType le)) <$> storable events.
Proof.
  unfold storable. induction events as [|e events IH]; [done |].
  cbn [fmap list_fmap]. rewrite !filter_cons. cbn [to_batch be_eventType].
  destruct (decide (shouldStoreEvent (sy_eventType e) = true)); cbn; by rewrite <- IH.
Qed.

Lemma broadcasts_skip_sender (msg : stored_event -> message) canvasId ws
    (l : list stored_event) m :
  let m' := foldl (fun m event => broadcastToCanvas m canvasId (msg event) (Some ws)) m l in
  exists extra, sent m' = sent m ++ extra /\ sent_to ws extra = [].
Proof.
  revert m. induction l as [|e l IH]; intros m; cbn [foldl].
  - exists []. by rewrite app_nil_r.
  - cbv zeta in *.
    destruct (IH (broadcastToCanvas m canvasId (msg e) (Some ws))) as (extra & -> & Hx).
    destruct (broadcastToCanvas_sent m canvasId (msg e) (Some ws)) as (-> & _ & _).
    eexists. rewrite <- app_assoc. split; [reflexivity |].
    rewrite sent_to_app, Hx, app_nil_r.
    fold (room m canvasId). rewrite sent_to_fan_out.
    rewrite decide_False; [done |]. intros (_ & ? & _). done.
Qed.

Lemma find_localEventId_first events e le :
  le ∈ events ->
  se_shapeId e = sy_shapeId le -> se_eventType e = sy_eventType le ->
  exists x, first_same_key events le x /\ find_localEventId events e = sy_localEventId x.
Proof.
  intros Hin Hsh Hty. unfold find_localEventId.
  set (f := fun le' : sync_event =>
              bool_decide (sy_shapeId le' = se_shapeId e) &&
              String.eqb (sy_eventType le') (se_eventType e)).
  assert (Hf : forall y, f y = true <-> same_key y le).
  { intros y. unfold f, same_key. rewrite andb_true_iff, bool_decide_eq_true.
    rewrite String.eqb_eq, Hsh, Hty. done. }
  destruct (find f events) as [x|] eqn:Hfind.
  - exists x. split; [| done].
    apply find_first in Hfind as (j & Hj & Hx & Hfirst).
    exists j. split; [done |]. split; [by apply Hf |].
    intros j' y Hlt Hy Hk. apply Hf in Hk. rewrite (Hfirst j' y Hlt Hy) in Hk. done.
  - exfalso. pose proof (find_None_all _ _ Hfind le Hin) as Hle.
    assert (f le = true) by (apply Hf; done). congruence.
Qed.

(** C10: in BATCH_SYNC_RESULT the entry of the k-th stored event carries the
    [localEventId] of the first submitted event with the same [shapeId] and
    [eventType]; hence, when an earlier event of the batch has the key of a
    later storable one whose [localEventId] no other event carries, no entry
    of the result acknowledges that [localEventId]. *)
Theorem C10_batch_ack_reports_first_same_key (m : manager) (d : db) (ws : nat)
    (c : connInfo) (events : list sync_event) (lastKnownVersion now : Z)
    (ids : nat -> string) (canvasId : string) (d' : db)
    (storedEvents : list stored_event) (conflicts : list conflict_report) :
  joined c = Some canvasId ->
  is_open (ws_readyState m ws) = true ->
  storeBatchEvents d canvasId (to_batch c <$> events) now ids
  = Some (d', (storedEvents, conflicts)) ->
  exists entries missed state new,
    sent (handleBatchSync m d ws c events lastKnownVersion now ids).1 = sent m ++ new /\
    sent_to ws new = [BATCH_SYNC_RESULT entries missed state conflicts] /\
    length entries = length (storable events) /\
    (forall k le entry,
        storable events !! k = Some le -> entries !! k = Some entry ->
        exists x, first_same_key events le x /\
                  sa_localEventId entry = sy_localEventId x) /\
    (forall i j a b l,
        (i < j)%nat -> events !! i = Some a -> events !! j = Some b -> same_key a b ->
        sy_localEventId b = Some l ->
        (forall j' y, j' <> j -> events !! j' = Some y -> sy_localEventId y <> Some l) ->
        forall entry, entry ∈ entries -> sa_localEventId entry <> Some l).
Proof.
  intros Hj Hopen Hst.
  set (mk := fun e => {| sa_localEventId := find_localEventId events e;
                           sa_eventId := se_eventId e;
                           sa_version := se_version e;
                           sa_hadConflict := se_hadConflict e |}).
  exists (mk <$> storedEvents), (getEventsSinceVersion canvasId lastKnownVersion d),
         (getCanvasState canvasId d').
  assert (Hkeys : (fun e => (se_shapeId e, se_eventType e)) <$> storedEvents
                  = (fun le => (sy_shapeId le, sy_eventType le)) <$> storable events).
  { unfold storeBatchEvents in Hst.
    destruct (storeBatchEvents_loop d canvasId (to_batch c <$> events) now ids [] [])
      as [[[d2 s2] c2]|] eqn:Hloop; [| done].
    injection Hst as _ <- _.
    apply storeBatchEvents_loop_keys in Hloop. rewrite Hloop. cbn [fmap list_fmap app].
    apply storable_keys. }
  assert (Hentry : forall k le entry,
             storable events !! k = Some le -> (mk <$> storedEvents) !! k = Some entry ->
             exists x, first_same_key events le x /\
                       sa_localEventId entry = sy_localEventId x).
  { intros k le entry Hle Hentry. rewrite list_lookup_fmap in Hentry.
    destruct (storedEvents !! k) as [e|] eqn:He; [| done]. injection Hentry as <-.
    assert (Hk : ((fun e => (se_shapeId e, se_eventType e)) <$> storedEvents) !! k
                 = Some (sy_shapeId le, sy_eventType le)).
    { by rewrite Hkeys, list_lookup_fmap, Hle. }
    rewrite list_lookup_fmap, He in Hk. injection Hk as Hsh Hty.
    apply find_localEventId_first; [| done | done].
    apply list_elem_of_lookup_2 in Hle. unfold storable in Hle.
    by apply list_elem_of_filter in Hle as [_ ?]. }
  assert (Hlen : length (mk <$> storedEvents) = length (storable events)).
  { rewrite length_fmap.
    apply (f_equal length) in Hkeys. by rewrite !length_fmap in Hkeys. }
  unfold handleBatchSync. rewrite Hj. cbv zeta.
  change ((fun e => {| be_localEventId := sy_localEventId e; be_userId := conn_userId c;
                       be_eventType := sy_eventType e; be_shapeId := sy_shapeId e;
                       be_payload := sy_payload e |}) <$> events)
    with (to_batch c <$> events).
  rewrite Hst. cbn [fst snd].
  match goal with
  | |- context [foldl ?f (send m ws ?msg) storedEvents] =>
      destruct (broadcasts_skip_sender
                  (fun event =>
                     SHAPE_EVENT {| sm_eventId := se_eventId event;
                                    sm_eventType := se_eventType event;
                                    sm_shapeId := se_shapeId event;
                                    sm_payload := se_payload event;
                                    sm_userId := conn_userId c;
                                    sm_username := conn_username c;
                                    sm_version := se_version event;
                                    sm_stored := None;
                                    sm_vectorClock := se_payload event !! "vectorClock";
                                    sm_propertyTimestamps :=
                                      se_payload event !! "propertyTimestamps" |})
                  canvasId ws storedEvents (send m ws msg)) as (extra & Hsent & Hextra);
      destruct (send_sent m ws msg) as (Hack & _ & _)
  end.
  cbv zeta in Hsent. rewrite Hopen in Hack. rewrite Hack, <- app_assoc in Hsent.
  eexists. split; [exact Hsent |].
  split.
  { rewrite sent_to_app, Hextra, app_nil_r. unfold sent_to.
    rewrite filter_cons, decide_True by done. done. }
  split; [exact Hlen |]. split; [exact Hentry |].
  intros i j a b l Hij Ha Hb Hab Hl Huniq entry Hin Hack'.
  apply list_elem_of_lookup in Hin as (k & Hk).
  destruct (lookup_lt_is_Some_2 (storable events) k) as [le Hle].
  { rewrite <- Hlen. by eapply lookup_lt_Some. }
  destruct (Hentry k le entry Hle Hk) as (x & (jx & Hjx & Hxle & Hfirst) & Hx).
  rewrite Hack' in Hx. symmetry in Hx.
  destruct (decide (jx = j)) as [-> | Hne].
  - rewrite Hb in Hjx. injection Hjx as <-.
    apply (Hfirst i a Hij Ha). destruct Hab as [? ?], Hxle as [? ?].
    split; congruence.
  - by apply (Huniq jx x Hne Hjx).
Qed.

Lemma C10_batch_ack_witness :
  let created : props :=
    <["type" := JStr "rectangle"]>
      (<["properties" := JObj (<["x" := JNum 10]> {[ "y" := JNum 20 ]})]>
         {[ "zIndex" := JNum 0 ]}) in
  let d := run [CallGetOrCreateCanvas C1 "Untitled Canvas" 100;
                CallStoreEvent C1 "u1" "SHAPE_CREATED" (Some S1) created 200 evt1] in
  let m := {| canvasRooms := {[ C1 := {[ 1%nat; 2%nat ]} ]};
              connections := ∅;
              ws_readyState := fun w => OPEN;
              sent := [] |} in
  let c := {| conn_id := "k1"; conn_userId := "u1"; conn_canvasId := Some C1;
              conn_username := Some "ann"; conn_isAlive := true |} in
  let move (l : string) (x y : Z) :=
    {| sy_localEventId := Some l; sy_eventType := "SHAPE_MOVED"; sy_shapeId := Some S1;
       sy_payload := {[ "position" := JObj (<["x" := JNum x]> {[ "y" := JNum y ]}) ]} |} in
  let events := [move "L1" 30 40; move "L2" 50 60] in
  let ids := fun k : nat => match k with O => evt2 | _ => evt3 end in
  exists entries missed state conflicts,
    sent_to 1 (sent (handleBatchSync m d 1 c events 1 300 ids).1)
    = [BATCH_SYNC_RESULT entries missed state conflicts] /\
    sa_localEventId <$> entries = [Some "L1"; Some "L1"] /\
    sa_version <$> entries = [2; 3] /\
    forall entry, entry ∈ entries -> sa_localEventId entry <> Some "L2".
Proof.
  intros created d m c move events ids.
  destruct (storeBatchEvents d C1 (to_batch c <$> events) 300 ids)
    as [[d' [storedEvents conflicts]]|] eqn:Hst; [| vm_compute in Hst; discriminate Hst].
  destruct (C10_batch_ack_reports_first_same_key m d 1 c events 1 300 ids C1 d'
              storedEvents conflicts eq_refl eq_refl Hst)
    as (entries & missed & state & new & Hsent & Hto & _ & _ & Hnever).
  change (sent m) with (@nil (nat * message)) in Hsent. cbn [app] in Hsent.
  rewrite <- Hsent in Hto.
  exists entries, missed, state, conflicts. split; [exact Hto |].
  pose proof Hto as Hto'. vm_compute in Hto'. injection Hto' as He _ _ _.
  split; [by rewrite <- He |]. split; [by rewrite <- He |].
  apply (Hnever 0%nat 1%nat (move "L1" 30 40) (move "L2" 50 60) "L2");
    [lia | reflexivity | reflexivity | by split | reflexivity |].
  intros [|[|j']] y Hne Hy; [| done | by destruct j'].
  injection Hy as <-. discriminate.
Defined.

End WebSocketManagerFacts.

(** ** The order of vector clocks *)

Module VectorClockFacts.
Import ConflictResolution ConflictResolutionFacts.















(** X4: of two clocks exactly one holds: the first happened before the
    second, the second before the first, or they are concurrent; being
    concurrent is symmetric, and a clock is concurrent with itself. *)
Theorem isConcurrent_trichotomy (a b : VectorClock) :
  isConcurrent a b = isConcurrent b a /\
  isConcurrent a a = true /\
  ((happenedBefore a b = true /\ happenedBefore b a = false /\ isConcurrent a b = false) \/
   (happenedBefore a b = false /\ happenedBefore b a = true /\ isConcurrent a b = false) \/
   (happenedBefore a b = false /\ happenedBefore b a = false /\ isConcurrent a b = true)).
Proof.
  unfold isConcurrent. split; [apply andb_comm |]. split.
  - destruct (happenedBefore a a) eqn:H; [| done].
    by rewrite (happenedBefore_asymmetric _ _ H) in H.
  - destruct (happenedBefore a b) eqn:Hab.
    + left. rewrite (happenedBefore_asymmetric _ _ Hab). done.
    + destruct (happenedBefore b a); [right; left | right; right]; done.
Qed.

End VectorClockFacts.

(** ** The resolver and the sync service *)

Module ResolverFacts.
Import ConflictResolution ConflictResolutionFacts VectorClockFacts SyncService.















End ResolverFacts.

(** ** A queued edit at the server *)

Module EditRoundTripFacts.
Import EventStore EventStoreFacts SyncService.






End EditRoundTripFacts.

(** ** Invariants of the tables *)

Module StoreInvariants.
Import EventStore ProjectionSpec HistorySpec EventStoreFacts.

(** *** Rows of a history *)

(** The store after [more] further calls. *)
Lemma run_app (calls more : list call) :
  run (calls ++ more) = foldl run_call (run calls) more.
Proof. unfold run. apply foldl_app. Qed.

Lemma foldl_run_call_events (more : list call) (d : db) :
  events d `prefix_of` events (foldl run_call d more).
Proof.
  induction more as [|c more IH] using rev_ind; [done |].
  rewrite foldl_snoc. etrans; [exact IH | apply run_call_events].
Qed.

(** X12: the log only grows at its end: whatever calls follow, the events
    stored so far stay, unchanged and in place. *)
Theorem log_is_append_only (calls more : list call) :
  events (run calls) `prefix_of` events (run (calls ++ more)).
Proof. rewrite run_app. apply foldl_run_call_events. Qed.

(** *** What happens to one shape row *)

Lemma update_shape_row d canvasId shapeId f d' id r :
  update_shape d canvasId shapeId f = Some d' ->
  shapes d !! id = Some r ->
  shapes d' !! id = Some r \/
  (shapeId = Some id /\ sr_canvas_id r = canvasId /\
   exists r', f r = Some r' /\ shapes d' !! id = Some r').
Proof.
  unfold update_shape. intros H Hr.
  destruct shapeId as [id'|]; [| simplify_eq; by left].
  destruct (shapes d !! id') as [r0|] eqn:Hr0; [| simplify_eq; by left].
  destruct (String.eqb_spec (sr_canvas_id r0) canvasId) as [Hc | Hc];
    [| simplify_eq; by left].
  destruct (f r0) as [r'|] eqn:Hf; [| done]. simplify_eq. cbn [shapes].
  destruct (decide (id = id')) as [-> | Hne].
  - right. rewrite Hr in Hr0. simplify_eq. split; [done |]. split; [done |].
    exists r'. by rewrite lookup_insert_eq.
  - left. by rewrite lookup_insert_ne.
Qed.

Lemma upsert_shape_row d canvasId shapeId ty ps z now d' id r :
  upsert_shape d canvasId shapeId ty ps z now = Some d' ->
  shapes d !! id = Some r ->
  shapes d' !! id = Some r \/
  (shapeId = Some id /\
   exists o n, ps = Some (JObj o) /\ z = JNum n /\
     shapes d' !! id
     = Some {| sr_canvas_id := sr_canvas_id r; sr_type := sr_type r; sr_properties := o;
               sr_z_index := Some n; sr_created_at := sr_created_at r;
               sr_updated_at := now; sr_deleted_at := None |}).
Proof.
  unfold upsert_shape. intros H Hr.
  destruct shapeId as [id'|]; [| done].
  destruct (sql_varchar_not_null ty) as [t|]; [| done].
  destruct (sql_jsonb_object ps) as [o|] eqn:Hps; [| done].
  destruct (sql_integer z) as [n|] eqn:Hz; [| done].
  apply sql_jsonb_object_Some in Hps. apply sql_integer_Some in Hz. subst ps z.
  destruct (decide (id = id')) as [-> | Hne].
  - rewrite Hr in H. simplify_eq. right. split; [done |]. exists o, n.
    cbn [shapes]. by rewrite lookup_insert_eq.
  - left. destruct (shapes d !! id'); [| destruct (canvases d !! canvasId); [| done]];
      simplify_eq; cbn [shapes]; by rewrite lookup_insert_ne.
Qed.

(** What [applyEvent] can do to a row that exists: nothing, or, when the
    event names it, the upsert of SHAPE_CREATED on whatever canvas the row
    is, or an update on its own canvas. *)
Lemma applyEvent_row d canvasId kind shapeId payload now d' id r :
  applyEvent d canvasId kind shapeId payload now = Some d' ->
  shapes d !! id = Some r ->
  exists r',
    shapes d' !! id = Some r' /\ same_identity r r' /\
    (r' = r \/
     (shapeId = Some id /\
      ((kind = "SHAPE_CREATED" /\ sr_deleted_at r' = None) \/
       (kind <> "SHAPE_CREATED" /\ sr_canvas_id r = canvasId /\
        (kind = "SHAPE_RESTORED" \/ (is_Some (sr_deleted_at r) -> is_Some (sr_deleted_at r'))))))).
Proof.
  intros Happ Hr.
  assert (Hsame : Some d = Some d' ->
    exists r', shapes d' !! id = Some r' /\ same_identity r r' /\
      (r' = r \/
       (shapeId = Some id /\
        ((kind = "SHAPE_CREATED" /\ sr_deleted_at r' = None) \/
         (kind <> "SHAPE_CREATED" /\ sr_canvas_id r = canvasId /\
          (kind = "SHAPE_RESTORED" \/
           (is_Some (sr_deleted_at r) -> is_Some (sr_deleted_at r')))))))).
  { intros ?; simplify_eq. exists r. split; [done |]. split; [done | by left]. }
  assert (Hupd : forall f,
    kind <> "SHAPE_CREATED" ->
    (forall r0 r1, f r0 = Some r1 ->
       same_identity r0 r1 /\
       (kind = "SHAPE_RESTORED" \/ (is_Some (sr_deleted_at r0) -> is_Some (sr_deleted_at r1)))) ->
    update_shape d canvasId shapeId f = Some d' ->
    exists r', shapes d' !! id = Some r' /\ same_identity r r' /\
      (r' = r \/
       (shapeId = Some id /\
        ((kind = "SHAPE_CREATED" /\ sr_deleted_at r' = None) \/
         (kind <> "SHAPE_CREATED" /\ sr_canvas_id r = canvasId /\
          (kind = "SHAPE_RESTORED" \/
           (is_Some (sr_deleted_at r) -> is_Some (sr_deleted_at r')))))))).
  { intros f Hk Hf Hu.
    destruct (update_shape_row _ _ _ _ _ _ _ Hu Hr) as [H | (Hs & Hc & r' & Hfr & H)].
    - exists r. split; [done |]. split; [done | by left].
    - destruct (Hf _ _ Hfr) as [Hid Hdel]. exists r'. split; [done |]. split; [done |].
      right. split; [done |]. right. done. }
  assert (Hwp : forall p r0 r1, Some (with_properties r0 now p) = Some r1 ->
    same_identity r0 r1 /\
    (kind = "SHAPE_RESTORED" \/ (is_Some (sr_deleted_at r0) -> is_Some (sr_deleted_at r1)))).
  { intros p r0 r1 [= <-]. split; [done |]. by right. }
  revert Happ. unfold applyEvent. cbv zeta.
  destruct (String.eqb_spec kind "SHAPE_CREATED") as [E1 | E1].
  { intros Hu. destruct (upsert_shape_row _ _ _ _ _ _ _ _ _ _ Hu Hr)
      as [H | (Hs & o & n & _ & _ & H)].
    - exists r. split; [done |]. split; [done | by left].
    - eexists. split; [exact H |]. split; [done |]. right. split; [done |]. by left. }
  destruct (String.eqb_spec kind "SHAPE_EDITED") as [E2 | E2].
  { apply Hupd; [done |]. intros r0 r1 H. rewrite concat_properties_rule in H.
    repeat case_match; try done. by apply Hwp in H. }
  destruct (String.eqb_spec kind "SHAPE_MOVED") as [E3 | E3].
  { apply Hupd; [done |]. intros r0 r1 H. rewrite set_position_rule in H.
    repeat case_match; try done. by apply Hwp in H. }
  destruct (String.eqb_spec kind "DRAG_END") as [E4 | E4].
  { destruct (payload !! "endPosition") as [endPosition|]; [| apply Hsame].
    destruct (truthy endPosition); [| apply Hsame].
    apply Hupd; [done |]. intros r0 r1 H. rewrite set_position_rule in H.
    repeat case_match; try done. by apply Hwp in H. }
  destruct (String.eqb_spec kind "SHAPE_DELETED") as [E5 | E5].
  { apply Hupd; [done |]. intros r0 r1 [= <-]. split; [done |]. right. by eexists. }
  destruct (_ || _); [apply Hsame |].
  destruct (String.eqb_spec kind "SHAPE_UPDATED") as [E6 | E6].
  { apply Hupd; [done |]. intros r0 r1 H. rewrite concat_properties_rule in H.
    repeat case_match; try done. by apply Hwp in H. }
  destruct (String.eqb_spec kind "SHAPE_RESIZED") as [E7 | E7].
  { apply Hupd; [done |]. intros r0 r1. rewrite concat_properties_rule. apply Hwp. }
  destruct (String.eqb_spec kind "SHAPE_ROTATED") as [E8 | E8].
  { apply Hupd; [done |]. intros r0 r1 H. unfold jsonb_set in H.
    destruct (payload !! "rotation"); [| done]. by apply Hwp in H. }
  destruct (String.eqb_spec kind "SHAPE_RESTORED") as [E9 | E9].
  { apply Hupd; [done |]. intros r0 r1 [= <-]. split; [done |]. by left. }
  destruct (String.eqb_spec kind "Z_INDEX_CHANGED") as [E10 | E10]; [| apply Hsame].
  apply Hupd; [done |]. intros r0 r1 H.
  assert (exists z, r1 = with_z_index r0 now z) as [z ->].
  { destruct (payload !! "zIndex") as [[]|]; simplify_eq; eauto.
    destruct (sql_integer _); simplify_eq; eauto. }
  split; [done |]. by right.
Qed.

Lemma not_stored_SHAPE_RESTORED : shouldStoreEvent "SHAPE_RESTORED" = false.
Proof. reflexivity. Qed.

Lemma commits_row d e d' id r :
  commits d e d' ->
  shapes d !! id = Some r ->
  exists r',
    shapes d' !! id = Some r' /\ same_identity r r' /\
    (r' = r \/
     (ev_shape_id e = Some id /\
      ((ev_event_type e = "SHAPE_CREATED" /\ sr_deleted_at r' = None) \/
       (ev_event_type e <> "SHAPE_CREATED" /\ sr_canvas_id r = ev_canvas_id e /\
        (is_Some (sr_deleted_at r) -> is_Some (sr_deleted_at r')))))).
Proof.
  intros (Hkind & _ & d1 & [_ ->]%insert_event_inv & Happ) Hr.
  destruct (applyEvent_row _ _ _ _ _ _ _ id r Happ Hr) as (r' & Hr' & Hid & H).
  exists r'. split; [done |]. split; [done |].
  destruct H as [-> | (Hs & [H | (Hk & Hc & [Hres | Hdel])])]; [by left | right ..].
  - split; [done |]. by left.
  - rewrite Hres, not_stored_SHAPE_RESTORED in Hkind. done.
  - split; [done |]. right. done.
Qed.

Lemma foldl_run_call_preserves (P : db -> Prop) :
  (forall d e d', P d -> commits d e d' -> P d') ->
  (forall d cs, P d -> P {| canvases := cs; shapes := shapes d; events := events d |}) ->
  forall more d, P d -> P (foldl run_call d more).
Proof.
  intros Hc Hcs more. induction more as [|c more IH] using rev_ind; intros d Hd; [done |].
  rewrite foldl_snoc. apply run_call_preserves; auto.
Qed.

(** X13: a shape row is never removed, and its canvas, its type and its
    creation time never change, whatever calls follow. *)
Theorem shape_rows_keep_their_identity (calls more : list call) (id : string)
    (r : shape_row) :
  shapes (run calls) !! id = Some r ->
  exists r',
    shapes (run (calls ++ more)) !! id = Some r' /\
    sr_canvas_id r' = sr_canvas_id r /\ sr_type r' = sr_type r /\
    sr_created_at r' = sr_created_at r.
Proof.
  intros Hr. rewrite run_app.
  apply (foldl_run_call_preserves
           (fun d => exists r', shapes d !! id = Some r' /\ same_identity r r')).
  - intros d e d' (r1 & Hr1 & Hid1) Hc.
    destruct (commits_row _ _ _ _ _ Hc Hr1) as (r2 & Hr2 & Hid2 & _).
    exists r2. split; [done |]. unfold same_identity in *. intuition congruence.
  - done.
  - exists r. done.
Qed.

Lemma shape_rows_keep_their_identity_witness :
  let created (ty : string) : props :=
    <["type" := JStr ty]>
      (<["properties" := JObj (<["x" := JNum 10]> {[ "y" := JNum 20 ]})]>
         {[ "zIndex" := JNum 0 ]}) in
  let calls := [CallGetOrCreateCanvas Examples.C1 "Untitled Canvas" 100;
                CallStoreEvent Examples.C1 "u1" "SHAPE_CREATED" (Some Examples.S1)
                  (created "rectangle") 200 Examples.evt1] in
  let more := [CallStoreEvent Examples.C1 "u1" "SHAPE_DELETED" (Some Examples.S1) ∅ 300
                 Examples.evt2;
               CallStoreEvent Examples.C1 "u2" "SHAPE_CREATED" (Some Examples.S1)
                 (created "circle") 400 Examples.evt3] in
  exists r r',
    shapes (run calls) !! Examples.S1 = Some r /\
    shapes (run (calls ++ more)) !! Examples.S1 = Some r' /\
    sr_canvas_id r' = sr_canvas_id r /\ sr_type r' = sr_type r /\
    sr_created_at r' = sr_created_at r.
Proof.
  intros created calls more.
  destruct (shapes (run calls) !! Examples.S1) as [r|] eqn:Hr;
    [| vm_compute in Hr; discriminate Hr].
  destruct (shape_rows_keep_their_identity calls more Examples.S1 r Hr) as (r' & H).
  exists r, r'. split; [reflexivity | exact H].
Defined.

(** *** Rows point to rows *)

Lemma applyEvent_new_row d canvasId kind shapeId payload now d' id r' :
  applyEvent d canvasId kind shapeId payload now = Some d' ->
  shapes d !! id = None ->
  shapes d' !! id = Some r' ->
  sr_canvas_id r' = canvasId /\ is_Some (canvases d !! canvasId) /\
  kind = "SHAPE_CREATED" /\ shapeId = Some id.
Proof.
  intros Happ Hnone Hr'.
  assert (Hupd : forall f, update_shape d canvasId shapeId f = Some d' ->
                           shapes d' !! id = None).
  { unfold update_shape. intros f H. repeat case_match; simplify_eq; try done.
    cbn [shapes]. rewrite lookup_insert_ne; [done |]. congruence. }
  revert Happ. unfold applyEvent. cbv zeta.
  destruct (String.eqb_spec kind "SHAPE_CREATED") as [E1 | E1].
  { unfold upsert_shape. intros H.
    destruct shapeId as [id'|]; [| done].
    repeat case_match; simplify_eq; cbn [shapes] in Hr'.
    - destruct (decide (id = id')) as [-> | Hne]; [congruence |].
      rewrite lookup_insert_ne in Hr' by done. congruence.
    - destruct (decide (id = id')) as [-> | Hne].
      + rewrite lookup_insert_eq in Hr'. simplify_eq. cbn. eauto.
      + rewrite lookup_insert_ne in Hr' by done. congruence. }
  intros H.
  repeat match type of H with
         | (if ?b then _ else _) = _ => destruct b
         | match ?x with _ => _ end = _ => destruct x
         end;
    simplify_eq; try congruence;
    apply Hupd in H; congruence.
Qed.

Lemma commits_well_referenced d e d' :
  well_referenced d -> commits d e d' -> well_referenced d'.
Proof.
  intros [Hev Hsh] Hc. pose proof (commits_events _ _ _ Hc) as [Hevs Hcs].
  pose proof Hc as (Hkind & _ & d1 & [Hcv ->]%insert_event_inv & Happ).
  split.
  - intros e0. rewrite Hevs, Hcs, elem_of_app, list_elem_of_singleton.
    intros [He0 | ->]; [by apply Hev | done].
  - intros id r' Hr'. rewrite Hcs.
    destruct (shapes d !! id) as [r|] eqn:Hr.
    + destruct (commits_row _ _ _ _ _ Hc Hr) as (r2 & Hr2 & (Hcan & _) & _).
      rewrite Hr2 in Hr'. injection Hr' as <-. rewrite Hcan. by eapply Hsh.
    + destruct (applyEvent_new_row _ _ _ _ _ _ _ id r' Happ Hr Hr') as (-> & _). done.
Qed.

Lemma canvases_well_referenced d cs :
  well_referenced d -> dom (canvases d) ⊆ dom cs ->
  well_referenced {| canvases := cs; shapes := shapes d; events := events d |}.
Proof.
  intros [Hev Hsh] Hsub.
  assert (Hin : forall c, is_Some (canvases d !! c) -> is_Some (cs !! c)).
  { intros c. rewrite <- !elem_of_dom. apply Hsub. }
  split.
  - intros e He. destruct (Hev e He). split; [by apply Hin | done].
  - intros id r Hr. apply Hin. by eapply Hsh.
Qed.

Lemma touch_canvas_well_referenced d canvasId now :
  well_referenced d -> well_referenced (touch_canvas d canvasId now).
Proof.
  intros H. unfold touch_canvas. apply canvases_well_referenced; [done |].
  cbn [canvases]. by rewrite dom_alter_L.
Qed.

Lemma run_call_well_referenced d c : well_referenced d -> well_referenced (run_call d c).
Proof.
  intros Hd. destruct c as [canvasId name now | canvasId userId eventType shapeId payload
                              now eventId | canvasId evs now ids]; cbn [run_call].
  - unfold getOrCreateCanvas. cbn [fst]. apply canvases_well_referenced; [done |].
    cbn [canvases]. rewrite dom_insert_L. set_solver.
  - destruct (storeEvent d canvasId userId eventType shapeId payload now eventId)
      as [[d' r]|] eqn:H; [| done].
    destruct (shouldStoreEvent eventType) eqn:Hs.
    + apply (storeEvent_stored _ _ _ _ _ _ _ _ _ _ Hs) in H
        as (e & d2 & Hc & -> & _).
      apply touch_canvas_well_referenced. by eapply commits_well_referenced.
    + unfold storeEvent in H. rewrite Hs in H. cbn in H. by simplify_eq.
  - unfold storeBatchEvents.
    destruct (storeBatchEvents_loop d canvasId evs now ids [] [])
      as [[[d' s] cf]|] eqn:H; [| done].
    apply touch_canvas_well_referenced.
    refine (storeBatchEvents_loop_preserves well_referenced _ _ _ _ _ _ _ _ _ _ _ H Hd).
    apply commits_well_referenced.
Qed.

(** X14: after any history every stored event and every shape row belongs
    to a canvas that has a row, and every stored event is of one of the nine
    stored kinds. *)
Theorem rows_reference_canvases (calls : list call) :
  (forall e, e ∈ events (run calls) ->
     is_Some (getCanvas (run calls) (ev_canvas_id e)) /\
     ev_event_type e ∈ STORED_EVENT_TYPES) /\
  (forall id r, shapes (run calls) !! id = Some r ->
     is_Some (getCanvas (run calls) (sr_canvas_id r))).
Proof.
  assert (H : well_referenced (run calls)).
  { unfold run. induction calls as [|c calls IH] using rev_ind.
    - split; [intros e He; by apply elem_of_nil in He |].
      intros id r Hr. cbn in Hr. by rewrite lookup_empty in Hr.
    - rewrite foldl_snoc. by apply run_call_well_referenced. }
  destruct H as [Hev Hsh]. split; [| exact Hsh].
  intros e He. destruct (Hev e He) as [Hc Hk]. split; [exact Hc |].
  unfold shouldStoreEvent in Hk. by apply bool_decide_eq_true in Hk.
Qed.

Lemma rows_reference_canvases_witness :
  let created : props :=
    <["type" := JStr "rectangle"]>
      (<["properties" := JObj (<["x" := JNum 10]> {[ "y" := JNum 20 ]})]>
         {[ "zIndex" := JNum 0 ]}) in
  let calls := [CallGetOrCreateCanvas Examples.C1 "Untitled Canvas" 100;
                CallStoreEvent Examples.C1 "u1" "SHAPE_CREATED" (Some Examples.S1)
                  created 200 Examples.evt1] in
  exists e r,
    e ∈ events (run calls) /\ shapes (run calls) !! Examples.S1 = Some r /\
    is_Some (getCanvas (run calls) (ev_canvas_id e)) /\
    ev_event_type e ∈ STORED_EVENT_TYPES /\
    is_Some (getCanvas (run calls) (sr_canvas_id r)).
Proof.
  intros created calls.
  destruct (events (run calls)) as [|e l] eqn:He; [vm_compute in He; discriminate He |].
  destruct (shapes (run calls) !! Examples.S1) as [r|] eqn:Hr;
    [| vm_compute in Hr; discriminate Hr].
  destruct (rows_reference_canvases calls) as [Hev Hsh].
  assert (Hin : e ∈ events (run calls)) by (rewrite He; apply list_elem_of_here).
  exists e, r. split; [apply list_elem_of_here |]. split; [reflexivity |].
  destruct (Hev e Hin) as [H1 H2]. split; [exact H1 |]. split; [exact H2 |].
  exact (Hsh Examples.S1 r Hr).
Defined.

(** *** Canvases *)

Lemma touch_canvas_lookup d canvasId now k :
  canvases (touch_canvas d canvasId now) !! k
  = if decide (k = canvasId)
    then (fun c => {| cv_name := cv_name c; cv_created_at := cv_created_at c;
                      cv_updated_at := now |}) <$> canvases d !! k
    else canvases d !! k.
Proof.
  unfold touch_canvas. cbn [canvases]. case_decide as H.
  - subst. apply lookup_alter_eq.
  - by apply lookup_alter_ne.
Qed.

Lemma run_call_canvas d c k row :
  canvases d !! k = Some row ->
  exists row',
    canvases (run_call d c) !! k = Some row' /\
    cv_name row' = cv_name row /\ cv_created_at row' = cv_created_at row.
Proof.
  intros Hk.
  assert (Htouch : forall d2 canvasId now,
            canvases d2 = canvases d ->
            exists row', canvases (touch_canvas d2 canvasId now) !! k = Some row' /\
                         cv_name row' = cv_name row /\ cv_created_at row' = cv_created_at row).
  { intros d2 canvasId now Hd2. rewrite touch_canvas_lookup, Hd2, Hk.
    case_decide; eexists; split; done. }
  destruct c as [canvasId name now | canvasId userId eventType shapeId payload
                   now eventId | canvasId evs now ids]; cbn [run_call].
  - unfold getOrCreateCanvas. cbn [fst canvases].
    destruct (decide (k = canvasId)) as [-> | Hne].
    + rewrite lookup_insert_eq, Hk. eexists. split; done.
    + rewrite lookup_insert_ne by done. by exists row.
  - destruct (storeEvent d canvasId userId eventType shapeId payload now eventId)
      as [[d' r]|] eqn:H; [| by exists row].
    destruct (shouldStoreEvent eventType) eqn:Hs.
    + apply (storeEvent_stored _ _ _ _ _ _ _ _ _ _ Hs) in H
        as (e & d2 & Hc & -> & _).
      apply Htouch. by apply commits_events in Hc as [_ ->].
    + unfold storeEvent in H. rewrite Hs in H. cbn in H. simplify_eq. by exists row.
  - unfold storeBatchEvents.
    destruct (storeBatchEvents_loop d canvasId evs now ids [] [])
      as [[[d' s] cf]|] eqn:H; [| by exists row].
    apply Htouch.
    refine (storeBatchEvents_loop_preserves (fun d0 => canvases d0 = canvases d)
              _ _ _ _ _ _ _ _ _ _ _ H eq_refl).
    intros d0 e d1 Hd0 [_ ->]%commits_events. done.
Qed.

(** X15: a canvas keeps the name and the creation time of its first
    [getOrCreateCanvas]: later calls, with whatever name, and stored events
    change only [updated_at]. *)
Theorem canvas_keeps_its_name (calls more : list call) (canvasId : string)
    (row : canvas_row) :
  getCanvas (run calls) canvasId = Some row ->
  exists row',
    getCanvas (run (calls ++ more)) canvasId = Some row' /\
    cv_name row' = cv_name row /\ cv_created_at row' = cv_created_at row.
Proof.
  unfold getCanvas. rewrite run_app. generalize (run calls). intros d.
  revert d row. induction more as [|c more IH]; intros d row Hrow; cbn [foldl].
  - by exists row.
  - destruct (run_call_canvas d c canvasId row Hrow) as (row1 & H1 & Hn1 & Hc1).
    destruct (IH _ _ H1) as (row2 & H2 & Hn2 & Hc2).
    exists row2. split; [done |]. split; congruence.
Qed.

Lemma canvas_keeps_its_name_witness :
  let calls := [CallGetOrCreateCanvas Examples.C1 "Plan" 100] in
  let more := [CallGetOrCreateCanvas Examples.C1 "Untitled Canvas" 200;
               CallStoreEvent Examples.C1 "u1" "POINTER_DOWN" None ∅ 300 Examples.evt1] in
  exists row row',
    getCanvas (run calls) Examples.C1 = Some row /\
    getCanvas (run (calls ++ more)) Examples.C1 = Some row' /\
    cv_name row' = cv_name row /\ cv_created_at row' = cv_created_at row.
Proof.
  intros calls more.
  destruct (getCanvas (run calls) Examples.C1) as [row|] eqn:Hrow;
    [| vm_compute in Hrow; discriminate Hrow].
  destruct (canvas_keeps_its_name calls more Examples.C1 row Hrow) as (row' & H).
  exists row, row'. split; [reflexivity | exact H].
Defined.

End StoreInvariants.

(** ** Reading the store *)

Module StoreReadFacts.
Import EventStore ProjectionSpec HistorySpec EventStoreFacts StoreInvariants.

(** *** Batches *)

Lemma storeBatchEvents_loop_skip d canvasId evs now ids stored conflicts :
  Forall (fun e => shouldStoreEvent (be_eventType e) = false) evs ->
  storeBatchEvents_loop d canvasId evs now ids stored conflicts
  = Some (d, stored, conflicts).
Proof.
  induction 1 as [|e evs He _ IH]; cbn [storeBatchEvents_loop]; [done |].
  cbv zeta. rewrite He. cbn [negb]. exact IH.
Qed.

Lemma storeBatchEvents_loop_no_canvas d canvasId evs now ids stored conflicts :
  canvases d !! canvasId = None ->
  Exists (fun e => shouldStoreEvent (be_eventType e) = true) evs ->
  storeBatchEvents_loop d canvasId evs now ids stored conflicts = None.
Proof.
  intros Hcv. induction evs as [|e evs IH]; intros Hex; [by apply Exists_nil in Hex |].
  cbn [storeBatchEvents_loop]. cbv zeta.
  destruct (shouldStoreEvent (be_eventType e)) eqn:He; cbn [negb].
  - unfold insert_event. cbn [ev_canvas_id]. by rewrite Hcv.
  - apply IH. apply Exists_cons in Hex as [Hex | Hex]; [congruence | done].
Qed.

(** X16: a batch in which no event is of a stored kind, the empty batch
    included, stores nothing and reports nothing; it only sets the
    [updated_at] of the canvas, if the canvas exists. *)
Theorem batch_without_stored_kinds (d : db) (canvasId : string) (evs : list batch_event)
    (now : Z) (ids : nat -> string) :
  Forall (fun e => shouldStoreEvent (be_eventType e) = false) evs ->
  storeBatchEvents d canvasId evs now ids = Some (touch_canvas d canvasId now, ([], [])) /\
  events (touch_canvas d canvasId now) = events d /\
  shapes (touch_canvas d canvasId now) = shapes d /\
  getCanvasState canvasId (touch_canvas d canvasId now) = getCanvasState canvasId d.
Proof.
  intros H. unfold storeBatchEvents. by rewrite storeBatchEvents_loop_skip.
Qed.

Lemma batch_without_stored_kinds_witness :
  let evs := [{| be_localEventId := Some "l1"; be_userId := "u1";
                 be_eventType := "CURSOR_MOVE"; be_shapeId := None;
                 be_payload := {[ "x" := JNum 1 ]} |}] in
  let d := run [CallGetOrCreateCanvas Examples.C1 "Untitled Canvas" 100] in
  storeBatchEvents d Examples.C1 evs 200 (fun _ => Examples.evt1)
  = Some (touch_canvas d Examples.C1 200, ([], [])) /\
  events (touch_canvas d Examples.C1 200) = events d /\
  shapes (touch_canvas d Examples.C1 200) = shapes d /\
  getCanvasState Examples.C1 (touch_canvas d Examples.C1 200) = getCanvasState Examples.C1 d.
Proof.
  intros evs d. apply (batch_without_stored_kinds d Examples.C1 evs 200).
  repeat constructor.
Defined.

(** X17: on a canvas that has no row, [storeEvent] succeeds exactly on the
    kinds that are not stored, and [storeBatchEvents] exactly on the batches
    without an event of a stored kind: the first insert into the log fails. *)
Theorem store_needs_the_canvas (d : db) (canvasId userId eventType : string)
    (shapeId : option string) (payload : props) (now : Z) (eventId : string)
    (evs : list batch_event) (ids : nat -> string) :
  getCanvas d canvasId = None ->
  (is_Some (storeEvent d canvasId userId eventType shapeId payload now eventId)
   <-> shouldStoreEvent eventType = false) /\
  (is_Some (storeBatchEvents d canvasId evs now ids)
   <-> Forall (fun e => shouldStoreEvent (be_eventType e) = false) evs).
Proof.
  unfold getCanvas. intros Hcv. split.
  - unfold storeEvent. destruct (shouldStoreEvent eventType); cbn [negb].
    + cbv zeta. unfold insert_event. cbn [ev_canvas_id]. rewrite Hcv.
      split; [by intros [? ?] | done].
    + split; [done | by eexists].
  - split.
    + intros Hs. apply Forall_forall. intros e He.
      destruct (shouldStoreEvent (be_eventType e)) eqn:Hk; [| done].
      exfalso. unfold storeBatchEvents in Hs.
      rewrite storeBatchEvents_loop_no_canvas in Hs; [by destruct Hs | done |].
      apply Exists_exists. eauto.
    + intros H. unfold storeBatchEvents. rewrite storeBatchEvents_loop_skip by done.
      by eexists.
Qed.

Lemma store_needs_the_canvas_witness :
  let evs := [{| be_localEventId := Some "l1"; be_userId := "u1";
                 be_eventType := "SHAPE_DELETED"; be_shapeId := Some Examples.S1;
                 be_payload := ∅ |}] in
  getCanvas empty_db Examples.C1 = None /\
  (is_Some (storeEvent empty_db Examples.C1 "u1" "SHAPE_DELETED" (Some Examples.S1) ∅ 100
              Examples.evt1)
   <-> shouldStoreEvent "SHAPE_DELETED" = false) /\
  (is_Some (storeBatchEvents empty_db Examples.C1 evs 100 (fun _ => Examples.evt1))
   <-> Forall (fun e => shouldStoreEvent (be_eventType e) = false) evs).
Proof.
  intros evs. split; [reflexivity |].
  exact (store_needs_the_canvas empty_db Examples.C1 "u1" "SHAPE_DELETED"
           (Some Examples.S1) ∅ 100 Examples.evt1 evs (fun _ => Examples.evt1) eq_refl).
Defined.

(** *** The version of an answer *)

(** X18: the version [storeEvent] answers with is the current version of
    the canvas once the call is done, and the version of its state: one more
    than before for a stored kind, the same for the others. *)
Theorem answer_carries_the_current_version (d : db) (canvasId userId eventType : string)
    (shapeId : option string) (payload : props) (now : Z) (eventId : string)
    (d' : db) (res : stored_event) :
  storeEvent d canvasId userId eventType shapeId payload now eventId = Some (d', res) ->
  getCurrentVersion canvasId d' = se_version res /\
  cs_version (getCanvasState canvasId d') = se_version res /\
  se_version res
  = getCurrentVersion canvasId d + (if shouldStoreEvent eventType then 1 else 0).
Proof.
  intros Hst. destruct (shouldStoreEvent eventType) eqn:Hs.
  - apply (storeEvent_stored _ _ _ _ _ _ _ _ _ _ Hs) in Hst
      as (e & d2 & Hc & -> & He & _ & _ & Hv & _).
    pose proof (commits_current_version _ _ _ Hc) as Hcur.
    rewrite He in Hcur. cbn [ev_canvas_id ev_version] in Hcur.
    change (getCurrentVersion canvasId (touch_canvas d2 canvasId now))
      with (getCurrentVersion canvasId d2).
    cbn [getCanvasState cs_version].
    change (getCurrentVersion canvasId (touch_canvas d2 canvasId now))
      with (getCurrentVersion canvasId d2).
    done.
  - unfold storeEvent in Hst. rewrite Hs in Hst. cbn in Hst. simplify_eq. cbn.
    split; [done |]. split; [done | lia].
Qed.

Lemma answer_carries_the_current_version_witness :
  let created : props :=
    <["type" := JStr "rectangle"]>
      {[ "properties" := JObj (<["x" := JNum 10]> {[ "y" := JNum 20 ]}) ]} in
  let d := run [CallGetOrCreateCanvas Examples.C1 "Untitled Canvas" 100;
                CallStoreEvent Examples.C1 "u1" "SHAPE_CREATED" (Some Examples.S1)
                  created 200 Examples.evt1] in
  exists d' res,
    storeEvent d Examples.C1 "u1" "SHAPE_DELETED" (Some Examples.S1) ∅ 300 Examples.evt2
    = Some (d', res) /\
    getCurrentVersion Examples.C1 d' = se_version res /\
    cs_version (getCanvasState Examples.C1 d') = se_version res /\
    se_version res = getCurrentVersion Examples.C1 d + 1.
Proof.
  intros created d.
  destruct (storeEvent d Examples.C1 "u1" "SHAPE_DELETED" (Some Examples.S1) ∅ 300
              Examples.evt2) as [[d' res]|] eqn:Hst; [| vm_compute in Hst; discriminate Hst].
  exists d', res. split; [reflexivity |].
  exact (answer_carries_the_current_version d Examples.C1 "u1" "SHAPE_DELETED"
           (Some Examples.S1) ∅ 300 Examples.evt2 d' res Hst).
Defined.

(** *** Catching up *)

Lemma filter_since_drop (l : list event_row) (k v : nat) :
  ev_version <$> l = Z.of_nat <$> seq k (length l) ->
  filter (fun e => Z.of_nat v < ev_version e) l = drop (v + 1 - k) l.
Proof.
  revert k. induction l as [|a l IH]; intros k; [by rewrite drop_nil |].
  cbn [length seq fmap list_fmap]. intros [= Ha Hl].
  rewrite filter_cons. specialize (IH (S k) Hl).
  destruct (decide (Z.of_nat v < ev_version a)) as [Hlt | Hge].
  - replace (v + 1 - k)%nat with 0%nat by lia. cbn [drop]. f_equal.
    rewrite IH. replace (v + 1 - S k)%nat with 0%nat by lia. done.
  - replace (v + 1 - k)%nat with (S (v + 1 - S k)) by lia. cbn [drop]. exact IH.
Qed.

Lemma drop_consecutive (l : list event_row) (k n : nat) :
  ev_version <$> l = Z.of_nat <$> seq k (length l) ->
  ev_version <$> drop n l = Z.of_nat <$> seq (k + n) (length (drop n l)).
Proof.
  revert k n. induction l as [|a l IH]; intros k n H.
  - by rewrite drop_nil.
  - destruct n as [|n]; [by rewrite Nat.add_0_r |].
    cbn [drop]. cbn [length seq fmap list_fmap] in H. injection H as _ H.
    rewrite (IH (S k) n H). do 2 f_equal. lia.
Qed.

Lemma filter_iff_in {A} (P Q : A -> Prop) `{!forall x, Decision (P x)}
    `{!forall x, Decision (Q x)} (l : list A) :
  (forall x, x ∈ l -> P x <-> Q x) -> filter P l = filter Q l.
Proof.
  induction l as [|a l IH]; intros Hpq; [done |].
  rewrite !filter_cons, IH by (intros x Hx; apply Hpq; by apply list_elem_of_further).
  pose proof (Hpq a (list_elem_of_here _ _)) as Ha.
  destruct (decide (P a)), (decide (Q a)); try done; tauto.
Qed.

Lemma events_since_dense d canvasId v :
  versions_dense d ->
  getEventsSinceVersion canvasId v d = drop (Z.to_nat v) (canvas_events canvasId d).
Proof.
  intros Hd. unfold getEventsSinceVersion.
  assert (Hf : filter (fun e => ev_canvas_id e = canvasId /\ v < ev_version e) (events d)
               = drop (Z.to_nat v) (canvas_events canvasId d)).
  { pose proof (filter_since_drop _ 1 (Z.to_nat v) (Hd canvasId)) as Hfd.
    replace (Z.to_nat v + 1 - 1)%nat with (Z.to_nat v) in Hfd by lia.
    rewrite <- Hfd. unfold canvas_events. rewrite list_filter_filter.
    apply filter_iff_in. intros e He.
    assert (Hpos : ev_canvas_id e = canvasId -> 1 <= ev_version e).
    { intros Hc.
      assert (Hin : ev_version e ∈ ev_version <$> canvas_events canvasId d).
      { apply list_elem_of_fmap_2. unfold canvas_events. by apply list_elem_of_filter. }
      rewrite Hd in Hin. apply list_elem_of_fmap in Hin as (k & -> & Hk).
      apply list_elem_of_In, in_seq in Hk. lia. }
    split.
    - intros [Hc Hv]. specialize (Hpos Hc). split; [lia | done].
    - intros [Hv Hc]. split; [done | lia]. }
  rewrite Hf. apply order_by_sorted.
  eapply consecutive_sorted, drop_consecutive, Hd.
Qed.

(** X19: when the store's transactions run one after the other ([run]), then
    after any such history the events since version [v] are the log of the
    canvas without its first [v] entries, in the order they were stored:
    versions [v + 1], [v + 2], ... up to the current one, and none when [v]
    is the current version or more.  (Two transactions that overlap can
    store one version twice, see [storeEvent_overlapping]; such histories
    are left out here.) *)
Theorem events_since_is_the_rest_of_the_log (calls : list call) (canvasId : string)
    (v : Z) :
  let d := run calls in
  let since := getEventsSinceVersion canvasId v d in
  since = drop (Z.to_nat v) (canvas_events canvasId d) /\
  ev_version <$> since = Z.of_nat <$> seq (Z.to_nat v + 1) (length since) /\
  Z.of_nat (length since) = Z.max 0 (getCurrentVersion canvasId d - Z.max 0 v).
Proof.
  intros d since. subst since d. pose proof (run_dense calls) as Hd.
  rewrite (events_since_dense _ _ _ Hd). split; [done |]. split.
  - rewrite (drop_consecutive _ 1 (Z.to_nat v) (Hd canvasId)). do 2 f_equal. lia.
  - rewrite length_drop, (dense_current_version _ _ Hd). lia.
Qed.

(** *** The state of a canvas *)

Lemma insert_by_perm {A} (le : A -> A -> bool) (x : A) (l : list A) :
  insert_by le x l ≡ₚ x :: l.
Proof.
  induction l as [|y l IH]; cbn [insert_by]; [done |].
  destruct (le x y); [done |]. rewrite IH. apply Permutation_swap.
Qed.

Lemma order_by_perm {A} (le : A -> A -> bool) (l : list A) : order_by le l ≡ₚ l.
Proof.
  induction l as [|x l IH]; [done |].
  unfold order_by in *. cbn [foldr]. by rewrite insert_by_perm, IH.
Qed.

Lemma insert_by_HdRel {A} (le : A -> A -> bool) (x y : A) (l : list A) :
  le y x = true -> HdRel (fun a b => le a b = true) y l ->
  HdRel (fun a b => le a b = true) y (insert_by le x l).
Proof.
  intros Hyx Hl. destruct l as [|z l]; cbn [insert_by]; [by constructor |].
  destruct (le x z); constructor; [done |]. by inversion Hl.
Qed.

Lemma insert_by_Sorted {A} (le : A -> A -> bool) (x : A) (l : list A) :
  (forall a b, le a b = true \/ le b a = true) ->
  Sorted (fun a b => le a b = true) l ->
  Sorted (fun a b => le a b = true) (insert_by le x l).
Proof.
  intros Htot. induction 1 as [|y l Hs IH Hhd]; cbn [insert_by].
  - by repeat constructor.
  - destruct (le x y) eqn:Hxy.
    + constructor; [by constructor | by constructor].
    + constructor; [exact IH |]. apply insert_by_HdRel; [| done].
      destruct (Htot x y); congruence.
Qed.

Lemma order_by_Sorted {A} (le : A -> A -> bool) (l : list A) :
  (forall a b, le a b = true \/ le b a = true) ->
  Sorted (fun a b => le a b = true) (order_by le l).
Proof.
  intros Htot. induction l as [|x l IH]; [constructor |].
  unfold order_by in *. cbn [foldr]. by apply insert_by_Sorted.
Qed.

Lemma z_index_le_total (a b : option Z) :
  z_index_le a b = true \/ z_index_le b a = true.
Proof. destruct a, b; cbn; auto. lia. Qed.

Lemma z_index_le_trans (a b c : option Z) :
  z_index_le a b = true -> z_index_le b c = true -> z_index_le a c = true.
Proof. destruct a, b, c; cbn; try done. lia. Qed.

(** X20: the state of a canvas lists each of its shapes that is not deleted
    once, and no other row, by ascending [z_index] with the rows without a
    [z_index] last. *)
Theorem state_lists_each_live_shape_once (d : db) (canvasId : string) :
  let rows := live_shapes canvasId (shapes d) in
  cs_shapes (getCanvasState canvasId d) = shape_object <$> rows /\
  NoDup rows.*1 /\
  (forall id r, (id, r) ∈ rows <->
                shapes d !! id = Some r /\ sr_canvas_id r = canvasId /\
                sr_deleted_at r = None) /\
  StronglySorted (fun a b => z_index_le (sr_z_index a.2) (sr_z_index b.2) = true) rows.
Proof.
  intros rows. split; [done |]. subst rows. unfold live_shapes. split; [| split].
  - rewrite order_by_perm. apply NoDup_fst_map_to_list.
  - intros id r. rewrite elem_of_order_by, elem_of_map_to_list, map_lookup_filter_Some.
    done.
  - apply Sorted_StronglySorted.
    + intros a b c. apply z_index_le_trans.
    + apply order_by_Sorted. intros a b. apply z_index_le_total.
Qed.

End StoreReadFacts.

(** ** Canvases side by side *)

Module StoreIsolationFacts.
Import EventStore ProjectionSpec HistorySpec EventStoreFacts StoreInvariants
  StoreReadFacts.

Lemma applyEvent_other_canvas d canvasId kind shapeId payload now d' other :
  applyEvent d canvasId kind shapeId payload now = Some d' ->
  other <> canvasId ->
  (kind = "SHAPE_CREATED" ->
   forall id r, shapeId = Some id -> shapes d !! id = Some r -> sr_canvas_id r <> other) ->
  filter (fun kr => sr_canvas_id kr.2 = other) (shapes d')
  = filter (fun kr => sr_canvas_id kr.2 = other) (shapes d).
Proof.
  intros Happ Hne Hfree. apply map_eq. intros id. rewrite !map_lookup_filter.
  destruct (shapes d !! id) as [r|] eqn:Hr.
  - destruct (applyEvent_row _ _ _ _ _ _ _ id r Happ Hr) as (r' & -> & (Hc & _) & H).
    destruct H as [-> | (Hs & [[Hk _] | (_ & Hown & _)])]; [done | |].
    + cbn. rewrite !option_guard_False; [done | by eapply Hfree | ].
      cbn. rewrite Hc. by eapply Hfree.
    + cbn. rewrite !option_guard_False; [done | cbn; congruence | cbn; congruence].
  - destruct (shapes d' !! id) as [r'|] eqn:Hr'; [| done].
    destruct (applyEvent_new_row _ _ _ _ _ _ _ id r' Happ Hr Hr') as (Hc & _).
    cbn. rewrite option_guard_False; [done | cbn; congruence].
Qed.

(** X21: an event stored on one canvas leaves the state, the log and the
    version of every other canvas as they were, unless it is a SHAPE_CREATED
    under the id of a shape of that other canvas. *)
Theorem other_canvases_are_untouched (d : db) (canvasId userId eventType : string)
    (shapeId : option string) (payload : props) (now : Z) (eventId : string)
    (d' : db) (res : stored_event) (other : string) (v : Z) :
  storeEvent d canvasId userId eventType shapeId payload now eventId = Some (d', res) ->
  other <> canvasId ->
  (eventType = "SHAPE_CREATED" ->
   forall id r, shapeId = Some id -> shapes d !! id = Some r -> sr_canvas_id r <> other) ->
  getCanvasState other d' = getCanvasState other d /\
  getEventsSinceVersion other v d' = getEventsSinceVersion other v d /\
  getCurrentVersion other d' = getCurrentVersion other d.
Proof.
  intros Hst Hne Hfree.
  destruct (shouldStoreEvent eventType) eqn:Hs.
  2: { unfold storeEvent in Hst. rewrite Hs in Hst. cbn in Hst. by simplify_eq. }
  apply (storeEvent_stored _ _ _ _ _ _ _ _ _ _ Hs) in Hst
    as (e & d2 & Hc & -> & He & _).
  pose proof (commits_events _ _ _ Hc) as [Hev _].
  destruct Hc as (_ & _ & d1 & [_ ->]%insert_event_inv & Happ).
  subst e. cbn [ev_canvas_id ev_event_type ev_shape_id ev_payload ev_created_at] in *.
  apply (applyEvent_other_canvas _ _ _ _ _ _ _ other) in Happ; [| done | done].
  cbn [shapes] in Happ.
  assert (Hce : canvas_events other (touch_canvas d2 canvasId now) = canvas_events other d).
  { unfold canvas_events. cbn [touch_canvas events]. rewrite Hev, filter_app.
    rewrite filter_cons, filter_nil, decide_False by (cbn; congruence).
    by rewrite app_nil_r. }
  assert (Hcur : getCurrentVersion other (touch_canvas d2 canvasId now)
                 = getCurrentVersion other d).
  { unfold getCurrentVersion. by rewrite Hce. }
  split; [| split; [| exact Hcur]].
  - unfold getCanvasState. rewrite Hcur. f_equal. cbn [touch_canvas shapes].
    by rewrite <- live_shapes_of_canvas, Happ, live_shapes_of_canvas.
  - unfold getEventsSinceVersion. cbn [touch_canvas events]. rewrite Hev, filter_app.
    rewrite filter_cons, filter_nil, decide_False; [by rewrite app_nil_r |].
    cbn. intros [? _]. congruence.
Qed.

Lemma other_canvases_are_untouched_witness :
  let created : props :=
    <["type" := JStr "rectangle"]>
      (<["properties" := JObj (<["x" := JNum 10]> {[ "y" := JNum 20 ]})]>
         {[ "zIndex" := JNum 0 ]}) in
  let moved : props :=
    {[ "position" := JObj (<["x" := JNum 100]> {[ "y" := JNum 200 ]}) ]} in
  let d := run [CallGetOrCreateCanvas Examples.C1 "Untitled Canvas" 100;
                CallGetOrCreateCanvas "00000000-0000-0000-0000-000000000002"
                  "Untitled Canvas" 110;
                CallStoreEvent Examples.C1 "u1" "SHAPE_CREATED" (Some Examples.S1)
                  created 200 Examples.evt1] in
  exists d' res,
    storeEvent d "00000000-0000-0000-0000-000000000002" "u2" "SHAPE_MOVED"
      (Some Examples.S1) moved 300 Examples.evt2 = Some (d', res) /\
    getCanvasState Examples.C1 d' = getCanvasState Examples.C1 d /\
    getEventsSinceVersion Examples.C1 0 d' = getEventsSinceVersion Examples.C1 0 d /\
    getCurrentVersion Examples.C1 d' = getCurrentVersion Examples.C1 d.
Proof.
  intros created moved d.
  destruct (storeEvent d "00000000-0000-0000-0000-000000000002" "u2" "SHAPE_MOVED"
              (Some Examples.S1) moved 300 Examples.evt2) as [[d' res]|] eqn:Hst;
    [| vm_compute in Hst; discriminate Hst].
  exists d', res. split; [reflexivity |].
  apply (other_canvases_are_untouched d "00000000-0000-0000-0000-000000000002" "u2"
           "SHAPE_MOVED" (Some Examples.S1) moved 300 Examples.evt2 d' res Examples.C1 0 Hst).
  - discriminate.
  - discriminate.
Defined.

(** X22: SHAPE_CREATED under the id of a shape of another canvas takes no
    conflict check and rewrites that shape: properties and z-index from the
    payload, deletion undone, canvas and type as they were. *)
Theorem create_reaches_across_canvases (d : db) (canvasId userId sid : string)
    (payload o : props) (ty : string) (now : Z) (eventId : string) (r : shape_row) :
  shapes d !! sid = Some r ->
  sr_canvas_id r <> canvasId ->
  is_Some (getCanvas d canvasId) ->
  payload !! "properties" = Some (JObj o) ->
  payload !! "type" = Some (JStr ty) -> ty <> EmptyString ->
  payload !! "zIndex" = None -> o !! "zIndex" = None ->
  exists d' res,
    storeEvent d canvasId userId "SHAPE_CREATED" (Some sid) payload now eventId
    = Some (d', res) /\
    se_hadConflict res = Some false /\ se_payload res = payload /\
    events d' = events d ++ [{| ev_id := eventId; ev_canvas_id := canvasId;
                                ev_shape_id := Some sid; ev_user_id := userId;
                                ev_event_type := "SHAPE_CREATED"; ev_payload := payload;
                                ev_version := getCurrentVersion canvasId d + 1;
                                ev_created_at := now |}] /\
    shapes d' !! sid
    = Some {| sr_canvas_id := sr_canvas_id r; sr_type := sr_type r; sr_properties := o;
              sr_z_index := Some 0; sr_created_at := sr_created_at r;
              sr_updated_at := now; sr_deleted_at := None |}.
Proof.
  unfold getCanvas. intros Hr Hc [cv Hcv] Hp Hty Hne Hz Hoz.
  assert (Hdet : detectConflict d canvasId (Some sid) payload = None).
  { unfold detectConflict. destruct (String.eqb sid EmptyString); [done |].
    rewrite Hr. by destruct (String.eqb_spec (sr_canvas_id r) canvasId). }
  unfold storeEvent. change (shouldStoreEvent "SHAPE_CREATED") with true.
  cbn [negb]. cbv zeta. rewrite Hdet. unfold insert_event. cbn [ev_canvas_id].
  rewrite Hcv. cbn [mbind option_bind].
  change (applyEvent ?d0 canvasId "SHAPE_CREATED" (Some sid) payload now)
    with (let properties := js_or (payload !! "properties") (Some (JObj payload)) in
          upsert_shape d0 canvasId (Some sid)
            (js_or (payload !! "type") (field properties "type")) properties
            (default (JNum 0)
               (js_or (js_or (payload !! "zIndex") (field properties "zIndex"))
                      (Some (JNum 0)))) now).
  cbv zeta. rewrite Hp, Hty, Hz. cbn [js_or truthy field]. rewrite Hoz.
  destruct (String.eqb_spec ty EmptyString) as [? | _]; [done |].
  cbn [negb default from_option id]. unfold upsert_shape.
  cbn [sql_varchar_not_null sql_jsonb_object sql_integer shapes Z.leb Z.compare andb].
  rewrite Hr. cbn [mbind option_bind]. eexists _, _. split; [reflexivity |].
  cbn [se_hadConflict se_payload touch_canvas events shapes].
  split; [done |]. split; [done |]. split; [done |]. by rewrite lookup_insert_eq.
Qed.

Lemma create_reaches_across_canvases_witness :
  let created (ty : string) (x : Z) : props :=
    <["type" := JStr ty]> {[ "properties" := JObj {[ "x" := JNum x ]} ]} in
  let other := "00000000-0000-0000-0000-000000000002" in
  let d := run [CallGetOrCreateCanvas Examples.C1 "Untitled Canvas" 100;
                CallGetOrCreateCanvas other "Untitled Canvas" 110;
                CallStoreEvent Examples.C1 "u1" "SHAPE_CREATED" (Some Examples.S1)
                  (created "rectangle" 10) 200 Examples.evt1;
                CallStoreEvent Examples.C1 "u1" "SHAPE_DELETED" (Some Examples.S1) ∅ 250
                  Examples.evt2] in
  exists r d' res,
    shapes d !! Examples.S1 = Some r /\ sr_canvas_id r = Examples.C1 /\
    storeEvent d other "u2" "SHAPE_CREATED" (Some Examples.S1) (created "circle" 50) 300
      Examples.evt3 = Some (d', res) /\
    se_hadConflict res = Some false /\
    shapes d' !! Examples.S1
    = Some {| sr_canvas_id := Examples.C1; sr_type := sr_type r;
              sr_properties := {[ "x" := JNum 50 ]};
              sr_z_index := Some 0; sr_created_at := sr_created_at r;
              sr_updated_at := 300; sr_deleted_at := None |}.
Proof.
  intros created other d.
  destruct (shapes d !! Examples.S1) as [r|] eqn:Hr; [| vm_compute in Hr; discriminate Hr].
  assert (Hc : sr_canvas_id r = Examples.C1).
  { assert (Hr' := Hr). vm_compute in Hr'. injection Hr' as <-. reflexivity. }
  destruct (create_reaches_across_canvases d other "u2" Examples.S1 (created "circle" 50)
              {[ "x" := JNum 50 ]} "circle" 300 Examples.evt3 r Hr)
    as (d' & res & Hst & Hh & _ & _ & Hs).
  - rewrite Hc. discriminate.
  - apply (bool_decide_unpack _). vm_compute. exact I.
  - reflexivity.
  - reflexivity.
  - discriminate.
  - reflexivity.
  - reflexivity.
  - exists r, d', res. split; [reflexivity |]. split; [exact Hc |]. split; [exact Hst |].
    split; [exact Hh |]. rewrite Hs, Hc. reflexivity.
Defined.

Lemma mergeProperties_no_stamps (serverProps : props) (clientProps : json) :
  mergeProperties serverProps clientProps (JObj ∅) (JObj ∅) = serverProps.
Proof.
  unfold mergeProperties. generalize (entries clientProps). intros l.
  induction l as [|kv l IH] using rev_ind; [done |].
  rewrite foldl_snoc, IH. done.
Qed.

(** X23: an edit that the server takes as a possible conflict and that
    brings no [propertyTimestamps] is stored and flagged, and changes no
    property of the shape. *)
Theorem conflicting_edit_without_stamps_is_dropped (d : db) (canvasId userId : string)
    (shapeId : option string) (payload : props) (now : Z) (eventId : string)
    (c : conflict) :
  detectConflict d canvasId shapeId payload = Some c ->
  payload !! "propertyTimestamps" = None ->
  is_Some (getCanvas d canvasId) ->
  exists d' res sid r,
    shapeId = Some sid /\ shapes d !! sid = Some r /\
    storeEvent d canvasId userId "SHAPE_EDITED" shapeId payload now eventId
    = Some (d', res) /\
    se_hadConflict res = Some true /\ se_stored res = Some true /\
    se_payload res !! "properties" = Some (JObj (sr_properties r)) /\
    shapes d' !! sid = Some (with_properties r now (sr_properties r)).
Proof.
  unfold getCanvas. intros Hdet Hts [cv Hcv].
  destruct (detectConflict_inv _ _ _ _ _ Hdet) as (sid & r & -> & Hr & Hc & Hsp).
  assert (Hres : resolveConflict c payload
                 = <["conflictResolved" := JBool true]>
                     (<["properties" := JObj (sr_properties r)]> payload)).
  { unfold resolveConflict. cbv zeta. rewrite Hts. cbn [js_or default from_option id].
    by rewrite mergeProperties_no_stamps, Hsp. }
  unfold storeEvent. change (shouldStoreEvent "SHAPE_EDITED") with true.
  cbn [negb]. cbv zeta. rewrite Hdet, Hres. unfold insert_event. cbn [ev_canvas_id].
  rewrite Hcv. cbn [mbind option_bind].
  change (applyEvent ?d0 canvasId "SHAPE_EDITED" (Some sid) ?p now)
    with (update_shape d0 canvasId (Some sid)
            (concat_properties now (js_or (p !! "properties") (Some (JObj p))))).
  rewrite lookup_insert_ne by done. rewrite lookup_insert_eq. cbn [js_or truthy].
  unfold update_shape. cbn [shapes]. rewrite Hr.
  destruct (String.eqb_spec (sr_canvas_id r) canvasId) as [_ | ?]; [| done].
  unfold concat_properties. cbn [sql_jsonb_object mbind option_bind].
  eexists _, _, sid, r. split; [done |]. split; [done |]. split; [reflexivity |].
  cbn [se_hadConflict se_stored se_payload touch_canvas shapes].
  split; [done |]. split; [done |].
  split; [rewrite lookup_insert_ne by done; apply lookup_insert_eq |].
  rewrite lookup_insert_eq. do 2 f_equal. apply map_eq. intros k.
  rewrite lookup_union. by destruct (sr_properties r !! k).
Qed.

Lemma conflicting_edit_without_stamps_witness :
  let created : props :=
    <["type" := JStr "rectangle"]>
      {[ "properties" := JObj (<["x" := JNum 10]> {[ "fill" := JStr "red" ]}) ]} in
  let edit : props :=
    <["properties" := JObj {[ "fill" := JStr "blue" ]}]>
      {[ "vectorClock" := JObj {[ "u2" := JNum 1 ]} ]} in
  let d := run [CallGetOrCreateCanvas Examples.C1 "Untitled Canvas" 100;
                CallStoreEvent Examples.C1 "u1" "SHAPE_CREATED" (Some Examples.S1)
                  created 200 Examples.evt1] in
  exists c d' res r,
    detectConflict d Examples.C1 (Some Examples.S1) edit = Some c /\
    shapes d !! Examples.S1 = Some r /\
    storeEvent d Examples.C1 "u2" "SHAPE_EDITED" (Some Examples.S1) edit 300 Examples.evt2
    = Some (d', res) /\
    se_hadConflict res = Some true /\
    shapes d' !! Examples.S1 = Some (with_properties r 300 (sr_properties r)).
Proof.
  intros created edit d.
  destruct (detectConflict d Examples.C1 (Some Examples.S1) edit) as [c|] eqn:Hdet;
    [| vm_compute in Hdet; discriminate Hdet].
  destruct (conflicting_edit_without_stamps_is_dropped d Examples.C1 "u2" (Some Examples.S1)
              edit 300 Examples.evt2 c Hdet)
    as (d' & res & sid & r & Hsid & Hr & Hst & Hh & _ & _ & Hs).
  - reflexivity.
  - apply (bool_decide_unpack _). vm_compute. exact I.
  - injection Hsid as <-. exists c, d', res, r. split; [reflexivity |]. done.
Defined.

End StoreIsolationFacts.

(** ** Histories of shapes and batches *)

Module StoreHistoryFacts.
Import EventStore ProjectionSpec HistorySpec EventStoreFacts StoreInvariants
  StoreReadFacts.

Lemma storeBatchEvents_loop_from (P : db -> Prop) canvasId now ids evs :
  (forall d e d' be, P d -> commits d e d' -> be ∈ evs ->
     ev_event_type e = be_eventType be -> ev_shape_id e = be_shapeId be -> P d') ->
  forall d stored conflicts d' stored' conflicts',
    storeBatchEvents_loop d canvasId evs now ids stored conflicts
    = Some (d', stored', conflicts') ->
    P d -> P d'.
Proof.
  induction evs as [|event rest IH]; intros HP d stored conflicts d' stored' conflicts';
    cbn [storeBatchEvents_loop].
  - intros ? ?. by simplify_eq.
  - assert (HP' : forall d e d' be, P d -> commits d e d' -> be ∈ rest ->
              ev_event_type e = be_eventType be -> ev_shape_id e = be_shapeId be -> P d').
    { intros d0 e d1 be Hd0 Hc Hin. eapply HP; eauto. by apply list_elem_of_further. }
    cbv zeta. destruct (shouldStoreEvent (be_eventType event)) eqn:Hs; cbn [negb].
    + intros H Hd. apply bind_Some in H as (d1 & Hins & H).
      apply bind_Some in H as (d2 & Happ & H).
      eapply (IH HP'); [exact H |].
      match type of Hins with
      | insert_event d ?e = _ => apply (HP d e d2 event Hd)
      end; [| apply list_elem_of_here | done | done].
      split; [exact Hs |]. split; [reflexivity |]. by exists d1.
    + apply (IH HP').
Qed.

Lemma run_call_deleted d c id r :
  ¬ creates id c ->
  shapes d !! id = Some r -> is_Some (sr_deleted_at r) ->
  exists r', shapes (run_call d c) !! id = Some r' /\ is_Some (sr_deleted_at r').
Proof.
  intros Hnc Hr Hdel.
  assert (Hstep : forall d0 e d1,
            (exists r0, shapes d0 !! id = Some r0 /\ is_Some (sr_deleted_at r0)) ->
            commits d0 e d1 ->
            ¬ (ev_event_type e = "SHAPE_CREATED" /\ ev_shape_id e = Some id) ->
            exists r1, shapes d1 !! id = Some r1 /\ is_Some (sr_deleted_at r1)).
  { intros d0 e d1 (r0 & Hr0 & Hd0) Hc Hne.
    destruct (commits_row _ _ _ _ _ Hc Hr0) as (r1 & Hr1 & _ & H).
    exists r1. split; [done |].
    destruct H as [-> | (Hs & [[Hk _] | (_ & _ & H)])]; [done | | by apply H].
    exfalso. by apply Hne. }
  destruct c as [canvasId name now | canvasId userId eventType shapeId payload
                   now eventId | canvasId evs now ids]; cbn [run_call].
  - exists r. done.
  - destruct (storeEvent d canvasId userId eventType shapeId payload now eventId)
      as [[d' res]|] eqn:H; [| by exists r].
    destruct (shouldStoreEvent eventType) eqn:Hs.
    + apply (storeEvent_stored _ _ _ _ _ _ _ _ _ _ Hs) in H
        as (e & d2 & Hc & -> & -> & _).
      cbn [touch_canvas shapes]. eapply Hstep; [by exists r | exact Hc |].
      cbn [ev_event_type ev_shape_id]. exact Hnc.
    + unfold storeEvent in H. rewrite Hs in H. cbn in H. simplify_eq. by exists r.
  - unfold storeBatchEvents.
    destruct (storeBatchEvents_loop d canvasId evs now ids [] [])
      as [[[d' s] cf]|] eqn:H; [| by exists r].
    cbn [touch_canvas shapes].
    refine (storeBatchEvents_loop_from
              (fun d0 => exists r0, shapes d0 !! id = Some r0 /\ is_Some (sr_deleted_at r0))
              _ _ _ _ _ _ _ _ _ _ _ H _); [| by exists r].
    intros d0 e d1 be Hd0 Hc Hin Hk Hs. eapply Hstep; [exact Hd0 | exact Hc |].
    intros [Hk' Hs']. apply Hnc. cbn [creates]. apply Exists_exists.
    exists be. split; [done |]. split; congruence.
Qed.

(** X24: a deleted shape stays deleted, and out of every state, through all
    calls that store no SHAPE_CREATED for its id: no other stored kind
    clears [deleted_at]. *)
Theorem deleted_until_created_again (calls more : list call) (id : string)
    (r : shape_row) :
  shapes (run calls) !! id = Some r ->
  is_Some (sr_deleted_at r) ->
  Forall (fun c => ¬ creates id c) more ->
  (exists r', shapes (run (calls ++ more)) !! id = Some r' /\ is_Some (sr_deleted_at r')) /\
  (forall canvasId kr,
     kr ∈ live_shapes canvasId (shapes (run (calls ++ more))) -> kr.1 <> id).
Proof.
  intros Hr Hdel Hmore. rewrite run_app.
  assert (H : exists r', shapes (foldl run_call (run calls) more) !! id = Some r' /\
                         is_Some (sr_deleted_at r')).
  { revert Hr Hdel. generalize (run calls). intros d. revert d r.
    induction Hmore as [|c more Hc _ IH]; intros d r Hr Hdel; cbn [foldl].
    - by exists r.
    - destruct (run_call_deleted d c id r Hc Hr Hdel) as (r1 & Hr1 & Hd1).
      by eapply IH. }
  split; [exact H |]. destruct H as (r' & Hr' & [t Ht]).
  intros canvasId [id' r0] Hin Hid. cbn in Hid. subst id'.
  apply elem_of_order_by, elem_of_map_to_list, map_lookup_filter_Some in Hin
    as [Hr0 [_ Hlive]]. cbn in Hlive. congruence.
Qed.

Lemma deleted_until_created_again_witness :
  let created : props :=
    <["type" := JStr "rectangle"]>
      {[ "properties" := JObj (<["x" := JNum 10]> {[ "y" := JNum 20 ]}) ]} in
  let calls := [CallGetOrCreateCanvas Examples.C1 "Untitled Canvas" 100;
                CallStoreEvent Examples.C1 "u1" "SHAPE_CREATED" (Some Examples.S1)
                  created 200 Examples.evt1;
                CallStoreEvent Examples.C1 "u1" "SHAPE_DELETED" (Some Examples.S1) ∅ 300
                  Examples.evt2] in
  let more := [CallStoreEvent Examples.C1 "u2" "SHAPE_MOVED" (Some Examples.S1)
                 {[ "position" := JObj (<["x" := JNum 1]> {[ "y" := JNum 2 ]}) ]} 400
                 Examples.evt3;
               CallStoreEvent Examples.C1 "u2" "SHAPE_EDITED" (Some Examples.S1)
                 {[ "properties" := JObj {[ "fill" := JStr "blue" ]} ]} 500
                 Examples.evt4] in
  exists r,
    shapes (run calls) !! Examples.S1 = Some r /\ is_Some (sr_deleted_at r) /\
    Forall (fun c => ¬ creates Examples.S1 c) more /\
    (exists r', shapes (run (calls ++ more)) !! Examples.S1 = Some r' /\
                is_Some (sr_deleted_at r')) /\
    (forall canvasId kr,
       kr ∈ live_shapes canvasId (shapes (run (calls ++ more))) -> kr.1 <> Examples.S1).
Proof.
  intros created calls more.
  destruct (shapes (run calls) !! Examples.S1) as [r|] eqn:Hr;
    [| vm_compute in Hr; discriminate Hr].
  assert (Hdel : is_Some (sr_deleted_at r)).
  { assert (Hr' := Hr). vm_compute in Hr'. injection Hr' as <-. by eexists. }
  assert (Hmore : Forall (fun c => ¬ creates Examples.S1 c) more).
  { repeat constructor; intros [H _]; discriminate H. }
  exists r. split; [reflexivity |]. split; [exact Hdel |]. split; [exact Hmore |].
  exact (deleted_until_created_again calls more Examples.S1 r Hr Hdel Hmore).
Defined.

(** *** A batch and the single stores *)

Lemma update_shape_with_canvases cs d canvasId shapeId f :
  update_shape (with_canvases cs d) canvasId shapeId f
  = with_canvases cs <$> update_shape d canvasId shapeId f.
Proof.
  unfold update_shape, with_canvases. cbn [shapes canvases events].
  repeat case_match; done.
Qed.

Lemma upsert_shape_with_canvases cs d canvasId shapeId ty ps z now :
  (is_Some (cs !! canvasId) <-> is_Some (canvases d !! canvasId)) ->
  upsert_shape (with_canvases cs d) canvasId shapeId ty ps z now
  = with_canvases cs <$> upsert_shape d canvasId shapeId ty ps z now.
Proof.
  intros Hiff. unfold upsert_shape, with_canvases. cbn [shapes canvases events].
  destruct shapeId as [id|]; [| done].
  destruct (sql_varchar_not_null ty); [| done].
  destruct (sql_jsonb_object ps); [| done].
  destruct (sql_integer z); [| done].
  destruct (shapes d !! id); [done |].
  destruct (cs !! canvasId) as [c1|] eqn:H1, (canvases d !! canvasId) as [c2|] eqn:H2;
    try done.
  - destruct Hiff as [Hiff _]. by destruct Hiff.
  - destruct Hiff as [_ Hiff]. by destruct Hiff.
Qed.

Lemma applyEvent_with_canvases cs d canvasId kind shapeId payload now :
  (is_Some (cs !! canvasId) <-> is_Some (canvases d !! canvasId)) ->
  applyEvent (with_canvases cs d) canvasId kind shapeId payload now
  = with_canvases cs <$> applyEvent d canvasId kind shapeId payload now.
Proof.
  intros Hiff. unfold applyEvent. cbv zeta.
  repeat match goal with
         | |- context [if ?b then _ else _] => destruct b
         | |- context [match ?x with _ => _ end] => destruct x
         end;
    try done; auto using update_shape_with_canvases, upsert_shape_with_canvases.
Qed.

Lemma insert_event_with_canvases cs d e :
  (is_Some (cs !! ev_canvas_id e) <-> is_Some (canvases d !! ev_canvas_id e)) ->
  insert_event (with_canvases cs d) e = with_canvases cs <$> insert_event d e.
Proof.
  intros Hiff. unfold insert_event, with_canvases. cbn [canvases shapes events].
  destruct (cs !! ev_canvas_id e) as [c1|] eqn:H1,
           (canvases d !! ev_canvas_id e) as [c2|] eqn:H2; try done.
  - destruct Hiff as [Hiff _]. by destruct Hiff.
  - destruct Hiff as [_ Hiff]. by destruct Hiff.
Qed.

Lemma detectConflict_shapes d1 d2 canvasId shapeId payload :
  shapes d1 = shapes d2 ->
  detectConflict d1 canvasId shapeId payload = detectConflict d2 canvasId shapeId payload.
Proof. intros H. unfold detectConflict. by rewrite H. Qed.

Lemma getCurrentVersion_events d1 d2 canvasId :
  events d1 = events d2 -> getCurrentVersion canvasId d1 = getCurrentVersion canvasId d2.
Proof. intros H. unfold getCurrentVersion, canvas_events. by rewrite H. Qed.

(** Two tables that differ at most in the [updated_at] of one canvas. *)
Lemma touch_canvas_eq d1 d2 canvasId now :
  touch_canvas d1 canvasId now = touch_canvas d2 canvasId now ->
  shapes d1 = shapes d2 /\ events d1 = events d2 /\
  (forall k, is_Some (canvases d1 !! k) <-> is_Some (canvases d2 !! k)) /\
  d2 = with_canvases (canvases d2) d1.
Proof.
  intros H.
  assert (Hs : shapes d1 = shapes d2) by exact (f_equal shapes H).
  assert (He : events d1 = events d2) by exact (f_equal events H).
  split; [done |]. split; [done |]. split.
  - intros k. pose proof (f_equal (fun d => canvases d !! k) H) as Hk. cbn in Hk.
    destruct (decide (k = canvasId)) as [-> | Hne].
    + rewrite !lookup_alter_eq in Hk.
      destruct (canvases d1 !! canvasId), (canvases d2 !! canvasId); try done;
        split; intros _; by eexists.
    + rewrite !lookup_alter_ne in Hk by done. by rewrite Hk.
  - destruct d1, d2. unfold with_canvases. cbn in *. by subst.
Qed.

Lemma touch_canvas_idemp d canvasId now :
  touch_canvas (touch_canvas d canvasId now) canvasId now = touch_canvas d canvasId now.
Proof.
  unfold touch_canvas. cbn [canvases shapes events]. f_equal.
  apply map_eq. intros k. destruct (decide (k = canvasId)) as [-> | Hne].
  - rewrite !lookup_alter_eq. by destruct (canvases d !! canvasId).
  - by rewrite !lookup_alter_ne.
Qed.

Lemma store_each_follows_the_batch canvasId now ids evs :
  forall d1 d2 stored conflicts,
    touch_canvas d1 canvasId now = touch_canvas d2 canvasId now ->
    (fun r => touch_canvas r.1.1 canvasId now)
      <$> storeBatchEvents_loop d1 canvasId evs now ids stored conflicts
    = (fun d' => touch_canvas d' canvasId now)
        <$> store_each d2 canvasId evs now ids (length stored).
Proof.
  induction evs as [|e rest IH]; intros d1 d2 stored conflicts HR;
    cbn [storeBatchEvents_loop store_each].
  - cbn. by rewrite HR.
  - cbv zeta. unfold storeEvent.
    destruct (shouldStoreEvent (be_eventType e)) eqn:Hs; cbn [negb]; [| by apply IH].
    cbv zeta.
    destruct (touch_canvas_eq _ _ _ _ HR) as (Hsh & Hev & Hcs & Hd2).
    rewrite <- (detectConflict_shapes d1 d2) by done.
    rewrite <- (getCurrentVersion_events d1 d2) by done.
    set (conflict := detectConflict d1 canvasId (be_shapeId e) (be_payload e)).
    set (resolved := match conflict with
                     | Some c => resolveConflict c (be_payload e)
                     | None => be_payload e
                     end).
    set (ev := {| ev_id := ids (length stored); ev_canvas_id := canvasId |}).
    rewrite Hd2 at 1. rewrite insert_event_with_canvases by (symmetry; apply Hcs).
    destruct (insert_event d1 ev) as [d1a|] eqn:Hins; [| done].
    cbn [fmap option_fmap option_map mbind option_bind].
    pose proof (insert_event_inv _ _ _ Hins) as [_ Hd1a].
    rewrite applyEvent_with_canvases
      by (rewrite Hd1a; cbn [canvases]; symmetry; apply Hcs).
    destruct (applyEvent d1a canvasId (be_eventType e) (be_shapeId e) resolved now)
      as [d1b|] eqn:Happ; [| done].
    cbn [fmap option_fmap option_map mbind option_bind].
    pose proof (applyEvent_frame _ _ _ _ _ _ _ Happ) as [_ Hcb].
    match goal with
    | |- _ = _ <$> store_each ?d _ _ _ _ ?k =>
        replace k with (length (stored ++ [{|
          se_eventId := Some (ids (length stored));
          se_version := getCurrentVersion canvasId d1 + 1;
          se_canvasId := canvasId; se_userId := be_userId e;
          se_eventType := be_eventType e; se_shapeId := be_shapeId e;
          se_payload := resolved; se_stored := None;
          se_hadConflict := Some (bool_decide (is_Some conflict)) |}]))
          by (rewrite length_app; cbn; lia)
    end.
    apply IH. rewrite touch_canvas_idemp.
    unfold touch_canvas, with_canvases. cbn [canvases shapes events]. f_equal.
    rewrite Hcb, Hd1a. cbn [canvases].
    exact (f_equal canvases HR).
Qed.

(** X25: a batch leaves the tables as storing its events one [storeEvent]
    after the other at the time of the batch does, up to the [updated_at] of
    the canvas, which the batch sets in any case; and it fails exactly when
    one of those stores fails. *)
Theorem batch_is_a_sequence_of_stores (d : db) (canvasId : string)
    (evs : list batch_event) (now : Z) (ids : nat -> string) :
  fst <$> storeBatchEvents d canvasId evs now ids
  = (fun d' => touch_canvas d' canvasId now) <$> store_each d canvasId evs now ids 0.
Proof.
  pose proof (store_each_follows_the_batch canvasId now ids evs d d [] [] eq_refl) as H.
  cbn [length] in H. rewrite <- H. unfold storeBatchEvents.
  by destruct (storeBatchEvents_loop d canvasId evs now ids [] []) as [[[d' s] c]|].
Qed.

End StoreHistoryFacts.

(** ** Rooms *)

Module RoomsFacts.
Import EventStore Rooms.

(** *** Writes leave rooms and connections alone *)

Lemma send_frame h ws msg :
  canvasRooms (send h ws msg) = canvasRooms h /\
  connections (send h ws msg) = connections h /\
  ws_readyState (send h ws msg) = ws_readyState h.
Proof. unfold send. by destruct (is_open _). Qed.

Lemma send_appends h ws msg :
  sent (send h ws msg)
  = sent h ++ (if is_open (ws_readyState h ws) then [(ws, msg)] else []).
Proof. unfold send. destruct (is_open _); [done | by rewrite app_nil_r]. Qed.

Lemma broadcast_loop h msg excludeWs (room : list nat) :
  let h' := foldl (fun h ws => if bool_decide (Some ws ≠ excludeWs) then send h ws msg else h)
                  h room in
  canvasRooms h' = canvasRooms h /\ connections h' = connections h /\
  ws_readyState h' = ws_readyState h /\
  sent h' = sent h ++
            omap (fun ws => if bool_decide (Some ws ≠ excludeWs) &&
                               is_open (ws_readyState h ws)
                            then Some (ws, msg) else None) room.
Proof.
  revert h. induction room as [|ws room IH]; intros h; cbn [foldl omap list_omap].
  - by rewrite app_nil_r.
  - cbv zeta in IH. destruct (bool_decide (Some ws ≠ excludeWs)); cbn [andb].
    + destruct (IH (send h ws msg)) as (-> & -> & -> & ->).
      destruct (send_frame h ws msg) as (-> & -> & ->). rewrite send_appends.
      split; [done |]. split; [done |]. split; [done |].
      destruct (is_open _); cbn; by rewrite <- app_assoc.
    + apply IH.
Qed.

Lemma broadcastToCanvas_frame h canvasId msg excludeWs :
  canvasRooms (broadcastToCanvas h canvasId msg excludeWs) = canvasRooms h /\
  connections (broadcastToCanvas h canvasId msg excludeWs) = connections h /\
  ws_readyState (broadcastToCanvas h canvasId msg excludeWs) = ws_readyState h.
Proof.
  unfold broadcastToCanvas. destruct (canvasRooms h !! canvasId) as [room|]; [| done].
  destruct (broadcast_loop h msg excludeWs room) as (? & ? & ? & _). done.
Qed.

Lemma handleShapeEvent_without_payload_frame h d ws c eventType shapeId localEventId :
  let h' := handleShapeEvent_without_payload h d ws c eventType shapeId localEventId in
  canvasRooms h' = canvasRooms h /\ connections h' = connections h /\
  ws_readyState h' = ws_readyState h.
Proof.
  unfold handleShapeEvent_without_payload, sendError.
  destruct (joined c) as [k|]; [destruct (shouldStoreEvent eventType) |];
    cbv zeta;
    repeat match goal with
           | |- context [broadcastToCanvas ?h0 ?k ?m ?e] =>
               destruct (broadcastToCanvas_frame h0 k m e) as (-> & -> & ->)
           | |- context [send ?h0 ?w ?m] =>
               destruct (send_frame h0 w m) as (-> & -> & ->)
           end; done.
Qed.

Lemma received_app ws h l :
  (filter (fun p : nat * frame => p.1 = ws) (sent h ++ l)).*2
  = received ws h ++ (filter (fun p : nat * frame => p.1 = ws) l).*2.
Proof. unfold received. by rewrite filter_app, fmap_app. Qed.

Lemma received_omap ws msg (f : nat -> bool) (room : list nat) :
  NoDup room ->
  (filter (fun p : nat * frame => p.1 = ws)
     (omap (fun x => if f x then Some (x, msg) else None) room)).*2
  = if decide (ws ∈ room) then (if f ws then [msg] else []) else [].
Proof.
  induction 1 as [|x room Hx Hnd IH]; cbn [omap list_omap].
  - by rewrite decide_False by apply not_elem_of_nil.
  - destruct (decide (ws = x)) as [-> | Hne].
    + rewrite (decide_True (P := x ∈ x :: room)) by apply list_elem_of_here.
      rewrite decide_False in IH by done.
      destruct (f x); [| exact IH].
      rewrite filter_cons, decide_True by done. cbn [fmap list_fmap]. by rewrite IH.
    + assert (Hin : ws ∈ x :: room <-> ws ∈ room).
      { rewrite elem_of_cons. split; [intros [? | ?]; done | by right]. }
      destruct (f x).
      * rewrite filter_cons, decide_False by (cbn; congruence). rewrite IH.
        destruct (decide (ws ∈ room)), (decide (ws ∈ x :: room)); tauto || done.
      * rewrite IH.
        destruct (decide (ws ∈ room)), (decide (ws ∈ x :: room)); tauto || done.
Qed.

(** A broadcast writes its message once to each socket of the room that is
    OPEN and not excluded, and nothing else. *)
Lemma received_broadcast h canvasId msg excludeWs peer :
  NoDup (default [] (canvasRooms h !! canvasId)) ->
  received peer (broadcastToCanvas h canvasId msg excludeWs)
  = received peer h ++
    (if decide (peer ∈ default [] (canvasRooms h !! canvasId))
     then (if bool_decide (Some peer ≠ excludeWs) && is_open (ws_readyState h peer)
           then [msg] else [])
     else []).
Proof.
  unfold broadcastToCanvas. destruct (canvasRooms h !! canvasId) as [room|]; cbn [default].
  - intros Hnd. destruct (broadcast_loop h msg excludeWs room) as (_ & _ & _ & Hs).
    unfold received at 1. rewrite Hs, received_app.
    by rewrite (received_omap peer msg
                  (fun x => bool_decide (Some x ≠ excludeWs) && is_open (ws_readyState h x))).
  - intros _. rewrite decide_False by apply not_elem_of_nil. by rewrite app_nil_r.
Qed.

Lemma received_send h ws msg peer :
  received peer (send h ws msg)
  = received peer h ++
    (if decide (peer = ws) then (if is_open (ws_readyState h ws) then [msg] else [])
     else []).
Proof.
  unfold received at 1. rewrite send_appends, received_app.
  destruct (is_open _); [| by case_decide].
  rewrite filter_cons, filter_nil. cbn [fst].
  destruct (decide (ws = peer)), (decide (peer = ws)); try done; congruence.
Qed.

(** *** Rooms and connections agree *)

Lemma rooms_match_ext h h' :
  canvasRooms h' = canvasRooms h -> connections h' = connections h ->
  rooms_match_connections h -> rooms_match_connections h'.
Proof. unfold rooms_match_connections. intros -> ->. done. Qed.

Lemma not_joined_in_no_room h ws c :
  rooms_match_connections h -> connections h !! ws = Some c -> joined c = None ->
  in_no_room h ws.
Proof.
  intros [Ha _] Hc Hj canvasId room Hroom Hin.
  destruct (Ha _ _ Hroom) as (_ & _ & Hm). destruct (Hm _ Hin) as (c' & Hc' & Hj').
  congruence.
Qed.

Lemma room_delete_spec ws room x : x ∈ room_delete ws room <-> x ∈ room /\ x <> ws.
Proof. unfold room_delete. rewrite list_elem_of_filter. tauto. Qed.

Lemma handleLeaveCanvas_rooms h ws c canvasId room k :
  joined c = Some canvasId -> canvasRooms h !! canvasId = Some room ->
  canvasRooms (handleLeaveCanvas h ws c) !! k
  = if decide (k = canvasId)
    then (if decide (room_delete ws room = []) then None else Some (room_delete ws room))
    else canvasRooms h !! k.
Proof.
  intros Hj Hroom. unfold handleLeaveCanvas. rewrite Hj, Hroom. cbv zeta.
  cbn [with_connections canvasRooms].
  match goal with
  | |- canvasRooms (broadcastToCanvas ?h1 _ _ _) !! _ = _ =>
      destruct (broadcastToCanvas_frame h1 canvasId
                  (USER_LEFT (WebSocketManager.conn_userId c)) None) as (-> & _)
  end.
  destruct (decide (length (room_delete ws room) = 0%nat)) as [Hl | Hl];
    cbn [with_rooms canvasRooms].
  - apply length_zero_iff_nil in Hl. rewrite Hl.
    rewrite (decide_True (P := [] = [])) by done.
    case_decide; [subst; apply lookup_delete_eq | by apply lookup_delete_ne].
  - rewrite (decide_False (P := room_delete ws room = []))
      by (intros E; rewrite E in Hl; done).
    case_decide; [subst; apply lookup_insert_eq | by apply lookup_insert_ne].
Qed.

Lemma handleLeaveCanvas_connections h ws c canvasId :
  joined c = Some canvasId ->
  connections (handleLeaveCanvas h ws c) = <[ws := with_canvasId c None]> (connections h) /\
  ws_readyState (handleLeaveCanvas h ws c) = ws_readyState h.
Proof.
  intros Hj. unfold handleLeaveCanvas. rewrite Hj. cbv zeta.
  cbn [with_connections connections ws_readyState].
  match goal with
  | |- context [broadcastToCanvas ?h1 _ _ _] =>
      destruct (broadcastToCanvas_frame h1 canvasId
                  (USER_LEFT (WebSocketManager.conn_userId c)) None) as (_ & -> & ->)
  end.
  by destruct (canvasRooms h !! canvasId) as [room|]; [case_decide |].
Qed.

Lemma handleLeaveCanvas_keeps h ws c :
  rooms_match_connections h -> connections h !! ws = Some c ->
  rooms_match_connections (handleLeaveCanvas h ws c) /\
  in_no_room (handleLeaveCanvas h ws c) ws /\
  (exists c', connections (handleLeaveCanvas h ws c) !! ws = Some c' /\ joined c' = None) /\
  (forall x, x <> ws ->
     connections (handleLeaveCanvas h ws c) !! x = connections h !! x).
Proof.
  intros Hinv Hc. destruct (joined c) as [canvasId|] eqn:Hj.
  2: { unfold handleLeaveCanvas. rewrite Hj. split; [done |].
       split; [by eapply not_joined_in_no_room |]. split; [by exists c | done]. }
  pose proof Hinv as [Ha Hb].
  destruct (Hb _ _ _ Hc Hj) as (room & Hroom & Hin).
  pose proof (fun k => handleLeaveCanvas_rooms h ws c canvasId room k Hj Hroom) as Hrooms.
  destruct (handleLeaveCanvas_connections h ws c canvasId Hj) as [Hconn _].
  set (h' := handleLeaveCanvas h ws c) in *.
  assert (Hother : forall x, x <> ws -> connections h' !! x = connections h !! x).
  { intros x Hx. rewrite Hconn. by rewrite lookup_insert_ne. }
  assert (Hnot : forall k r, k <> canvasId -> canvasRooms h !! k = Some r -> ws ∉ r).
  { intros k r Hk Hr Hw. destruct (Ha _ _ Hr) as (_ & _ & Hm).
    destruct (Hm _ Hw) as (c0 & Hc0 & Hj0). congruence. }
  split; [split |]; [| | split; [| split]].
  - intros k r. rewrite (Hrooms k). destruct (decide (k = canvasId)) as [-> | Hk].
    + destruct (decide (room_delete ws room = [])) as [He | He]; [done |].
      intros [= <-]. split; [done |].
      split; [apply NoDup_filter; by destruct (Ha _ _ Hroom) as (_ & ? & _) |].
      intros x [Hx Hne]%room_delete_spec. rewrite (Hother x Hne).
      destruct (Ha _ _ Hroom) as (_ & _ & Hm). by apply Hm.
    + intros Hr. destruct (Ha _ _ Hr) as (Hne & Hnd & Hm). split; [done |].
      split; [done |]. intros x Hx. rewrite Hother; [by apply Hm |].
      intros ->. by eapply Hnot.
  - intros x cx k Hx Hjx.
    assert (Hxw : x <> ws).
    { intros ->. rewrite Hconn, lookup_insert_eq in Hx. injection Hx as <-.
      unfold WebSocketManager.joined, with_canvasId in Hjx. cbn in Hjx. done. }
    rewrite (Hother x Hxw) in Hx. destruct (Hb _ _ _ Hx Hjx) as (r & Hr & Hxr).
    rewrite (Hrooms k). destruct (decide (k = canvasId)) as [-> | Hk]; [| by exists r].
    rewrite Hroom in Hr. injection Hr as <-.
    assert (Hxd : x ∈ room_delete ws room) by by apply room_delete_spec.
    destruct (decide (room_delete ws room = [])) as [He | He]; [| by eexists].
    rewrite He in Hxd. by apply elem_of_nil in Hxd.
  - intros k r. rewrite (Hrooms k). destruct (decide (k = canvasId)) as [-> | Hk].
    + destruct (decide (room_delete ws room = [])); [done |].
      intros [= <-] [_ ?]%room_delete_spec. done.
    + by apply Hnot.
  - exists (with_canvasId c None). by rewrite Hconn, lookup_insert_eq.
  - exact Hother.
Qed.

Lemma left_first_readyState h ws c : ws_readyState (left_first h ws c) = ws_readyState h.
Proof.
  unfold left_first. destruct (joined c) as [k|] eqn:Hj; [| done].
  by destruct (handleLeaveCanvas_connections h ws c k Hj).
Qed.

Lemma handleJoinCanvas_state h d ws c canvasId username now :
  canvasId <> EmptyString ->
  is_Some (uuid_in canvasId) ->
  let r := handleJoinCanvas h d ws c (Some canvasId) username now in
  let h1 := left_first h ws c in
  canvasRooms r.1
  = <[canvasId := room_add ws (default [] (canvasRooms h1 !! canvasId))]> (canvasRooms h1) /\
  connections r.1 = <[ws := joined_as c canvasId username]> (connections h1) /\
  ws_readyState r.1 = ws_readyState h /\
  r.2 = (getOrCreateCanvas d canvasId "Untitled Canvas" now).1.
Proof.
  intros Hne [u Hu] r h1. subst r. unfold handleJoinCanvas.
  destruct (String.eqb_spec canvasId EmptyString) as [? | _]; [done |].
  rewrite Hu. cbv zeta. fold (left_first h ws c). fold h1. cbn [fst snd].
  repeat match goal with
         | |- context [broadcastToCanvas ?h0 ?k ?m ?e] =>
             destruct (broadcastToCanvas_frame h0 k m e) as (-> & -> & ->)
         | |- context [canvasRooms (send ?h0 ?w ?m)] =>
             destruct (send_frame h0 w m) as (-> & -> & ->)
         end.
  cbn [canvasRooms connections ws_readyState]. subst h1.
  by rewrite left_first_readyState.
Qed.

(** A join by an id that is no uuid: the socket has left its canvas and is
    written JOIN_ERROR; the tables stay. *)
Lemma handleJoinCanvas_no_uuid h d ws c canvasId username now :
  canvasId <> EmptyString ->
  uuid_in canvasId = None ->
  handleJoinCanvas h d ws c (Some canvasId) username now
  = (send (left_first h ws c) ws (JOIN_ERROR canvasId (uuid_syntax_error canvasId)), d).
Proof.
  intros Hne Hu. unfold handleJoinCanvas.
  destruct (String.eqb_spec canvasId EmptyString) as [? | _]; [done |].
  by rewrite Hu.
Qed.

Lemma joined_joined_as c canvasId username :
  canvasId <> EmptyString -> joined (joined_as c canvasId username) = Some canvasId.
Proof.
  intros Hne. unfold WebSocketManager.joined, joined_as, with_username, with_canvasId. cbn.
  by destruct (String.eqb_spec canvasId EmptyString).
Qed.

Lemma left_first_keeps h ws c :
  rooms_match_connections h -> connections h !! ws = Some c ->
  rooms_match_connections (left_first h ws c) /\
  in_no_room (left_first h ws c) ws /\
  (forall x, x <> ws -> connections (left_first h ws c) !! x = connections h !! x).
Proof.
  intros Hinv Hc. unfold left_first. destruct (joined c) as [k|] eqn:Hj.
  - destruct (handleLeaveCanvas_keeps h ws c Hinv Hc) as (? & ? & _ & ?). done.
  - split; [done |]. split; [by eapply not_joined_in_no_room | done].
Qed.

Lemma room_add_fresh ws room : ws ∉ room -> room_add ws room = room ++ [ws].
Proof. intros H. unfold room_add. by rewrite decide_False. Qed.

Lemma handleJoinCanvas_keeps h d ws c canvasId username now :
  rooms_match_connections h -> connections h !! ws = Some c ->
  rooms_match_connections (handleJoinCanvas h d ws c canvasId username now).1.
Proof.
  intros Hinv Hc.
  assert (Herr : forall e, rooms_match_connections (sendError h ws e)).
  { intros e. unfold sendError.
    destruct (send_frame h ws (Core (WebSocketManager.ERROR e))) as (? & ? & _).
    by eapply rooms_match_ext. }
  destruct canvasId as [canvasId|]; [| apply Herr].
  destruct (String.eqb_spec canvasId EmptyString) as [-> | Hne]; [apply Herr |].
  destruct (uuid_in canvasId) as [u|] eqn:Hu.
  2: { rewrite (handleJoinCanvas_no_uuid h d ws c canvasId username now Hne Hu). cbn [fst].
       destruct (left_first_keeps h ws c Hinv Hc) as (Hl & _).
       destruct (send_frame (left_first h ws c) ws
                   (JOIN_ERROR canvasId (uuid_syntax_error canvasId))) as (? & ? & _).
       by eapply rooms_match_ext. }
  assert (Hv : is_Some (uuid_in canvasId)) by by rewrite Hu.
  clear u Hu.
  destruct (handleJoinCanvas_state h d ws c canvasId username now Hne Hv)
    as (Hrooms & Hconn & _).
  destruct (left_first_keeps h ws c Hinv Hc) as ([Ha Hb] & Hno & Hother).
  set (h1 := left_first h ws c) in *.
  set (h' := (handleJoinCanvas h d ws c (Some canvasId) username now).1) in *.
  assert (Hroom : ws ∉ default [] (canvasRooms h1 !! canvasId)).
  { destruct (canvasRooms h1 !! canvasId) as [room|] eqn:Hr; cbn [default].
    - by eapply Hno.
    - apply not_elem_of_nil. }
  rewrite (room_add_fresh _ _ Hroom) in Hrooms.
  split.
  - intros k r. rewrite Hrooms. destruct (decide (k = canvasId)) as [-> | Hk].
    + rewrite lookup_insert_eq. intros [= <-]. split; [by destruct (default _ _) |].
      split.
      * apply NoDup_app. split; [| split; [| apply NoDup_singleton]].
        -- destruct (canvasRooms h1 !! canvasId) as [room|] eqn:Hr; cbn [default];
             [by destruct (Ha _ _ Hr) as (_ & ? & _) | apply NoDup_nil_2].
        -- intros x Hx ->%list_elem_of_singleton. done.
      * intros x [Hx | ->%list_elem_of_singleton]%elem_of_app.
        -- assert (x <> ws) by (intros ->; done).
           rewrite Hconn, lookup_insert_ne by done.
           destruct (canvasRooms h1 !! canvasId) as [room|] eqn:Hr; cbn [default] in Hx;
             [| by apply elem_of_nil in Hx].
           destruct (Ha _ _ Hr) as (_ & _ & Hm). by apply Hm.
        -- exists (joined_as c canvasId username). rewrite Hconn, lookup_insert_eq.
           split; [done | by apply joined_joined_as].
    + rewrite lookup_insert_ne by done. intros Hr.
      destruct (Ha _ _ Hr) as (? & ? & Hm). split; [done |]. split; [done |].
      intros x Hx. assert (x <> ws) by (intros ->; by eapply Hno).
      rewrite Hconn, lookup_insert_ne by done. by apply Hm.
  - intros x cx k. rewrite Hconn, Hrooms. destruct (decide (x = ws)) as [-> | Hx].
    + rewrite lookup_insert_eq. intros [= <-]. rewrite joined_joined_as by done.
      intros [= <-]. rewrite lookup_insert_eq. eexists. split; [done |].
      apply elem_of_app. right. by apply list_elem_of_singleton.
    + rewrite lookup_insert_ne by done. intros Hcx Hjx.
      destruct (Hb _ _ _ Hcx Hjx) as (r & Hr & Hxr).
      destruct (decide (k = canvasId)) as [-> | Hk].
      * rewrite lookup_insert_eq, Hr. cbn [default]. eexists. split; [done |].
        apply elem_of_app. by left.
      * rewrite lookup_insert_ne by done. by exists r.
Qed.

Lemma handleDisconnect_keeps h ws :
  rooms_match_connections h -> rooms_match_connections (handleDisconnect h ws).
Proof.
  intros Hinv. unfold handleDisconnect.
  destruct (connections h !! ws) as [c|] eqn:Hc; [| done].
  fold (left_first h ws c).
  destruct (left_first_keeps h ws c Hinv Hc) as ([Ha Hb] & Hno & _).
  split; cbn [with_connections canvasRooms connections].
  - intros k r Hr. destruct (Ha _ _ Hr) as (? & ? & Hm). split; [done |]. split; [done |].
    intros x Hx. assert (x <> ws) by (intros ->; by eapply Hno).
    rewrite lookup_delete_ne by done. by apply Hm.
  - intros x cx k. destruct (decide (x = ws)) as [-> | Hx].
    + by rewrite lookup_delete_eq.
    + rewrite lookup_delete_ne by done. apply Hb.
Qed.

Lemma handleMessage_keeps h d ws message now eventId ids :
  rooms_match_connections h ->
  rooms_match_connections (handleMessage h d ws message now eventId ids).1.
Proof.
  intros Hinv. unfold handleMessage.
  destruct (connections h !! ws) as [c|] eqn:Hc; [| done].
  destruct message as [canvasId username | | rq | ty sid lid | evs v | v | x y | ty].
  - by apply handleJoinCanvas_keeps.
  - by apply handleLeaveCanvas_keeps.
  - by destruct (WebSocketManager.handleShapeEvent _ _ _ _ _ _ _).
  - cbn [fst]. destruct (handleShapeEvent_without_payload_frame h d ws c ty sid lid)
      as (? & ? & _).
    by eapply rooms_match_ext.
  - by destruct (WebSocketManager.handleBatchSync _ _ _ _ _ _ _ _).
  - cbn [fst]. unfold handleGetState.
    destruct (joined c); [destruct v |]; unfold sendError;
      match goal with
      | |- rooms_match_connections (send ?h0 ?w ?m) =>
          destruct (send_frame h0 w m) as (? & ? & _); by eapply rooms_match_ext
      end.
  - cbn [fst]. unfold handleCursorMove. destruct (joined c) as [k|]; [| done].
    match goal with
    | |- rooms_match_connections (broadcastToCanvas ?h0 ?k ?m ?e) =>
        destruct (broadcastToCanvas_frame h0 k m e) as (? & ? & _);
          by eapply rooms_match_ext
    end.
  - cbn [fst]. unfold sendError.
    match goal with
    | |- rooms_match_connections (send ?h0 ?w ?m) =>
        destruct (send_frame h0 w m) as (? & ? & _); by eapply rooms_match_ext
    end.
Qed.

Lemma serve_keeps s i : rooms_match_connections s.1 -> rooms_match_connections (serve s i).1.
Proof.
  intros Hinv. destruct i as [ws cid uid | ws st | ws message now eventId ids | ws];
    cbn [serve].
  - destruct (connections s.1 !! ws) as [c|] eqn:Hc; [done |].
    destruct Hinv as [Ha Hb]. split; cbn.
    + intros k r Hr. destruct (Ha _ _ Hr) as (? & ? & Hm). split; [done |]. split; [done |].
      intros x Hx. destruct (Hm _ Hx) as (cx & Hcx & Hjx).
      assert (x <> ws) by congruence. rewrite lookup_insert_ne by done. eauto.
    + intros x cx k. destruct (decide (x = ws)) as [-> | Hx].
      * rewrite lookup_insert_eq. intros [= <-]. done.
      * rewrite lookup_insert_ne by done. apply Hb.
  - done.
  - by apply handleMessage_keeps.
  - by apply handleDisconnect_keeps.
Qed.

Lemma serve_all_keeps inputs : rooms_match_connections (serve_all inputs).1.
Proof.
  unfold serve_all. induction inputs as [|i inputs IH] using rev_ind.
  - split; cbn; intros *; by rewrite lookup_empty.
  - rewrite foldl_snoc. by apply serve_keeps.
Qed.

(** X26: after every history of inputs, each handled to its end before the
    next, the rooms hold exactly the sockets whose connection is joined to
    their canvas, each once; no room is empty; and a socket is in at most
    one room. *)
Theorem rooms_and_connections_agree (inputs : list input) :
  let h := (serve_all inputs).1 in
  rooms_match_connections h /\
  (forall ws k1 k2 r1 r2,
     canvasRooms h !! k1 = Some r1 -> ws ∈ r1 ->
     canvasRooms h !! k2 = Some r2 -> ws ∈ r2 -> k1 = k2).
Proof.
  intros h. pose proof (serve_all_keeps inputs) as Hinv. split; [exact Hinv |].
  destruct Hinv as [Ha _]. intros ws k1 k2 r1 r2 H1 Hw1 H2 Hw2.
  destruct (Ha _ _ H1) as (_ & _ & Hm1). destruct (Ha _ _ H2) as (_ & _ & Hm2).
  destruct (Hm1 _ Hw1) as (c1 & Hc1 & Hj1). destruct (Hm2 _ Hw2) as (c2 & Hc2 & Hj2).
  congruence.
Qed.

Lemma rooms_and_connections_agree_witness :
  let h := (serve_all [Connection 1 "k1" "aaaa1111"; Connection 2 "k2" "bbbb2222";
                       Message 1 (ReqJoinCanvas (Some Examples.C1) (Some "Ann")) 100
                         Examples.evt1 (fun _ => Examples.evt1);
                       Message 2 (ReqJoinCanvas (Some Examples.C1) None) 200
                         Examples.evt1 (fun _ => Examples.evt1);
                       Message 1 (ReqJoinCanvas (Some "00000000-0000-0000-0000-000000000002")
                                    None) 300
                         Examples.evt1 (fun _ => Examples.evt1)]).1 in
  canvasRooms h !! Examples.C1 = Some [2%nat] /\
  canvasRooms h !! "00000000-0000-0000-0000-000000000002" = Some [1%nat] /\
  exists c, connections h !! 1%nat = Some c /\
            joined c = Some "00000000-0000-0000-0000-000000000002".
Proof.
  intros h. split; [reflexivity |]. split; [reflexivity |].
  destruct (rooms_and_connections_agree
              [Connection 1 "k1" "aaaa1111"; Connection 2 "k2" "bbbb2222";
               Message 1 (ReqJoinCanvas (Some Examples.C1) (Some "Ann")) 100
                 Examples.evt1 (fun _ => Examples.evt1);
               Message 2 (ReqJoinCanvas (Some Examples.C1) None) 200
                 Examples.evt1 (fun _ => Examples.evt1);
               Message 1 (ReqJoinCanvas (Some "00000000-0000-0000-0000-000000000002")
                            None) 300
                 Examples.evt1 (fun _ => Examples.evt1)]) as [[Ha _] _].
  destruct (Ha "00000000-0000-0000-0000-000000000002" [1%nat] eq_refl) as (_ & _ & Hm).
  apply Hm. apply list_elem_of_here.
Defined.

End RoomsFacts.

(** ** What the sockets of a room receive *)

Module RoomMessagesFacts.
Import EventStore Rooms RoomsFacts.

Lemma getCanvasState_getOrCreateCanvas d canvasId name now k :
  getCanvasState k (getOrCreateCanvas d canvasId name now).1 = getCanvasState k d.
Proof. reflexivity. Qed.

Lemma omap_users_insert (conns : gmap nat connInfo) ws c (room : list nat) :
  ws ∉ room ->
  omap (fun x => match <[ws := c]> conns !! x with
                 | Some connInfo =>
                     Some {| u_userId := WebSocketManager.conn_userId connInfo;
                             u_username := WebSocketManager.conn_username connInfo |}
                 | None => None
                 end) room
  = omap (fun x => match conns !! x with
                   | Some connInfo =>
                       Some {| u_userId := WebSocketManager.conn_userId connInfo;
                               u_username := WebSocketManager.conn_username connInfo |}
                   | None => None
                   end) room.
Proof.
  induction room as [|x room IH]; intros Hw; [done |].
  apply not_elem_of_cons in Hw as [Hne Hw]. cbn [omap list_omap].
  rewrite lookup_insert_ne by done. by rewrite IH.
Qed.

(** X27: a socket that is in no room asks to join a canvas by a text that is
    not empty, and the handler runs to its end before another message or
    close is handled.  Where the text is a uuid as PostgreSQL prints it,
    the socket is added at the end of the room; if it is OPEN it is written
    JOIN_SUCCESS and then CANVAS_STATE with the state of the store and the
    users of the room, itself last; every other OPEN socket of the room is
    written USER_JOINED once; nobody else is written to; the canvas has a
    row afterwards and no shape and no event has changed.  Where the text
    is no uuid, rooms, connections and tables stay as they are, and only
    the socket is written to, if it is OPEN: JOIN_ERROR with the id and the
    message of PostgreSQL. *)
Theorem join_is_announced (h : hub) (d : db) (ws : nat) (c : connInfo)
    (canvasId : string) (username : option string) (now : Z) :
  rooms_match_connections h ->
  connections h !! ws = Some c ->
  joined c = None ->
  canvasId <> EmptyString ->
  let r := handleJoinCanvas h d ws c (Some canvasId) username now in
  let userId := WebSocketManager.conn_userId c in
  let name := username_or_default username userId in
  let members := default [] (canvasRooms h !! canvasId) in
  let state := getCanvasState canvasId d in
  (uuid_in canvasId = Some canvasId ->
   canvasRooms r.1 !! canvasId = Some (members ++ [ws]) /\
   (forall peer,
      received peer r.1
      = received peer h ++
        if is_open (ws_readyState h peer) then
          if decide (peer = ws) then
            [JOIN_SUCCESS canvasId userId name;
             CANVAS_STATE canvasId (cs_shapes state) (cs_version state)
               (getCanvasUsers h canvasId ++
                [{| u_userId := userId; u_username := Some name |}])]
          else if decide (peer ∈ members) then [USER_JOINED userId name] else []
        else []) /\
   is_Some (getCanvas r.2 canvasId) /\ shapes r.2 = shapes d /\ events r.2 = events d) /\
  (uuid_in canvasId = None ->
   canvasRooms r.1 = canvasRooms h /\ connections r.1 = connections h /\ r.2 = d /\
   forall peer,
     received peer r.1
     = received peer h ++
       if decide (peer = ws)
       then (if is_open (ws_readyState h ws)
             then [JOIN_ERROR canvasId (uuid_syntax_error canvasId)] else [])
       else []).
Proof.
  intros Hinv Hc Hj Hne r userId name members state. subst r. split.
  2: { intros Hu. rewrite (handleJoinCanvas_no_uuid h d ws c canvasId username now Hne Hu).
       unfold left_first. rewrite Hj. cbn [fst snd].
       destruct (send_frame h ws (JOIN_ERROR canvasId (uuid_syntax_error canvasId)))
         as (-> & -> & _).
       split; [done |]. split; [done |]. split; [done |].
       intros peer. apply received_send. }
  intros Hu. assert (Hv : is_Some (uuid_in canvasId)) by by rewrite Hu.
  pose proof (not_joined_in_no_room h ws c Hinv Hc Hj) as Hno.
  assert (Hw : ws ∉ members).
  { subst members. destruct (canvasRooms h !! canvasId) as [room|] eqn:Hr; cbn [default].
    - by eapply Hno.
    - apply not_elem_of_nil. }
  assert (Hnd : NoDup (members ++ [ws])).
  { apply NoDup_app. split; [| split; [| apply NoDup_singleton]].
    - subst members. destruct (canvasRooms h !! canvasId) as [room|] eqn:Hr; cbn [default].
      + destruct Hinv as [Ha _]. by destruct (Ha _ _ Hr) as (_ & ? & _).
      + apply NoDup_nil_2.
    - intros x Hx ->%list_elem_of_singleton. done. }
  destruct (handleJoinCanvas_state h d ws c canvasId username now Hne Hv)
    as (Hrooms & _ & _ & Hd).
  unfold left_first in Hrooms. rewrite Hj in Hrooms. fold members in Hrooms.
  rewrite (room_add_fresh _ _ Hw) in Hrooms.
  split; [by rewrite Hrooms, lookup_insert_eq |].
  split; [| rewrite Hd; split; [| done]].
  2: { unfold getCanvas, getOrCreateCanvas. cbn [fst canvases].
       rewrite lookup_insert_eq. by eexists. }
  intros peer. unfold handleJoinCanvas.
  destruct (String.eqb_spec canvasId EmptyString) as [? | _]; [done |].
  rewrite Hj, Hu. cbv zeta. cbn [fst]. fold members. rewrite (room_add_fresh _ _ Hw).
  fold userId name.
  set (c2 := with_username (with_canvasId c (Some canvasId)) name).
  set (h2 := {| canvasRooms := <[canvasId := members ++ [ws]]> (canvasRooms h);
                connections := <[ws := c2]> (connections h);
                ws_readyState := ws_readyState h; sent := sent h |}).
  change (WebSocketManager.conn_userId c2) with userId.
  rewrite getCanvasState_getOrCreateCanvas. fold state.
  set (m1 := JOIN_SUCCESS canvasId userId name).
  set (h3 := send h2 ws m1).
  assert (Husers : getCanvasUsers h3 canvasId
                   = getCanvasUsers h canvasId ++
                     [{| u_userId := userId; u_username := Some name |}]).
  { unfold getCanvasUsers. subst h3.
    destruct (send_frame h2 ws m1) as (-> & -> & _). subst h2.
    cbn [canvasRooms connections]. rewrite lookup_insert_eq, omap_app.
    rewrite omap_users_insert by done. cbn [omap list_omap]. rewrite lookup_insert_eq.
    subst members. by destruct (canvasRooms h !! canvasId). }
  rewrite Husers.
  set (m2 := CANVAS_STATE canvasId (cs_shapes state) (cs_version state) _).
  set (h4 := send h3 ws m2).
  assert (Hr4 : canvasRooms h4 = canvasRooms h2 /\ ws_readyState h4 = ws_readyState h /\
                ws_readyState h3 = ws_readyState h).
  { subst h4 h3. destruct (send_frame (send h2 ws m1) ws m2) as (-> & _ & ->).
    destruct (send_frame h2 ws m1) as (-> & _ & ->). done. }
  destruct Hr4 as (Hr4 & Hs4 & Hs3).
  rewrite received_broadcast; rewrite Hr4; subst h2; cbn [canvasRooms];
    rewrite lookup_insert_eq; cbn [default]; [| exact Hnd].
  rewrite Hs4. subst h4. rewrite received_send, Hs3. subst h3.
  rewrite received_send. cbn [ws_readyState].
  change (received peer {| canvasRooms := <[canvasId := members ++ [ws]]> (canvasRooms h);
                           connections := <[ws := c2]> (connections h);
                           ws_readyState := ws_readyState h; sent := sent h |})
    with (received peer h).
  rewrite <- !app_assoc. f_equal.
  destruct (decide (peer = ws)) as [-> | Hp].
  - rewrite (decide_True (P := ws ∈ members ++ [ws]))
      by (apply elem_of_app; right; by apply list_elem_of_singleton).
    rewrite (bool_decide_eq_false_2 (Some ws ≠ Some ws)) by (intros H; by apply H).
    cbn [andb]. destruct (is_open (ws_readyState h ws)); done.
  - rewrite (bool_decide_eq_true_2 (Some peer ≠ Some ws)) by congruence. cbn [andb app].
    destruct (decide (peer ∈ members)) as [Hm | Hm].
    + rewrite decide_True by (apply elem_of_app; by left).
      by destruct (is_open _).
    + rewrite decide_False; [by destruct (is_open _) |].
      intros [? | ?%list_elem_of_singleton]%elem_of_app; done.
Qed.

Lemma join_is_announced_witness :
  let s := serve_all [Connection 1 "k1" "aaaa1111"; Connection 2 "k2" "bbbb2222";
                      Message 1 (ReqJoinCanvas (Some Examples.C1) (Some "Ann")) 100
                        Examples.evt1 (fun _ => Examples.evt1)] in
  exists c,
    connections s.1 !! 2%nat = Some c /\ joined c = None /\
    uuid_in Examples.C1 = Some Examples.C1 /\ uuid_in "room1" = None /\
    canvasRooms (handleJoinCanvas s.1 s.2 2 c (Some Examples.C1) None 200).1 !! Examples.C1
    = Some [1%nat; 2%nat] /\
    received 1 (handleJoinCanvas s.1 s.2 2 c (Some Examples.C1) None 200).1
    = received 1 s.1 ++ [USER_JOINED "bbbb2222" "User-bbbb"] /\
    canvasRooms (handleJoinCanvas s.1 s.2 2 c (Some "room1") None 200).1
    = canvasRooms s.1 /\
    received 2 (handleJoinCanvas s.1 s.2 2 c (Some "room1") None 200).1
    = received 2 s.1 ++ [JOIN_ERROR "room1" (uuid_syntax_error "room1")].
Proof.
  intros s.
  destruct (connections s.1 !! 2%nat) as [c|] eqn:Hc; [| vm_compute in Hc; discriminate Hc].
  assert (Hc' := Hc). vm_compute in Hc'. injection Hc' as Hc'.
  assert (Hj : joined c = None) by (rewrite <- Hc'; reflexivity).
  assert (Hu : uuid_in Examples.C1 = Some Examples.C1) by (vm_compute; reflexivity).
  assert (Hu' : uuid_in "room1" = None) by (vm_compute; reflexivity).
  destruct (join_is_announced s.1 s.2 2 c Examples.C1 None 200
              (serve_all_keeps _) Hc Hj) as [Hjoin _]; [discriminate |].
  destruct (Hjoin Hu) as (Hroom & Hrec & _).
  destruct (join_is_announced s.1 s.2 2 c "room1" None 200
              (serve_all_keeps _) Hc Hj) as [_ Herr]; [discriminate |].
  destruct (Herr Hu') as (Hrooms' & _ & _ & Hrec').
  exists c. split; [reflexivity |]. split; [exact Hj |].
  split; [exact Hu |]. split; [exact Hu' |]. split; [| split; [| split]].
  - rewrite Hroom. reflexivity.
  - rewrite (Hrec 1%nat), <- Hc'. reflexivity.
  - exact Hrooms'.
  - rewrite (Hrec' 2%nat). reflexivity.
Defined.

Lemma handleLeaveCanvas_sent h ws c canvasId room :
  joined c = Some canvasId -> canvasRooms h !! canvasId = Some room -> NoDup room ->
  forall peer,
    received peer (handleLeaveCanvas h ws c)
    = received peer h ++
      if decide (peer ∈ room /\ peer <> ws)
      then (if is_open (ws_readyState h peer)
            then [USER_LEFT (WebSocketManager.conn_userId c)] else [])
      else [].
Proof.
  intros Hj Hroom Hnd peer. unfold handleLeaveCanvas. rewrite Hj, Hroom. cbv zeta.
  set (msg := USER_LEFT (WebSocketManager.conn_userId c)).
  set (h1 := if decide (length (room_delete ws room) = 0%nat)
             then with_rooms h (delete canvasId (canvasRooms h))
             else with_rooms h (<[canvasId := room_delete ws room]> (canvasRooms h))).
  change (received peer (with_connections ?h0 ?cs)) with (received peer h0).
  assert (H1 : default [] (canvasRooms h1 !! canvasId) = room_delete ws room /\
               ws_readyState h1 = ws_readyState h /\ received peer h1 = received peer h).
  { subst h1. destruct (decide (length (room_delete ws room) = 0%nat)) as [Hl | Hl];
      cbn [with_rooms canvasRooms ws_readyState].
    - rewrite lookup_delete_eq. apply length_zero_iff_nil in Hl. by rewrite Hl.
    - by rewrite lookup_insert_eq. }
  destruct H1 as (Hr1 & Hs1 & Hrec1).
  rewrite received_broadcast; rewrite Hr1; [| by apply NoDup_filter].
  rewrite Hs1, Hrec1. f_equal.
  rewrite (bool_decide_eq_true_2 (Some peer ≠ None)) by done. cbn [andb].
  destruct (decide (peer ∈ room_delete ws room)) as [Hin | Hin],
           (decide (peer ∈ room /\ peer <> ws)) as [Hin' | Hin']; try done;
    rewrite room_delete_spec in Hin; tauto.
Qed.

(** X28: when a socket that is joined to a canvas closes, its connection is
    dropped and it is in no room; the room loses it, and goes when it was
    the last; every other OPEN socket of the room is written USER_LEFT once
    and nobody else is written to. *)
Theorem close_detaches (h : hub) (ws : nat) (c : connInfo) (canvasId : string) :
  rooms_match_connections h ->
  connections h !! ws = Some c ->
  joined c = Some canvasId ->
  let h' := handleDisconnect h ws in
  let members := default [] (canvasRooms h !! canvasId) in
  connections h' !! ws = None /\
  (forall k room, canvasRooms h' !! k = Some room -> ws ∉ room) /\
  canvasRooms h' !! canvasId
  = (if decide (room_delete ws members = []) then None
     else Some (room_delete ws members)) /\
  (forall peer,
     received peer h'
     = received peer h ++
       if decide (peer ∈ members /\ peer <> ws)
       then (if is_open (ws_readyState h peer)
             then [USER_LEFT (WebSocketManager.conn_userId c)] else [])
       else []).
Proof.
  intros Hinv Hc Hj h' members. subst h'. unfold handleDisconnect. rewrite Hc, Hj.
  cbn [with_connections connections canvasRooms].
  destruct (handleLeaveCanvas_keeps h ws c Hinv Hc) as (_ & Hno & _ & _).
  pose proof Hinv as [Ha Hb]. destruct (Hb _ _ _ Hc Hj) as (room & Hroom & Hin).
  subst members. rewrite Hroom. cbn [default].
  split; [apply lookup_delete_eq |]. split; [exact Hno |].
  split; [by rewrite (handleLeaveCanvas_rooms h ws c canvasId room), decide_True |].
  intros peer. change (received peer (with_connections ?h0 ?cs)) with (received peer h0).
  change (received peer {| canvasRooms := canvasRooms ?h0; connections := ?cs;
                           ws_readyState := ws_readyState ?h0; sent := sent ?h0 |})
    with (received peer h0).
  apply (handleLeaveCanvas_sent h ws c canvasId room Hj Hroom).
  by destruct (Ha _ _ Hroom) as (_ & ? & _).
Qed.

Lemma close_detaches_witness :
  let s := serve_all [Connection 1 "k1" "aaaa1111"; Connection 2 "k2" "bbbb2222";
                      Message 1 (ReqJoinCanvas (Some Examples.C1) (Some "Ann")) 100
                        Examples.evt1 (fun _ => Examples.evt1);
                      Message 2 (ReqJoinCanvas (Some Examples.C1) None) 200
                        Examples.evt1 (fun _ => Examples.evt1)] in
  exists c,
    connections s.1 !! 2%nat = Some c /\ joined c = Some Examples.C1 /\
    connections (handleDisconnect s.1 2) !! 2%nat = None /\
    canvasRooms (handleDisconnect s.1 2) !! Examples.C1 = Some [1%nat] /\
    received 1 (handleDisconnect s.1 2) = received 1 s.1 ++ [USER_LEFT "bbbb2222"].
Proof.
  intros s.
  destruct (connections s.1 !! 2%nat) as [c|] eqn:Hc; [| vm_compute in Hc; discriminate Hc].
  assert (Hc' := Hc). vm_compute in Hc'. injection Hc' as Hc'.
  assert (Hj : joined c = Some Examples.C1) by (rewrite <- Hc'; reflexivity).
  destruct (close_detaches s.1 2 c Examples.C1 (serve_all_keeps _) Hc Hj)
    as (Hconn & _ & Hroom & Hrec).
  exists c. split; [reflexivity |]. split; [exact Hj |]. split; [exact Hconn |]. split.
  - rewrite Hroom. reflexivity.
  - rewrite (Hrec 1%nat), <- Hc'. reflexivity.
Defined.

(** X29: a cursor position of a socket that is joined to a canvas is written
    once to every other OPEN socket of the room and to nobody else, the
    sender included; one of a socket that is joined to no canvas is dropped
    without an answer; rooms and connections stay as they are. *)
Theorem cursor_reaches_the_others (h : hub) (ws : nat) (c : connInfo) (x y : option json) :
  rooms_match_connections h ->
  let h' := handleCursorMove h ws c x y in
  canvasRooms h' = canvasRooms h /\ connections h' = connections h /\
  (forall peer,
     received peer h'
     = received peer h ++
       match joined c with
       | Some canvasId =>
           if decide (peer ∈ default [] (canvasRooms h !! canvasId) /\ peer <> ws)
           then (if is_open (ws_readyState h peer)
                 then [CURSOR_MOVE (WebSocketManager.conn_userId c)
                         (WebSocketManager.conn_username c) x y]
                 else [])
           else []
       | None => []
       end).
Proof.
  intros [Ha _] h'. subst h'. unfold handleCursorMove.
  destruct (joined c) as [canvasId|]; [| split; [done |]; split; [done |];
                                          intros peer; by rewrite app_nil_r].
  match goal with
  | |- context [broadcastToCanvas ?h0 ?k ?m ?e] =>
      destruct (broadcastToCanvas_frame h0 k m e) as (-> & -> & _)
  end.
  split; [done |]. split; [done |]. intros peer. rewrite received_broadcast.
  - f_equal.
    destruct (decide (peer ∈ default [] (canvasRooms h !! canvasId))) as [Hin | Hin].
    + destruct (decide (peer = ws)) as [-> | Hne].
      * rewrite (bool_decide_eq_false_2 (Some ws ≠ Some ws)) by (intros H; by apply H).
        rewrite decide_False by (intros [_ ?]; done). done.
      * rewrite (bool_decide_eq_true_2 (Some peer ≠ Some ws)) by congruence.
        by rewrite decide_True.
    + rewrite decide_False by (intros [? _]; done). done.
  - destruct (canvasRooms h !! canvasId) as [room|] eqn:Hr; cbn [default].
    + by destruct (Ha _ _ Hr) as (_ & ? & _).
    + apply NoDup_nil_2.
Qed.

Lemma cursor_reaches_the_others_witness :
  let s := serve_all [Connection 1 "k1" "aaaa1111"; Connection 2 "k2" "bbbb2222";
                      Message 1 (ReqJoinCanvas (Some Examples.C1) (Some "Ann")) 100
                        Examples.evt1 (fun _ => Examples.evt1);
                      Message 2 (ReqJoinCanvas (Some Examples.C1) None) 200
                        Examples.evt1 (fun _ => Examples.evt1)] in
  exists c,
    connections s.1 !! 2%nat = Some c /\
    received 1 (handleCursorMove s.1 2 c (Some (JNum 3)) (Some (JNum 4)))
    = received 1 s.1 ++ [CURSOR_MOVE "bbbb2222" (Some "User-bbbb") (Some (JNum 3))
                           (Some (JNum 4))] /\
    received 2 (handleCursorMove s.1 2 c (Some (JNum 3)) (Some (JNum 4)))
    = received 2 s.1.
Proof.
  intros s.
  destruct (connections s.1 !! 2%nat) as [c|] eqn:Hc; [| vm_compute in Hc; discriminate Hc].
  assert (Hc' := Hc). vm_compute in Hc'. injection Hc' as Hc'.
  destruct (cursor_reaches_the_others s.1 2 c (Some (JNum 3)) (Some (JNum 4))
              (serve_all_keeps _)) as (_ & _ & Hrec).
  exists c. split; [reflexivity |]. split.
  - rewrite (Hrec 1%nat), <- Hc'. reflexivity.
  - rewrite (Hrec 2%nat), <- Hc'. cbn. by rewrite app_nil_r.
Defined.

End RoomMessagesFacts.

(** ** The server as a whole *)

Module ServerHistoryFacts.
Import EventStore Rooms RoomsFacts RoomMessagesFacts.

Lemma handleShapeEvent_db m d ws c message now eventId :
  (WebSocketManager.handleShapeEvent m d ws c message now eventId).2
  = match joined c with
    | Some canvasId =>
        run_call d (CallStoreEvent canvasId (WebSocketManager.conn_userId c)
                      (WebSocketManager.rq_eventType message)
                      (WebSocketManager.rq_shapeId message)
                      (WebSocketManager.rq_payload message) now eventId)
    | None => d
    end.
Proof.
  unfold WebSocketManager.handleShapeEvent. destruct (joined c) as [k|]; [| done].
  cbv zeta. cbn [run_call]. by destruct (storeEvent _ _ _ _ _ _ _ _) as [[d' r]|].
Qed.

Lemma handleBatchSync_db m d ws c events v now ids :
  (WebSocketManager.handleBatchSync m d ws c events v now ids).2
  = match joined c with
    | Some canvasId =>
        run_call d (CallStoreBatchEvents canvasId
                      ((fun e => {| be_localEventId := WebSocketManager.sy_localEventId e;
                                    be_userId := WebSocketManager.conn_userId c;
                                    be_eventType := WebSocketManager.sy_eventType e;
                                    be_shapeId := WebSocketManager.sy_shapeId e;
                                    be_payload := WebSocketManager.sy_payload e |})
                         <$> events) now ids)
    | None => d
    end.
Proof.
  unfold WebSocketManager.handleBatchSync. destruct (joined c) as [k|]; [| done].
  cbv zeta. cbn [run_call]. by destruct (storeBatchEvents _ _ _ _ _) as [[d' [s cf]]|].
Qed.

Lemma run_call_keeps_canvases d c k :
  is_Some (canvases d !! k) -> is_Some (canvases (run_call d c) !! k).
Proof.
  intros [row Hrow].
  destruct (StoreInvariants.run_call_canvas d c k row Hrow) as (row' & -> & _). by eexists.
Qed.

Lemma handleMessage_keeps_canvases h d ws message now eventId ids k :
  is_Some (canvases d !! k) ->
  is_Some (canvases (handleMessage h d ws message now eventId ids).2 !! k).
Proof.
  intros Hk. unfold handleMessage. destruct (connections h !! ws) as [c|]; [| done].
  destruct message as [canvasId username | | rq | ty sid lid | evs v | v | x y | ty];
    try done.
  - unfold handleJoinCanvas. destruct canvasId as [canvasId|]; [| done].
    destruct (String.eqb canvasId EmptyString); [done |].
    destruct (uuid_in canvasId); [| done]. cbv zeta. cbn [snd].
    exact (run_call_keeps_canvases d (CallGetOrCreateCanvas canvasId "Untitled Canvas" now)
             k Hk).
  - pose proof (handleShapeEvent_db (to_manager h) d ws c rq now eventId) as H.
    destruct (WebSocketManager.handleShapeEvent _ _ _ _ _ _ _) as [m d']. cbn [snd] in *.
    subst d'. destruct (joined c); [by apply run_call_keeps_canvases | done].
  - pose proof (handleBatchSync_db (to_manager h) d ws c evs v now ids) as H.
    destruct (WebSocketManager.handleBatchSync _ _ _ _ _ _ _ _) as [m d']. cbn [snd] in *.
    subst d'. destruct (joined c); [by apply run_call_keeps_canvases | done].
Qed.

Lemma handleJoinCanvas_invalid h d ws c username now :
  handleJoinCanvas h d ws c None username now
  = (sendError h ws "Canvas ID is required", d) /\
  handleJoinCanvas h d ws c (Some EmptyString) username now
  = (sendError h ws "Canvas ID is required", d).
Proof. done. Qed.

Lemma sendError_frame h ws e :
  canvasRooms (sendError h ws e) = canvasRooms h /\
  connections (sendError h ws e) = connections h.
Proof.
  unfold sendError. by destruct (send_frame h ws (Core (WebSocketManager.ERROR e)))
    as (-> & -> & _).
Qed.

Lemma left_first_joined h ws c :
  rooms_match_connections h -> connections h !! ws = Some c ->
  (exists c', connections (left_first h ws c) !! ws = Some c' /\ joined c' = None) /\
  (forall x, x <> ws -> connections (left_first h ws c) !! x = connections h !! x).
Proof.
  intros Hinv Hc. unfold left_first. destruct (joined c) as [k|] eqn:Hj.
  - destruct (handleLeaveCanvas_keeps h ws c Hinv Hc) as (_ & _ & (c' & Hc' & Hj') & Hother).
    split; [| done]. by exists c'.
  - split; [| done]. by exists c.
Qed.

Lemma handleMessage_connections h d ws message now eventId ids x cx k :
  rooms_match_connections h ->
  connections (handleMessage h d ws message now eventId ids).1 !! x = Some cx ->
  joined cx = Some k ->
  (connections h !! x = Some cx) \/
  (x = ws /\ is_Some (uuid_in k) /\
   exists username, message = ReqJoinCanvas (Some k) username).
Proof.
  intros Hinv. unfold handleMessage. destruct (connections h !! ws) as [c|] eqn:Hc; [| by left].
  destruct message as [canvasId username | | rq | ty sid lid | evs v | v | a b | ty];
    cbn [fst].
  - destruct canvasId as [canvasId|];
      [destruct (String.eqb_spec canvasId EmptyString) as [-> | Hne] |].
    + destruct (handleJoinCanvas_invalid h d ws c username now) as [_ ->]. cbn [fst].
      destruct (sendError_frame h ws "Canvas ID is required") as [_ ->]. by left.
    + destruct (uuid_in canvasId) as [u|] eqn:Hu.
      * assert (Hv : is_Some (uuid_in canvasId)) by by rewrite Hu.
        destruct (handleJoinCanvas_state h d ws c canvasId username now Hne Hv)
          as (_ & -> & _).
        destruct (left_first_keeps h ws c Hinv Hc) as (_ & _ & Hother).
        destruct (decide (x = ws)) as [-> | Hx].
        -- rewrite lookup_insert_eq. intros [= <-]. rewrite joined_joined_as by done.
           intros [= <-]. right. eauto.
        -- rewrite lookup_insert_ne, Hother by done. by left.
      * rewrite (handleJoinCanvas_no_uuid h d ws c canvasId username now Hne Hu). cbn [fst].
        destruct (send_frame (left_first h ws c) ws
                    (JOIN_ERROR canvasId (uuid_syntax_error canvasId))) as (_ & -> & _).
        destruct (left_first_joined h ws c Hinv Hc) as [(c' & Hc' & Hj') Hother].
        destruct (decide (x = ws)) as [-> | Hx].
        -- rewrite Hc'. intros [= <-]. congruence.
        -- rewrite Hother by done. by left.
    + destruct (handleJoinCanvas_invalid h d ws c username now) as [-> _]. cbn [fst].
      destruct (sendError_frame h ws "Canvas ID is required") as [_ ->]. by left.
  - destruct (handleLeaveCanvas_keeps h ws c Hinv Hc) as (_ & _ & (c' & Hc' & Hj') & Hother).
    destruct (decide (x = ws)) as [-> | Hx].
    + rewrite Hc'. intros [= <-]. congruence.
    + rewrite Hother by done. by left.
  - destruct (WebSocketManager.handleShapeEvent _ _ _ _ _ _ _). by left.
  - destruct (handleShapeEvent_without_payload_frame h d ws c ty sid lid) as (_ & -> & _).
    by left.
  - destruct (WebSocketManager.handleBatchSync _ _ _ _ _ _ _ _). by left.
  - unfold handleGetState.
    destruct (joined c); [destruct v |]; unfold sendError;
      match goal with
      | |- connections (send ?h0 ?w ?m) !! _ = _ -> _ =>
          destruct (send_frame h0 w m) as (_ & -> & _); by left
      end.
  - unfold handleCursorMove. destruct (joined c) as [k'|]; [| by left].
    match goal with
    | |- connections (broadcastToCanvas ?h0 ?k0 ?m ?e) !! _ = _ -> _ =>
        destruct (broadcastToCanvas_frame h0 k0 m e) as (_ & -> & _); by left
    end.
  - unfold sendError.
    match goal with
    | |- connections (send ?h0 ?w ?m) !! _ = _ -> _ =>
        destruct (send_frame h0 w m) as (_ & -> & _); by left
    end.
Qed.

Lemma joined_nonempty (c : connInfo) (k : string) : joined c = Some k -> k <> EmptyString.
Proof.
  unfold WebSocketManager.joined. destruct (WebSocketManager.conn_canvasId c) as [id|];
    [| done].
  destruct (String.eqb_spec id EmptyString); [done |]. intros [= <-]. done.
Qed.

Lemma serve_keeps_canvases s i k :
  is_Some (getCanvas s.2 k) -> is_Some (getCanvas (serve s i).2 k).
Proof.
  unfold getCanvas. intros Hk.
  destruct i as [ws cid uid | ws st | ws message now eventId ids | ws]; cbn [serve snd];
    try done.
  - by destruct (connections s.1 !! ws).
  - by apply handleMessage_keeps_canvases.
Qed.

Lemma serve_keeps_joined_canvases s i :
  rooms_match_connections s.1 -> joined_canvases_exist s ->
  joined_canvases_exist (serve s i).
Proof.
  intros Hinv HJ. destruct s as [h d]. cbn [fst snd] in *.
  destruct i as [ws cid uid | ws st | ws message now eventId ids | ws]; cbn [serve fst snd].
  - destruct (connections h !! ws) as [c|] eqn:Hc; [done |].
    intros x cx k. cbn. destruct (decide (x = ws)) as [-> | Hx].
    + rewrite lookup_insert_eq. intros [= <-]. done.
    + rewrite lookup_insert_ne by done. apply HJ.
  - exact HJ.
  - intros x cx k Hx Hj.
    destruct (handleMessage_connections h d ws message now eventId ids x cx k Hinv Hx Hj)
      as [Hold | (-> & Hu & username & ->)].
    + destruct (HJ x cx k Hold Hj) as [Hu Hrow]. split; [done |].
      by apply (serve_keeps_canvases (h, d) (Message ws message now eventId ids)).
    + split; [done |]. unfold handleMessage in *.
      destruct (connections h !! ws) as [c|] eqn:Hc.
      * unfold handleJoinCanvas.
        destruct (String.eqb_spec k EmptyString) as [-> | Hne].
        { by apply joined_nonempty in Hj. }
        destruct Hu as [u ->].
        cbv zeta. cbn [snd getOrCreateCanvas fst canvases]. unfold getCanvas.
        cbn [canvases]. rewrite lookup_insert_eq. by eexists.
      * cbn [fst] in Hx. congruence.
  - intros x cx k. unfold handleDisconnect.
    destruct (connections h !! ws) as [c|] eqn:Hc; [| apply HJ].
    cbn [fst snd with_connections connections]. fold (left_first h ws c).
    destruct (left_first_keeps h ws c Hinv Hc) as (_ & _ & Hother).
    destruct (decide (x = ws)) as [-> | Hx].
    + by rewrite lookup_delete_eq.
    + rewrite lookup_delete_ne, Hother by done. apply HJ.
Qed.

Lemma serve_all_joined_canvases inputs : joined_canvases_exist (serve_all inputs).
Proof.
  unfold serve_all. induction inputs as [|i inputs IH] using rev_ind.
  - intros ws c k H. cbn in H. by rewrite lookup_empty in H.
  - rewrite foldl_snoc. apply serve_keeps_joined_canvases; [| done].
    apply (serve_all_keeps inputs).
Qed.

(** X30: after any history of inputs, each handled to its end before the
    next, every socket that is joined to a canvas has joined it by an id
    that PostgreSQL reads as a uuid, and that canvas has a row: a join by
    another text was answered JOIN_ERROR and has left the socket in no room.
    No input takes away the row of a canvas. *)
Theorem joined_canvas_has_a_row (inputs : list input) :
  let s := serve_all inputs in
  (forall ws c canvasId,
     connections s.1 !! ws = Some c -> joined c = Some canvasId ->
     is_Some (uuid_in canvasId) /\ is_Some (getCanvas s.2 canvasId)) /\
  (forall i canvasId,
     is_Some (getCanvas s.2 canvasId) -> is_Some (getCanvas (serve s i).2 canvasId)).
Proof.
  intros s. split.
  - apply (serve_all_joined_canvases inputs).
  - intros i canvasId. apply serve_keeps_canvases.
Qed.

Lemma joined_canvas_has_a_row_witness :
  let s := serve_all [Connection 1 "k1" "aaaa1111"; Connection 2 "k2" "bbbb2222";
                      Message 1 (ReqJoinCanvas (Some Examples.C1) (Some "Ann")) 100
                        Examples.evt1 (fun _ => Examples.evt1);
                      Message 2 (ReqJoinCanvas (Some "room1") None) 200
                        Examples.evt1 (fun _ => Examples.evt1);
                      Message 1 (ReqShapeEventWithoutPayload "SHAPE_DELETED"
                                   (Some Examples.S1) (Some "l1")) 300
                        Examples.evt2 (fun _ => Examples.evt2)] in
  (exists c, connections s.1 !! 1%nat = Some c /\ joined c = Some Examples.C1 /\
             is_Some (uuid_in Examples.C1) /\ is_Some (getCanvas s.2 Examples.C1)) /\
  (exists c, connections s.1 !! 2%nat = Some c /\ joined c = None) /\
  received 2 s.1 = [JOIN_ERROR "room1" (uuid_syntax_error "room1")] /\
  received 1 s.1
  = [JOIN_SUCCESS Examples.C1 "aaaa1111" "Ann";
     CANVAS_STATE Examples.C1 [] 0 [{| u_userId := "aaaa1111"; u_username := Some "Ann" |}];
     Core (WebSocketManager.ERROR "Failed to process event")] /\
  events s.2 = [].
Proof.
  intros s.
  destruct (connections s.1 !! 1%nat) as [c|] eqn:Hc; [| vm_compute in Hc; discriminate Hc].
  assert (Hc' := Hc). vm_compute in Hc'. injection Hc' as Hc'.
  assert (Hj : joined c = Some Examples.C1) by (rewrite <- Hc'; reflexivity).
  destruct (joined_canvas_has_a_row
              [Connection 1 "k1" "aaaa1111"; Connection 2 "k2" "bbbb2222";
               Message 1 (ReqJoinCanvas (Some Examples.C1) (Some "Ann")) 100
                 Examples.evt1 (fun _ => Examples.evt1);
               Message 2 (ReqJoinCanvas (Some "room1") None) 200
                 Examples.evt1 (fun _ => Examples.evt1);
               Message 1 (ReqShapeEventWithoutPayload "SHAPE_DELETED"
                            (Some Examples.S1) (Some "l1")) 300
                 Examples.evt2 (fun _ => Examples.evt2)]) as [Hrow _].
  destruct (Hrow 1%nat c Examples.C1 Hc Hj) as [Hu Hr].
  split; [exists c; split; [reflexivity |]; split; [exact Hj |]; split; [exact Hu | exact Hr] |].
  split; [eexists; split; [vm_compute; reflexivity | reflexivity] |].
  split; [vm_compute; reflexivity |]. split; [vm_compute; reflexivity | reflexivity].
Defined.

End ServerHistoryFacts.
